(** * EGL pbuffer offscreen provider: slot pool, frame contexts and swap

    A shallow embedding of [modules/video_filter/egl_pbuffer.c].

    The C functions are written in a small state monad over the module's
    private structure [vlc_gl_pbuffer].  Calls into EGL, OpenGL and the
    threading primitives are recorded, in program order, in a trace; what
    those calls return is supplied by an environment argument.  A failed
    [assert] and a thread suspended in [vlc_cond_wait] are outcomes of
    their own. *)

From Stdlib Require Import ZArith List Bool Lia.
From stdpp Require Import base option list.
Import ListNotations.

Local Open Scope Z_scope.

(** ** C integers *)

Definition INT_MAX : Z := 2147483647.
Definition INT_MIN : Z := -2147483648.

(** Value of a mathematical integer once stored in an [int] (32 bits,
    two's complement).  C leaves signed overflow undefined; the embedding
    takes the wrapped value, and the statements below say where they need
    the numbers to fit. *)
Definition wrap_int (z : Z) : Z := (z + 2 ^ 31) mod 2 ^ 32 - 2 ^ 31.

(** Value once stored in an [unsigned]. *)
Definition wrap_uint (z : Z) : Z := z mod 2 ^ 32.

(** Pointers and GL/EGL handles are integers; [NULL], [EGL_NO_DISPLAY],
    [EGL_NO_SURFACE] and [EGL_NO_CONTEXT] are all zero. *)
Definition NULL : Z := 0.

Inductive vlc_status : Set := VLC_SUCCESS | VLC_EGENERIC | VLC_ENOMEM.

(** ** Data *)

Definition BUFFER_COUNT : nat := 4.

(** [struct pbo_picture_context].  The [lock] and [cond] members point to
    the pool's own mutex and condition variable in every slot, and the
    [destroy]/[copy] callbacks are the two functions below in every slot;
    a pointer to a context is the index of its slot. *)
Record pbo_picture_context : Set := mk_context {
  vctx : Z;
  buffer_mapping : Z;
  rc : Z;
}.

Inductive vlc_fourcc : Set := VLC_CODEC_UNSET | VLC_CODEC_RGBA.

Record video_format_t : Set := mk_format {
  i_chroma : vlc_fourcc;
  i_width : Z;
  i_height : Z;
  i_visible_width : Z;
  i_visible_height : Z;
}.

Record vlc_gl_pbuffer : Set := mk_sys {
  lock : bool;                       (* the mutex is held *)
  fmt_out : video_format_t;
  api_ready : bool;                  (* vlc_gl_api_Init has filled [api] *)
  current_flip : nat;
  pixelbuffers : list Z;
  framebuffers : list Z;
  textures : list Z;
  picture_contexts : list pbo_picture_context;
  display : Z;
  surface : Z;
  context : Z;
  current : bool;
}.

(** One plane of a picture resource and the picture built from it. *)
Record plane_t : Set := mk_plane {
  p_pixels : Z;
  i_lines : Z;
  i_pitch : Z;
}.

Record picture_t : Set := mk_picture {
  format : video_format_t;
  p0 : plane_t;
  pic_context : option nat;          (* slot of the attached context *)
}.

(** ** Trace *)

Inductive gl_target : Set :=
| GL_PIXEL_PACK_BUFFER | GL_FRAMEBUFFER | GL_DRAW_FRAMEBUFFER | GL_TEXTURE_2D.

Inductive event : Set :=
| EglMakeCurrent (bound : bool)      (* false: EGL_NO_SURFACE, EGL_NO_CONTEXT *)
| EglTerminate
| GlGenBuffers (n : nat)
| GlGenFramebuffers (n : nat)
| GlGenTextures (n : nat)
| GlBindBuffer (target : gl_target) (name : Z)
| GlBufferData (target : gl_target) (size : Z)
| GlBindFramebuffer (target : gl_target) (name : Z)
| GlBindTexture (target : gl_target) (name : Z)
| GlTexImage2D (target : gl_target) (width height : Z)
| GlFramebufferTexture2D (target : gl_target) (texture : Z)
| GlUnmapBuffer (target : gl_target)
| GlReadPixels (x y width height : Z)
| GlMapBufferRange (target : gl_target) (offset length : Z)
| GlGetIntegerv
| GlDeleteBuffers (n : nat) (names : list Z)
| GlDeleteFramebuffers (n : nat) (names : list Z)
| GlDeleteTextures (n : nat) (names : list Z)
| MutexLock
| MutexUnlock
| CondWait
| CondSignal
| RcWrite (slot : nat) (old new : Z) (held : bool)
  (* a store to [picture_contexts[slot].rc]; [held] tells whether the
     mutex was held when the store was made *)
| RcScan (held : bool).
  (* one pass of the [for] loop of [UpdateBuffer] over the counts; [held]
     tells whether the mutex was held when the counts were read *)

Record world : Set := mk_world {
  sys : vlc_gl_pbuffer;
  trace : list event;
}.

(** ** Field updates *)

Definition set_rc (v : Z) (c : pbo_picture_context) : pbo_picture_context :=
  mk_context (vctx c) (buffer_mapping c) v.
Definition set_buffer_mapping (v : Z) (c : pbo_picture_context) : pbo_picture_context :=
  mk_context (vctx c) v (rc c).
Definition set_vctx (v : Z) (c : pbo_picture_context) : pbo_picture_context :=
  mk_context v (buffer_mapping c) (rc c).

Definition set_lock (v : bool) (s : vlc_gl_pbuffer) : vlc_gl_pbuffer :=
  mk_sys v (fmt_out s) (api_ready s) (current_flip s) (pixelbuffers s)
         (framebuffers s) (textures s) (picture_contexts s)
         (display s) (surface s) (context s) (current s).
Definition set_fmt_out (v : video_format_t) (s : vlc_gl_pbuffer) : vlc_gl_pbuffer :=
  mk_sys (lock s) v (api_ready s) (current_flip s) (pixelbuffers s)
         (framebuffers s) (textures s) (picture_contexts s)
         (display s) (surface s) (context s) (current s).
Definition set_api_ready (v : bool) (s : vlc_gl_pbuffer) : vlc_gl_pbuffer :=
  mk_sys (lock s) (fmt_out s) v (current_flip s) (pixelbuffers s)
         (framebuffers s) (textures s) (picture_contexts s)
         (display s) (surface s) (context s) (current s).
Definition set_current_flip (v : nat) (s : vlc_gl_pbuffer) : vlc_gl_pbuffer :=
  mk_sys (lock s) (fmt_out s) (api_ready s) v (pixelbuffers s)
         (framebuffers s) (textures s) (picture_contexts s)
         (display s) (surface s) (context s) (current s).
Definition set_names (pb fb tx : list Z) (s : vlc_gl_pbuffer) : vlc_gl_pbuffer :=
  mk_sys (lock s) (fmt_out s) (api_ready s) (current_flip s) pb fb tx
         (picture_contexts s)
         (display s) (surface s) (context s) (current s).
Definition set_picture_contexts (v : list pbo_picture_context)
    (s : vlc_gl_pbuffer) : vlc_gl_pbuffer :=
  mk_sys (lock s) (fmt_out s) (api_ready s) (current_flip s) (pixelbuffers s)
         (framebuffers s) (textures s) v
         (display s) (surface s) (context s) (current s).
Definition set_egl (d sf cx : Z) (s : vlc_gl_pbuffer) : vlc_gl_pbuffer :=
  mk_sys (lock s) (fmt_out s) (api_ready s) (current_flip s) (pixelbuffers s)
         (framebuffers s) (textures s) (picture_contexts s)
         d sf cx (current s).
Definition set_current (v : bool) (s : vlc_gl_pbuffer) : vlc_gl_pbuffer :=
  mk_sys (lock s) (fmt_out s) (api_ready s) (current_flip s) (pixelbuffers s)
         (framebuffers s) (textures s) (picture_contexts s)
         (display s) (surface s) (context s) v.

(** [a[i]] for an array of GL names. *)
Definition name_at (a : list Z) (i : nat) : Z := default 0 (a !! i).

(** ** The monad *)

Inductive outcome (A : Type) : Type :=
| Ret (a : A) (w : world)            (* the call returned [a] *)
| Abort (w : world)                  (* an assertion failed *)
| Blocked (w : world).               (* suspended in vlc_cond_wait *)
Arguments Ret {A} a w.
Arguments Abort {A} w.
Arguments Blocked {A} w.

Definition M (A : Type) : Type := world -> outcome A.

Definition ret {A} (a : A) : M A := fun w => Ret a w.

Definition bind {A B} (m : M A) (k : A -> M B) : M B :=
  fun w =>
    match m w with
    | Ret a w' => k a w'
    | Abort w' => Abort w'
    | Blocked w' => Blocked w'
    end.

Declare Scope cmd_scope.
Delimit Scope cmd_scope with cmd.
Notation "x <- m ;; k" := (bind m (fun x => k))
  (at level 100, m at next level, right associativity) : cmd_scope.
Notation "m ;; k" := (bind m (fun _ => k))
  (at level 100, right associativity) : cmd_scope.
Local Open Scope cmd_scope.

Definition get_sys : M vlc_gl_pbuffer := fun w => Ret (sys w) w.
Definition modify_sys (f : vlc_gl_pbuffer -> vlc_gl_pbuffer) : M unit :=
  fun w => Ret tt (mk_world (f (sys w)) (trace w)).
Definition emit (e : event) : M unit :=
  fun w => Ret tt (mk_world (sys w) (trace w ++ [e])).
Definition abort {A} : M A := fun w => Abort w.
Definition block {A} : M A := fun w => Blocked w.
Definition when (b : bool) (m : M unit) : M unit := if b then m else ret tt.

Fixpoint for_loop (n i : nat) (body : nat -> M unit) : M unit :=
  match n with
  | O => ret tt
  | S n' => body i ;; for_loop n' (S i) body
  end.

(** ** What the surroundings answer *)

(** Consumers act on a frame context from other threads. *)
Inductive consumer_op : Set :=
| Copy (slot : nat)                  (* context.copy *)
| Destroy (slot : nat).              (* context.destroy *)

(** Answers to the EGL calls of [InitEGL]. *)
Record egl_env : Set := mk_egl_env {
  egl_display : Z;                   (* eglGetDisplay *)
  egl_initialize : bool;             (* eglInitialize = EGL_TRUE *)
  egl_choose_config : bool;          (* eglChooseConfig = EGL_TRUE *)
  egl_cfgc : Z;                      (* number of configurations found *)
  egl_surface : Z;                   (* eglCreatePbufferSurface *)
  egl_bind_api : bool;               (* eglBindAPI = EGL_TRUE *)
  egl_context : Z;                   (* eglCreateContext *)
}.

(** Answers to the calls of [Open]. *)
Record open_env : Set := mk_open_env {
  obj_malloc_ok : bool;              (* vlc_obj_malloc did not return NULL *)
  egl : egl_env;
  make_current_ok : bool;            (* eglMakeCurrent = EGL_TRUE *)
  api_init_ok : bool;                (* vlc_gl_api_Init = VLC_SUCCESS *)
  gen_buffers : list Z;
  gen_framebuffers : list Z;
  gen_textures : list Z;
}.

(** Answers to the calls of one [Swap]: the pointer of glMapBufferRange,
    whether picture_NewFromResource can allocate, and, for each return of
    vlc_cond_wait, what the consumers did while the producer slept. *)
Record swap_env : Set := mk_swap_env {
  map_result : Z;
  picture_alloc : bool;
  wakeups : list (list consumer_op);
}.

(** ** The functions of the module *)

Section Build.

(** [assert] is compiled out when NDEBUG is defined. *)
Variable NDEBUG : bool.

Definition assert (c : bool) : M unit :=
  if NDEBUG then ret tt else if c then ret tt else abort.

(** The mutex of the pool.  Threads are interleaved at whole calls of the
    consumers' two functions, so the mutex is free whenever another thread
    runs; locking a held mutex suspends the caller. *)
Definition vlc_mutex_lock : M unit :=
  s <- get_sys ;;
  if lock s then block
  else (emit MutexLock ;; modify_sys (set_lock true)).

Definition vlc_mutex_unlock : M unit :=
  emit MutexUnlock ;; modify_sys (set_lock false).

Definition vlc_cond_signal : M unit := emit CondSignal.

(** [sys->current] handling. *)
Definition MakeCurrent (egl_ok : bool) : M vlc_status :=
  s <- get_sys ;;
  assert (negb (current s)) ;;
  emit (EglMakeCurrent true) ;;
  if negb egl_ok then ret VLC_EGENERIC
  else (modify_sys (set_current true) ;; ret VLC_SUCCESS).

Definition ReleaseCurrent : M unit :=
  s <- get_sys ;;
  assert (current s) ;;
  emit (EglMakeCurrent false) ;;
  modify_sys (set_current false).

(** [context->rc++] and [context->rc--] for the context of slot [i]. *)
Definition rc_add (i : nat) (d : Z) : M unit :=
  s <- get_sys ;;
  match picture_contexts s !! i with
  | None => ret tt
  | Some c =>
      let v := wrap_int (rc c + d) in
      modify_sys (set_picture_contexts (<[i := set_rc v c]> (picture_contexts s))) ;;
      emit (RcWrite i (rc c) v (lock s))
  end.

Definition picture_context_copy (input : nat) : M nat :=
  vlc_mutex_lock ;;
  rc_add input 1 ;;
  vlc_mutex_unlock ;;
  ret input.

Definition picture_context_destroy (input : nat) : M unit :=
  vlc_mutex_lock ;;
  rc_add input (-1) ;;
  vlc_cond_signal ;;
  vlc_mutex_unlock.

Definition consumer_step (op : consumer_op) : M unit :=
  match op with
  | Copy i => picture_context_copy i ;; ret tt
  | Destroy i => picture_context_destroy i
  end.

Fixpoint consumer_run (ops : list consumer_op) : M unit :=
  match ops with
  | [] => ret tt
  | op :: rest => consumer_step op ;; consumer_run rest
  end.

(** [vlc_cond_wait]: the mutex is released while the caller sleeps and held
    again when the call returns; [ops] is what the consumers did meanwhile. *)
Definition vlc_cond_wait (ops : list consumer_op) : M unit :=
  emit CondWait ;;
  modify_sys (set_lock false) ;;
  consumer_run ops ;;
  modify_sys (set_lock true).

Definition BindDrawFramebuffer : M unit :=
  s <- get_sys ;;
  emit (GlBindFramebuffer GL_DRAW_FRAMEBUFFER
          (name_at (framebuffers s) (current_flip s))).

(** The [for] loop of [UpdateBuffer], entered with [n] iterations left. *)
Inductive scan_result : Set :=
| Free (index : nat)                 (* goto out_loop *)
| Violated (index : nat)             (* assert(rc >= 0) failed *)
| Exhausted (index : nat).           (* the loop ran to its end *)

Fixpoint scan (n index : nat) (ctxs : list pbo_picture_context) : scan_result :=
  match n with
  | O => Exhausted index
  | S n' =>
      match ctxs !! index with
      | None => Exhausted index
      | Some c =>
          if negb NDEBUG && negb (0 <=? rc c) then Violated index
          else if rc c =? 0 then Free index
          else scan n' (S index) ctxs
      end
  end.

(** The [do ... while] loop of [UpdateBuffer]. *)
Fixpoint wait_free (wake : list (list consumer_op)) : M nat :=
  s <- get_sys ;;
  emit (RcScan (lock s)) ;;
  match scan BUFFER_COUNT 0 (picture_contexts s) with
  | Free index => ret index
  | Violated _ => abort
  | Exhausted index =>
      match wake with
      | [] => emit CondWait ;; modify_sys (set_lock false) ;; block
      | ops :: later =>
          vlc_cond_wait ops ;;
          if Nat.eqb index BUFFER_COUNT then wait_free later else ret index
      end
  end.

Definition UpdateBuffer (wake : list (list consumer_op)) : M unit :=
  vlc_mutex_lock ;;
  index <- wait_free wake ;;
  vlc_mutex_unlock ;;
  modify_sys (set_current_flip index) ;;
  BindDrawFramebuffer.

(** Modelled from the spec: [picture_NewFromResource] (core picture code,
    outside this module) builds the frame container from a raw pixel pointer,
    stride and height, or returns NULL when it cannot allocate. *)
Definition picture_NewFromResource (fmt : video_format_t) (p : plane_t)
    (can_alloc : bool) : option picture_t :=
  if can_alloc then Some (mk_picture fmt p None) else None.

Definition Swap (env : swap_env) : M (option picture_t) :=
  s <- get_sys ;;
  when (negb (current s)) (emit (EglMakeCurrent true)) ;;
  (* Read current framebuffer *)
  let context := current_flip s in
  emit (GlBindBuffer GL_PIXEL_PACK_BUFFER (name_at (pixelbuffers s) (current_flip s))) ;;
  emit (GlBindFramebuffer GL_FRAMEBUFFER (name_at (framebuffers s) (current_flip s))) ;;
  when (match picture_contexts s !! context with
        | Some c => negb (buffer_mapping c =? NULL)
        | None => false
        end)
       (emit (GlUnmapBuffer GL_PIXEL_PACK_BUFFER)) ;;
  let width := wrap_int (i_visible_width (fmt_out s)) in
  let height := wrap_int (i_visible_height (fmt_out s)) in
  emit (GlReadPixels 0 0 width height) ;;
  emit (GlMapBufferRange GL_PIXEL_PACK_BUFFER 0
          (wrap_int (wrap_int (width * height) * 4))) ;;
  let pixels := map_result env in
  emit GlGetIntegerv ;;
  let stride := width in
  modify_sys (fun s1 => set_picture_contexts
     (alter (set_buffer_mapping pixels) context (picture_contexts s1)) s1) ;;
  rc_add context 1 ;;
  (* Swap framebuffer *)
  UpdateBuffer (wakeups env) ;;
  s2 <- get_sys ;;
  when (negb (current s2)) (emit (EglMakeCurrent false)) ;;
  (* Output as picture *)
  let pict_resource := mk_plane pixels height (wrap_int (stride * 4)) in
  let output := picture_NewFromResource (fmt_out s2) pict_resource (picture_alloc env) in
  assert (match output with Some _ => true | None => false end) ;;
  match output with
  | None => rc_add context (-1) ;; ret None
  | Some pic =>
      modify_sys (fun s3 => set_picture_contexts
         (alter (set_vctx NULL) context (picture_contexts s3)) s3) ;;
      ret (Some (mk_picture (format pic) (p0 pic) (Some context)))
  end.

Definition InitEGL (e : egl_env) : M vlc_status :=
  modify_sys (fun s => set_egl (egl_display e) (surface s) (context s) s) ;;
  if egl_display e =? NULL then ret VLC_EGENERIC else
  if negb (egl_initialize e) then ret VLC_EGENERIC else
  if negb (egl_choose_config e) || (egl_cfgc e =? 0)
  then (emit EglTerminate ;; ret VLC_EGENERIC) else
  modify_sys (fun s => set_egl (display s) (egl_surface e) (context s) s) ;;
  if egl_surface e =? NULL
  then (assert false ;; emit EglTerminate ;; ret VLC_EGENERIC) else
  if negb (egl_bind_api e) then (emit EglTerminate ;; ret VLC_EGENERIC) else
  modify_sys (fun s => set_egl (display s) (surface s) (egl_context e) s) ;;
  if egl_context e =? NULL then (emit EglTerminate ;; ret VLC_EGENERIC) else
  ret VLC_SUCCESS.

(** One turn of the initialisation loop of [Open]. *)
Definition Open_slot (width height : Z) (i : nat) : M unit :=
  s <- get_sys ;;
  emit (GlBindBuffer GL_PIXEL_PACK_BUFFER (name_at (pixelbuffers s) i)) ;;
  emit (GlBufferData GL_PIXEL_PACK_BUFFER (wrap_uint (wrap_uint (width * height) * 4))) ;;
  emit (GlBindFramebuffer GL_FRAMEBUFFER (name_at (framebuffers s) i)) ;;
  emit (GlBindTexture GL_TEXTURE_2D (name_at (textures s) i)) ;;
  emit (GlTexImage2D GL_TEXTURE_2D (wrap_int width) (wrap_int height)) ;;
  emit (GlFramebufferTexture2D GL_FRAMEBUFFER (name_at (textures s) i)) ;;
  modify_sys (fun s1 => set_picture_contexts
     (alter (fun c => set_rc 0 (set_buffer_mapping NULL c)) i
            (picture_contexts s1)) s1).

(** [Open]; at entry the [sys] of the world is the block that
    vlc_obj_malloc returned, with whatever it contains.  video_format_Init
    clears the format and sets its chroma; vlc_gl_MakeCurrent and
    vlc_gl_ReleaseCurrent call the [make_current] and [release_current]
    callbacks, which [Open] has just set to the two functions above, and
    [Open] does not look at what vlc_gl_MakeCurrent returns. *)
Definition Open (env : open_env) (width height : Z) : M vlc_status :=
  if negb (obj_malloc_ok env) then ret VLC_ENOMEM else
  modify_sys (set_current false) ;;
  modify_sys (set_fmt_out (mk_format VLC_CODEC_RGBA width height width height)) ;;
  modify_sys (set_lock false) ;;
  r <- InitEGL (egl env) ;;
  match r with
  | VLC_SUCCESS =>
      MakeCurrent (make_current_ok env) ;;
      if negb (api_init_ok env)
      then (ReleaseCurrent ;; emit EglTerminate ;; ret VLC_EGENERIC)
      else
        modify_sys (set_api_ready true) ;;
        emit (GlGenBuffers BUFFER_COUNT) ;;
        emit (GlGenFramebuffers BUFFER_COUNT) ;;
        emit (GlGenTextures BUFFER_COUNT) ;;
        modify_sys (set_names (gen_buffers env) (gen_framebuffers env)
                              (gen_textures env)) ;;
        for_loop BUFFER_COUNT 0 (Open_slot width height) ;;
        modify_sys (set_current_flip (BUFFER_COUNT - 1)) ;;
        BindDrawFramebuffer ;;
        ReleaseCurrent ;;
        ret VLC_SUCCESS
  | _ => ret VLC_EGENERIC
  end.

End Build.

(** * Notions used in the statements and in the proofs *)

(** Index [i] is the first slot of [ctxs] whose count is zero. *)
Definition lowest_free (ctxs : list pbo_picture_context) (i : nat) : Prop :=
  (exists c, ctxs !! i = Some c /\ rc c = 0) /\
  forall j c, (j < i)%nat -> ctxs !! j = Some c -> rc c <> 0.

Definition counts_nonneg (ctxs : list pbo_picture_context) : Prop :=
  forall j c, ctxs !! j = Some c -> 0 <= rc c.

Definition all_busy (ctxs : list pbo_picture_context) : Prop :=
  forall j c, ctxs !! j = Some c -> 0 < rc c.

Definition op_slot (op : consumer_op) : nat :=
  match op with Copy i => i | Destroy i => i end.

Definition is_copy (op : consumer_op) : bool :=
  match op with Copy _ => true | Destroy _ => false end.

Definition op_delta (op : consumer_op) : Z :=
  match op with Copy _ => 1 | Destroy _ => -1 end.

(** The pool after one consumer operation, and after a list of them. *)
Definition pool_step (ctxs : list pbo_picture_context) (op : consumer_op)
    : list pbo_picture_context :=
  match ctxs !! op_slot op with
  | Some c => <[op_slot op := set_rc (wrap_int (rc c + op_delta op)) c]> ctxs
  | None => ctxs
  end.

Definition pool_after (ops : list consumer_op)
    (ctxs : list pbo_picture_context) : list pbo_picture_context :=
  fold_left pool_step ops ctxs.

(** What one consumer operation adds to the trace. *)
Definition op_trace (ctxs : list pbo_picture_context) (op : consumer_op)
    : list event :=
  [MutexLock] ++
  match ctxs !! op_slot op with
  | Some c => [RcWrite (op_slot op) (rc c) (wrap_int (rc c + op_delta op)) true]
  | None => []
  end ++
  match op with Copy _ => [] | Destroy _ => [CondSignal] end ++
  [MutexUnlock].

Fixpoint ops_trace (ctxs : list pbo_picture_context) (ops : list consumer_op)
    : list event :=
  match ops with
  | [] => []
  | op :: rest => op_trace ctxs op ++ ops_trace (pool_step ctxs op) rest
  end.

Definition with_pool (ctxs : list pbo_picture_context) (locked : bool)
    (s : vlc_gl_pbuffer) : vlc_gl_pbuffer :=
  set_lock locked (set_picture_contexts ctxs s).

(** An event is fine unless it is a store to a count, or a scan of the
    counts, made without the mutex. *)
Definition guarded (e : event) : bool :=
  match e with
  | RcWrite _ _ _ held => held
  | RcScan held => held
  | _ => true
  end.

(** GL calls of [Swap] up to and including glGetIntegerv. *)
Definition read_trace (s : vlc_gl_pbuffer) (c : pbo_picture_context)
    : list event :=
  (if current s then [] else [EglMakeCurrent true]) ++
  [GlBindBuffer GL_PIXEL_PACK_BUFFER (name_at (pixelbuffers s) (current_flip s));
   GlBindFramebuffer GL_FRAMEBUFFER (name_at (framebuffers s) (current_flip s))] ++
  (if buffer_mapping c =? NULL then [] else [GlUnmapBuffer GL_PIXEL_PACK_BUFFER]) ++
  [GlReadPixels 0 0 (wrap_int (i_visible_width (fmt_out s)))
                    (wrap_int (i_visible_height (fmt_out s)));
   GlMapBufferRange GL_PIXEL_PACK_BUFFER 0
     (wrap_int (wrap_int (wrap_int (i_visible_width (fmt_out s)) *
                          wrap_int (i_visible_height (fmt_out s))) * 4));
   GlGetIntegerv].

(** The pool once the current slot is mapped and counted. *)
Definition mapped_pool (env : swap_env) (s : vlc_gl_pbuffer)
    (c : pbo_picture_context) : list pbo_picture_context :=
  <[current_flip s := mk_context (vctx c) (map_result env) (wrap_int (rc c + 1))]>
    (picture_contexts s).

(** The world in which the waiting loop of [UpdateBuffer] starts. *)
Definition scan_world (env : swap_env) (s : vlc_gl_pbuffer)
    (c : pbo_picture_context) (tr : list event) : world :=
  mk_world (with_pool (mapped_pool env s c) true s)
           (tr ++ read_trace s c ++
            [RcWrite (current_flip s) (rc c) (wrap_int (rc c + 1)) false;
             MutexLock]).

(** A world once the [for] loop of [UpdateBuffer] has run over the counts. *)
Definition scanned (w : world) : world :=
  mk_world (sys w) (trace w ++ [RcScan (lock (sys w))]).

(** The resource handed to picture_NewFromResource. *)
Definition resource_of (env : swap_env) (s : vlc_gl_pbuffer) : plane_t :=
  mk_plane (map_result env)
           (wrap_int (i_visible_height (fmt_out s)))
           (wrap_int (wrap_int (i_visible_width (fmt_out s)) * 4)).

(** The world when [UpdateBuffer] has returned and the context is released:
    [w2] is the world in which the waiting loop ended with [index]. *)
Definition advanced (index : nat) (w2 : world) : world :=
  mk_world (set_current_flip index (set_lock false (sys w2)))
           (trace w2 ++
            [MutexUnlock;
             GlBindFramebuffer GL_DRAW_FRAMEBUFFER
               (name_at (framebuffers (sys w2)) index)] ++
            (if current (sys w2) then [] else [EglMakeCurrent false])).

(** What [Swap] does from there. *)
Definition swap_output (nd : bool) (env : swap_env) (s : vlc_gl_pbuffer)
    (index : nat) (w2 : world) : outcome (option picture_t) :=
  let w3 := advanced index w2 in
  let cf := current_flip s in
  if picture_alloc env then
    Ret (Some (mk_picture (fmt_out (sys w2)) (resource_of env s) (Some cf)))
        (mk_world (set_picture_contexts
                     (alter (set_vctx NULL) cf (picture_contexts (sys w2)))
                     (sys w3))
                  (trace w3))
  else if nd then
    match picture_contexts (sys w2) !! cf with
    | Some c2 =>
        Ret None
          (mk_world (set_picture_contexts
                       (<[cf := set_rc (wrap_int (rc c2 + -1)) c2]>
                          (picture_contexts (sys w2)))
                       (sys w3))
                    (trace w3 ++
                     [RcWrite cf (rc c2) (wrap_int (rc c2 + -1)) false]))
    | None => Ret None w3
    end
  else Abort w3.

(** What [UpdateBuffer] adds to the trace while it goes through the
    wake-ups [wake] without finding a slot: each time a scan of the counts,
    made with the mutex held, then the sleep and what the consumers did
    meanwhile, on the pool as the wake-ups before left it. *)
Fixpoint waits_trace (ctxs : list pbo_picture_context)
    (wake : list (list consumer_op)) : list event :=
  match wake with
  | [] => []
  | ops :: later =>
      RcScan true :: CondWait :: ops_trace ctxs ops ++
      waits_trace (pool_after ops ctxs) later
  end.

(** A sequence of operations on one frame context keeps to the protocol,
    from a given count, when every dispose finds a count of at least one
    and every duplicate finds a count that an [int] can still exceed. *)
Fixpoint respects_protocol (count : Z) (ops : list consumer_op) : bool :=
  match ops with
  | [] => true
  | Copy _ :: rest => (count <? INT_MAX) && respects_protocol (count + 1) rest
  | Destroy _ :: rest => (0 <? count) && respects_protocol (count - 1) rest
  end.

Definition world_of {A} (o : outcome A) : world :=
  match o with Ret _ w => w | Abort w => w | Blocked w => w end.

(** The count of a slot, when the slot exists. *)
Definition slot_rc (w : world) (i : nat) : option Z :=
  rc <$> picture_contexts (sys w) !! i.

(** Events of the mutex, the condition variable and the counts. *)
Definition sync_event (e : event) : bool :=
  match e with
  | MutexLock | MutexUnlock | CondWait | CondSignal | RcWrite _ _ _ _
  | RcScan _ => true
  | _ => false
  end.

Definition is_scan (e : event) : bool :=
  match e with RcScan _ => true | _ => false end.

Definition is_unmap (e : event) : bool :=
  match e with GlUnmapBuffer _ => true | _ => false end.

Definition is_read (e : event) : bool :=
  match e with GlReadPixels _ _ _ _ => true | _ => false end.

(** Neither an unmap nor a pixel read. *)
Definition quiet (e : event) : bool := negb (is_unmap e) && negb (is_read e).

(** Events that [Swap] can still add once the waiting loop has ended. *)
Definition closing_event (e : event) : bool :=
  match e with
  | MutexUnlock | GlBindFramebuffer GL_DRAW_FRAMEBUFFER _
  | EglMakeCurrent false | RcWrite _ _ _ false => true
  | _ => false
  end.

(** The context of slot [j] once [vctx] of slot [i] is cleared. *)
Definition set_vctx_at (i j : nat) (c : pbo_picture_context)
    : pbo_picture_context :=
  if Nat.eqb i j then set_vctx NULL c else c.

(** The contexts once the loop of [Open] has initialised every slot. *)
Definition init_context (c : pbo_picture_context) : pbo_picture_context :=
  set_rc 0 (set_buffer_mapping NULL c).

Definition init_pool (ctxs : list pbo_picture_context)
    : list pbo_picture_context :=
  alter init_context 3%nat
    (alter init_context 2%nat
       (alter init_context 1%nat (alter init_context 0%nat ctxs))).

(** The framebuffer that the calls of a trace leave bound for drawing;
    GL_FRAMEBUFFER binds for reading and for drawing. *)
Definition bind_effect (bound : option Z) (e : event) : option Z :=
  match e with
  | GlBindFramebuffer GL_FRAMEBUFFER name => Some name
  | GlBindFramebuffer GL_DRAW_FRAMEBUFFER name => Some name
  | _ => bound
  end.

Definition draw_binding (tr : list event) : option Z :=
  fold_left bind_effect tr None.

(** * A run: open for 64x64 pictures, then produce *)

(** The block of vlc_obj_malloc, with whatever it held. *)
Definition demo_block : vlc_gl_pbuffer :=
  mk_sys true (mk_format VLC_CODEC_UNSET 0 0 0 0) false 9 [] [] []
         [mk_context 5 6 7; mk_context 5 6 7; mk_context 5 6 7; mk_context 5 6 7]
         0 0 0 true.

Definition demo_open_env : open_env :=
  mk_open_env true (mk_egl_env 1 true true 1 2 true 3) true true
              [11; 12; 13; 14] [21; 22; 23; 24] [31; 32; 33; 34].

(** The structure as [Open] leaves it, with an empty trace. *)
Definition demo_opened : world :=
  Eval vm_compute in
  mk_world (sys (world_of (Open false demo_open_env 64 64 (mk_world demo_block []))))
           [].

(** A cycle in which glMapBufferRange answers [pixels], the picture can be
    allocated and no consumer does anything. *)
Definition demo_swap (pixels : Z) : swap_env := mk_swap_env pixels true [].

Definition demo_picture (pixels : Z) (slot : nat) : picture_t :=
  mk_picture (mk_format VLC_CODEC_RGBA 64 64 64 64) (mk_plane pixels 64 256)
             (Some slot).

Definition after_swap (pixels : Z) (w : world) : world :=
  mk_world (sys (world_of (Swap false (demo_swap pixels) w))) [].

Definition demo_1 : world := Eval vm_compute in after_swap 100 demo_opened.
Definition demo_2 : world := Eval vm_compute in after_swap 101 demo_1.
Definition demo_3 : world := Eval vm_compute in after_swap 102 demo_2.
Definition demo_4 : world := Eval vm_compute in after_swap 103 demo_3.

(** The fourth cycle when the first picture is disposed while it waits. *)
Definition demo_5 : world :=
  Eval vm_compute in
  mk_world (sys (world_of (Swap false (mk_swap_env 103 true [[Destroy 3%nat]])
                                demo_3))) [].

(** Wake-ups of a producer that sleeps on the full pool of [demo_4]: a
    duplicate, a wake-up for nothing, the dispose that frees slot 1, and a
    dispose that comes too late to matter. *)
Definition demo_wake : list (list consumer_op) :=
  [[Copy 0%nat]; []; [Destroy 1%nat]; [Destroy 0%nat]].

(** What [Open] and the first cycle return, traces included. *)
Definition demo_open_result : world :=
  Eval vm_compute in
  world_of (Open false demo_open_env 64 64 (mk_world demo_block [])).

Definition demo_first : world :=
  Eval vm_compute in world_of (Swap false (demo_swap 100) demo_opened).

(** * Teardown, and callers of the module *)

(** [Close].  vlc_gl_MakeCurrent and vlc_gl_ReleaseCurrent call
    [MakeCurrent] and [ReleaseCurrent]; what the first returns is not looked
    at. *)
Definition Close (nd : bool) (egl_ok : bool) : M unit :=
  (MakeCurrent nd egl_ok ;;
   s <- get_sys ;;
   emit (GlDeleteBuffers BUFFER_COUNT (pixelbuffers s)) ;;
   emit (GlDeleteFramebuffers BUFFER_COUNT (framebuffers s)) ;;
   emit (GlDeleteTextures BUFFER_COUNT (textures s)) ;;
   ReleaseCurrent nd ;;
   emit EglTerminate)%cmd.

(** The three deletions of [Close], in the order of the source, for the
    names that the structure [s] holds. *)
Definition close_deletes (s : vlc_gl_pbuffer) : list event :=
  [GlDeleteBuffers BUFFER_COUNT (pixelbuffers s);
   GlDeleteFramebuffers BUFFER_COUNT (framebuffers s);
   GlDeleteTextures BUFFER_COUNT (textures s)].

(** Every answer that [InitEGL] needs is a good one. *)
Definition egl_answers_ok (e : egl_env) : bool :=
  negb (egl_display e =? NULL) && egl_initialize e &&
  egl_choose_config e && negb (egl_cfgc e =? 0) &&
  negb (egl_surface e =? NULL) && egl_bind_api e &&
  negb (egl_context e =? NULL).

(** The display was obtained and initialised: from there on a failure of
    [InitEGL] goes through its [error] label. *)
Definition egl_display_up (e : egl_env) : bool :=
  negb (egl_display e =? NULL) && egl_initialize e.

(** How many events of a trace satisfy [p]. *)
Definition count_events (p : event -> bool) (tr : list event) : nat :=
  length (filter (fun e => p e = true) tr).

Definition is_terminate (e : event) : bool :=
  match e with EglTerminate => true | _ => false end.

Definition is_bind_context (e : event) : bool :=
  match e with EglMakeCurrent true => true | _ => false end.

Definition is_release_context (e : event) : bool :=
  match e with EglMakeCurrent false => true | _ => false end.

(** Events of EGL, as opposed to those of OpenGL and of the threads. *)
Definition egl_event (e : event) : bool :=
  match e with EglMakeCurrent _ | EglTerminate => true | _ => false end.

(** Sum of the increments and decrements that [ops] make on slot [i]. *)
Definition net_delta (i : nat) (ops : list consumer_op) : Z :=
  fold_right (fun op acc => (if Nat.eqb (op_slot op) i then op_delta op else 0) + acc)
             0 ops.

(** A caller that makes the context current and releases it, [n] times. *)
Definition current_cycles (nd : bool) (n : nat) : M unit :=
  for_loop n 0 (fun _ => (MakeCurrent nd true ;; ReleaseCurrent nd)%cmd).

(** A caller that produces one picture per environment and releases each
    picture (picture_Release ends in the [destroy] callback of its context)
    before it asks for the next. *)
Fixpoint produce_release (nd : bool) (envs : list swap_env) : M unit :=
  match envs with
  | [] => ret tt
  | env :: rest =>
      (output <- Swap nd env ;;
       match output with
       | Some pic =>
           match pic_context pic with
           | Some input => picture_context_destroy input
           | None => ret tt
           end
       | None => ret tt
       end ;;
       produce_release nd rest)%cmd
  end.

(** Every count of the pool is zero. *)
Definition all_free (ctxs : list pbo_picture_context) : Prop :=
  forall j c, ctxs !! j = Some c -> rc c = 0.

(** The calls that [Open] makes for slot [i], and all its GL calls. *)
Definition slot_setup (env : open_env) (width height : Z) (i : nat)
    : list event :=
  [GlBindBuffer GL_PIXEL_PACK_BUFFER (name_at (gen_buffers env) i);
   GlBufferData GL_PIXEL_PACK_BUFFER (wrap_uint (wrap_uint (width * height) * 4));
   GlBindFramebuffer GL_FRAMEBUFFER (name_at (gen_framebuffers env) i);
   GlBindTexture GL_TEXTURE_2D (name_at (gen_textures env) i);
   GlTexImage2D GL_TEXTURE_2D (wrap_int width) (wrap_int height);
   GlFramebufferTexture2D GL_FRAMEBUFFER (name_at (gen_textures env) i)].

Definition open_gl_trace (env : open_env) (width height : Z) : list event :=
  [GlGenBuffers BUFFER_COUNT; GlGenFramebuffers BUFFER_COUNT;
   GlGenTextures BUFFER_COUNT] ++
  slot_setup env width height 0 ++ slot_setup env width height 1 ++
  slot_setup env width height 2 ++ slot_setup env width height 3 ++
  [GlBindFramebuffer GL_DRAW_FRAMEBUFFER
     (name_at (gen_framebuffers env) (BUFFER_COUNT - 1))].

(** The structure when [InitEGL] has succeeded in [Open], and when [Open]
    has set up the pool. *)
Definition egl_ready_sys (env : open_env) (width height : Z)
    (s : vlc_gl_pbuffer) : vlc_gl_pbuffer :=
  set_egl (egl_display (egl env)) (egl_surface (egl env)) (egl_context (egl env))
    (set_lock false
       (set_fmt_out (mk_format VLC_CODEC_RGBA width height width height)
          (set_current false s))).

Definition opened_sys (env : open_env) (width height : Z)
    (s : vlc_gl_pbuffer) : vlc_gl_pbuffer :=
  mk_sys false (mk_format VLC_CODEC_RGBA width height width height) true
         (BUFFER_COUNT - 1)
         (gen_buffers env) (gen_framebuffers env) (gen_textures env)
         (init_pool (picture_contexts s))
         (egl_display (egl env)) (egl_surface (egl env))
         (egl_context (egl env)) false.

(** A call of OpenGL. *)
Definition gl_event (e : event) : bool :=
  match e with
  | GlGenBuffers _ | GlGenFramebuffers _ | GlGenTextures _
  | GlBindBuffer _ _ | GlBufferData _ _ | GlBindFramebuffer _ _
  | GlBindTexture _ _ | GlTexImage2D _ _ _ | GlFramebufferTexture2D _ _
  | GlUnmapBuffer _ | GlReadPixels _ _ _ _ | GlMapBufferRange _ _ _
  | GlGetIntegerv
  | GlDeleteBuffers _ _ | GlDeleteFramebuffers _ _ | GlDeleteTextures _ _ => true
  | _ => false
  end.

Definition is_buffer_data (e : event) : bool :=
  match e with GlBufferData _ _ => true | _ => false end.

(** No store is allocated with another size than [size]. *)
Definition allocates_only (size : Z) (e : event) : bool :=
  match e with GlBufferData _ z => z =? size | _ => true end.

(** An environment of [Open] in which vlc_gl_api_Init fails. *)
Definition demo_no_api_env : open_env :=
  mk_open_env true (mk_egl_env 1 true true 1 2 true 3) true false
              [11; 12; 13; 14] [21; 22; 23; 24] [31; 32; 33; 34].

Definition is_cond_wait (e : event) : bool :=
  match e with CondWait => true | _ => false end.

(** The pool between two cycles of a caller that holds no picture: the
    mutex is free, there are BUFFER_COUNT slots, [current_flip] names one of
    them, and every count is zero. *)
Definition pool_idle (s : vlc_gl_pbuffer) : Prop :=
  lock s = false /\
  length (picture_contexts s) = BUFFER_COUNT /\
  (current_flip s < BUFFER_COUNT)%nat /\
  all_free (picture_contexts s).

(** A cycle in which picture_NewFromResource fails, in a build with
    assertions. *)
Definition demo_no_picture : swap_env := mk_swap_env 7 false [].

Definition demo_aborted : world :=
  Eval vm_compute in world_of (Swap false demo_no_picture demo_opened).

(** * Properties *)

Arguments wrap_int : simpl never.
Arguments wrap_uint : simpl never.

Lemma wrap_int_small z : INT_MIN <= z <= INT_MAX -> wrap_int z = z.
Proof.
  unfold wrap_int, INT_MIN, INT_MAX. intros H.
  rewrite Z.mod_small; lia.
Qed.

(** ** The slot scan *)

Lemma scan_finds_from nd ctxs n k i c :
  counts_nonneg ctxs ->
  (k <= i < k + n)%nat ->
  ctxs !! i = Some c -> rc c = 0 ->
  (forall j cj, (k <= j < i)%nat -> ctxs !! j = Some cj -> rc cj <> 0) ->
  scan nd n k ctxs = Free i.
Proof.
  intros Hpos. revert k.
  induction n as [|n IH]; intros k Hk Hi Hz Hlow; [lia|].
  simpl. destruct (decide (k = i)) as [->|Hne].
  - rewrite Hi.
    replace (0 <=? rc c) with true by (symmetry; apply Z.leb_le; lia).
    rewrite andb_false_r.
    replace (rc c =? 0) with true by (symmetry; apply Z.eqb_eq; lia).
    reflexivity.
  - assert (Hlt : (k < length ctxs)%nat).
    { apply lookup_lt_Some in Hi. lia. }
    destruct (lookup_lt_is_Some_2 ctxs k Hlt) as [ck Hck].
    rewrite Hck.
    replace (0 <=? rc ck) with true
      by (symmetry; apply Z.leb_le; exact (Hpos k ck Hck)).
    rewrite andb_false_r.
    replace (rc ck =? 0) with false
      by (symmetry; apply Z.eqb_neq; apply (Hlow k ck); [lia|exact Hck]).
    apply IH; [lia|exact Hi|exact Hz|].
    intros j cj Hj. apply Hlow. lia.
Qed.

Lemma scan_Free_inv nd ctxs n k i :
  scan nd n k ctxs = Free i ->
  (k <= i < k + n)%nat /\
  (exists c, ctxs !! i = Some c /\ rc c = 0) /\
  (forall j cj, (k <= j < i)%nat -> ctxs !! j = Some cj -> rc cj <> 0).
Proof.
  revert k. induction n as [|n IH]; intros k; simpl; [discriminate|].
  destruct (ctxs !! k) as [ck|] eqn:Hck; [|discriminate].
  destruct (negb nd && negb (0 <=? rc ck)); [discriminate|].
  destruct (rc ck =? 0) eqn:Hz.
  - intros [= <-]. apply Z.eqb_eq in Hz.
    split; [lia|]. split; [eauto|]. intros j cj Hj. lia.
  - intros H. apply IH in H as (Hr & Hc & Hlow).
    split; [lia|]. split; [exact Hc|].
    intros j cj Hj Hcj. destruct (decide (j = k)) as [->|Hne].
    + rewrite Hck in Hcj. injection Hcj as <-. apply Z.eqb_neq. exact Hz.
    + apply (Hlow j cj); [lia|exact Hcj].
Qed.

Lemma scan_all_busy nd ctxs n k :
  all_busy ctxs ->
  length ctxs = (k + n)%nat ->
  scan nd n k ctxs = Exhausted (k + n).
Proof.
  intros Hbusy. revert k.
  induction n as [|n IH]; intros k Hlen; simpl.
  - f_equal. lia.
  - assert (Hlt : (k < length ctxs)%nat) by lia.
    destruct (lookup_lt_is_Some_2 ctxs k Hlt) as [ck Hck].
    rewrite Hck. pose proof (Hbusy k ck Hck) as Hp.
    replace (0 <=? rc ck) with true by (symmetry; apply Z.leb_le; lia).
    rewrite andb_false_r.
    replace (rc ck =? 0) with false by (symmetry; apply Z.eqb_neq; lia).
    rewrite IH by lia. f_equal. lia.
Qed.

Lemma scan_lowest_free nd ctxs i :
  counts_nonneg ctxs -> (i < BUFFER_COUNT)%nat -> lowest_free ctxs i ->
  scan nd BUFFER_COUNT 0 ctxs = Free i.
Proof.
  intros Hpos Hi [[c [Hc Hz]] Hlow].
  apply (scan_finds_from nd ctxs BUFFER_COUNT 0 i c); auto.
  - lia.
  - intros j cj Hj. apply Hlow. lia.
Qed.

(** ** Consumers *)

Lemma consumer_step_eq op s tr :
  lock s = false ->
  consumer_step op (mk_world s tr) =
  Ret tt (mk_world (with_pool (pool_step (picture_contexts s) op) false s)
                   (tr ++ op_trace (picture_contexts s) op)).
Proof.
  intros Hl.
  destruct op as [i|i];
    unfold consumer_step, picture_context_copy, picture_context_destroy,
      vlc_mutex_lock, vlc_mutex_unlock, vlc_cond_signal, rc_add, bind,
      get_sys, emit, modify_sys, ret, pool_step, op_trace, with_pool;
    simpl; rewrite Hl; simpl;
    destruct (picture_contexts s !! i) as [c|] eqn:Hc; simpl;
    repeat rewrite <- app_assoc; reflexivity.
Qed.

Lemma consumer_run_eq ops s tr :
  lock s = false ->
  consumer_run ops (mk_world s tr) =
  Ret tt (mk_world (with_pool (pool_after ops (picture_contexts s)) false s)
                   (tr ++ ops_trace (picture_contexts s) ops)).
Proof.
  revert s tr. induction ops as [|op ops IH]; intros s tr Hl.
  - simpl. unfold ret. rewrite app_nil_r.
    destruct s; simpl in *; subst; reflexivity.
  - simpl. unfold bind at 1. rewrite consumer_step_eq by exact Hl.
    rewrite IH by reflexivity. simpl.
    rewrite <- app_assoc. reflexivity.
Qed.

Lemma pool_step_length ctxs op : length (pool_step ctxs op) = length ctxs.
Proof.
  unfold pool_step. destruct (ctxs !! op_slot op); [|reflexivity].
  apply length_insert.
Qed.

Lemma pool_after_length ops ctxs : length (pool_after ops ctxs) = length ctxs.
Proof.
  revert ctxs. induction ops as [|op ops IH]; intros ctxs; simpl; [reflexivity|].
  unfold pool_after in *. simpl. rewrite IH. apply pool_step_length.
Qed.

Lemma pool_step_other ctxs op j :
  j <> op_slot op -> pool_step ctxs op !! j = ctxs !! j.
Proof.
  intros Hne. unfold pool_step.
  destruct (ctxs !! op_slot op); [|reflexivity].
  apply list_lookup_insert_ne. congruence.
Qed.

Lemma pool_step_mapping ctxs op j c :
  pool_step ctxs op !! j = Some c ->
  exists c0, ctxs !! j = Some c0 /\
             buffer_mapping c = buffer_mapping c0 /\ vctx c = vctx c0.
Proof.
  unfold pool_step.
  destruct (ctxs !! op_slot op) as [co|] eqn:Ho; [|eauto].
  destruct (decide (j = op_slot op)) as [->|Hne].
  - rewrite list_lookup_insert_eq by (eapply lookup_lt_Some; eauto).
    intros [= <-]. eauto.
  - rewrite list_lookup_insert_ne by congruence. eauto.
Qed.

Lemma pool_after_mapping ops ctxs j c :
  pool_after ops ctxs !! j = Some c ->
  exists c0, ctxs !! j = Some c0 /\
             buffer_mapping c = buffer_mapping c0 /\ vctx c = vctx c0.
Proof.
  revert ctxs c. induction ops as [|op ops IH]; intros ctxs c; simpl.
  - eauto.
  - intros H. apply IH in H as (c1 & H1 & Hb & Hv).
    apply pool_step_mapping in H1 as (c0 & H0 & Hb0 & Hv0).
    exists c0. split; [exact H0|]. split; congruence.
Qed.

(** Operations on other slots leave a slot as it is. *)
Lemma pool_after_other ops ctxs j :
  Forall (fun op => op_slot op <> j) ops ->
  pool_after ops ctxs !! j = ctxs !! j.
Proof.
  revert ctxs. induction ops as [|op ops IH]; intros ctxs Hall; simpl.
  - reflexivity.
  - inversion Hall as [|? ? Hop Hrest]; subst.
    unfold pool_after in *. simpl. rewrite IH by exact Hrest.
    apply pool_step_other. congruence.
Qed.

(** ** Stores to a count and the mutex *)

Lemma op_trace_guarded ctxs op : forallb guarded (op_trace ctxs op) = true.
Proof.
  unfold op_trace. destruct (ctxs !! op_slot op), op; reflexivity.
Qed.

Lemma ops_trace_guarded ctxs ops : forallb guarded (ops_trace ctxs ops) = true.
Proof.
  revert ctxs. induction ops as [|op ops IH]; intros ctxs; simpl; [reflexivity|].
  rewrite forallb_app, IH.
  pose proof (op_trace_guarded ctxs op) as H. unfold op_trace in H. simpl in H.
  rewrite H. reflexivity.
Qed.

(** ** The waiting loop *)

Lemma scan_Exhausted_index nd ctxs n k idx :
  (k + n <= length ctxs)%nat ->
  scan nd n k ctxs = Exhausted idx -> idx = (k + n)%nat.
Proof.
  revert k. induction n as [|n IH]; intros k Hlen; simpl.
  - intros [= <-]. lia.
  - assert (Hlt : (k < length ctxs)%nat) by lia.
    destruct (lookup_lt_is_Some_2 ctxs k Hlt) as [ck ->].
    destruct (negb nd && negb (0 <=? rc ck)); [discriminate|].
    destruct (rc ck =? 0); [discriminate|].
    intros H. apply IH in H; lia.
Qed.

Lemma scan_finds_some nd ctxs n k i c :
  counts_nonneg ctxs ->
  (k <= i < k + n)%nat ->
  ctxs !! i = Some c -> rc c = 0 ->
  exists j, (k <= j <= i)%nat /\ scan nd n k ctxs = Free j.
Proof.
  intros Hpos. revert k.
  induction n as [|n IH]; intros k Hk Hi Hz; [lia|].
  simpl.
  assert (Hlt : (k < length ctxs)%nat).
  { apply lookup_lt_Some in Hi. lia. }
  destruct (lookup_lt_is_Some_2 ctxs k Hlt) as [ck Hck].
  rewrite Hck.
  replace (0 <=? rc ck) with true
    by (symmetry; apply Z.leb_le; exact (Hpos k ck Hck)).
  rewrite andb_false_r.
  destruct (rc ck =? 0) eqn:Hzk.
  - exists k. split; [lia|reflexivity].
  - destruct (decide (k = i)) as [->|Hne].
    + rewrite Hck in Hi. injection Hi as ->.
      apply Z.eqb_neq in Hzk. contradiction.
    + destruct (IH (S k)) as (j & Hj & Hs); [lia|exact Hi|exact Hz|].
      exists j. split; [lia|exact Hs].
Qed.

Lemma scan_one nd ctxs i c :
  ctxs !! i = Some c ->
  scan nd 1 i ctxs =
  if negb nd && negb (0 <=? rc c) then Violated i
  else if rc c =? 0 then Free i else Exhausted (S i).
Proof. intros H. simpl. rewrite H. reflexivity. Qed.

Arguments scan : simpl never.

Lemma wait_free_found nd wake s tr i :
  scan nd BUFFER_COUNT 0 (picture_contexts s) = Free i ->
  wait_free nd wake (mk_world s tr) =
  Ret i (mk_world s (tr ++ [RcScan (lock s)])).
Proof.
  intros H. destruct wake; simpl; unfold bind, get_sys, emit; simpl; rewrite H;
    reflexivity.
Qed.

Lemma wait_free_violated nd wake s tr i :
  scan nd BUFFER_COUNT 0 (picture_contexts s) = Violated i ->
  wait_free nd wake (mk_world s tr) =
  Abort (mk_world s (tr ++ [RcScan (lock s)])).
Proof.
  intros H. destruct wake; simpl; unfold bind, get_sys, emit; simpl; rewrite H;
    reflexivity.
Qed.

Lemma wait_free_sleep nd s tr idx :
  scan nd BUFFER_COUNT 0 (picture_contexts s) = Exhausted idx ->
  wait_free nd [] (mk_world s tr) =
  Blocked (mk_world (set_lock false s) (tr ++ [RcScan (lock s); CondWait])).
Proof.
  intros H. simpl. unfold bind, get_sys, emit; simpl. rewrite H.
  simpl. rewrite <- app_assoc. reflexivity.
Qed.

Lemma wait_free_wake nd ops later s tr :
  scan nd BUFFER_COUNT 0 (picture_contexts s) = Exhausted BUFFER_COUNT ->
  wait_free nd (ops :: later) (mk_world s tr) =
  wait_free nd later
    (mk_world (with_pool (pool_after ops (picture_contexts s)) true s)
              (tr ++ RcScan (lock s) :: CondWait ::
               ops_trace (picture_contexts s) ops)).
Proof.
  intros H. simpl. unfold bind at 1, get_sys; simpl.
  unfold bind at 1, emit at 1; simpl. rewrite H.
  unfold vlc_cond_wait, bind, emit, modify_sys. simpl.
  rewrite consumer_run_eq by reflexivity. simpl.
  repeat rewrite <- app_assoc. reflexivity.
Qed.

(** All the ways in which the loop can end with a slot. *)
Lemma wait_free_Ret nd wake s tr i w' :
  length (picture_contexts s) = BUFFER_COUNT ->
  lock s = true ->
  wait_free nd wake (mk_world s tr) = Ret i w' ->
  exists n tr',
    (n <= length wake)%nat /\
    sys w' = with_pool (pool_after (concat (take n wake)) (picture_contexts s))
                       true s /\
    trace w' = tr ++ tr' /\
    forallb guarded tr' = true /\
    (n = 0%nat -> tr' = [RcScan true]) /\
    scan nd BUFFER_COUNT 0 (picture_contexts (sys w')) = Free i.
Proof.
  revert s tr. induction wake as [|ops later IH]; intros s tr Hlen Hlock.
  - destruct (scan nd BUFFER_COUNT 0 (picture_contexts s)) as [j|j|j] eqn:Hs.
    + rewrite (wait_free_found _ _ _ _ _ Hs). intros [= <- <-].
      exists 0%nat, [RcScan true]. simpl. rewrite Hlock.
      repeat split; auto.
      destruct s; simpl in *; subst; reflexivity.
    + rewrite (wait_free_violated _ _ _ _ _ Hs). discriminate.
    + rewrite (wait_free_sleep _ _ _ _ Hs). discriminate.
  - destruct (scan nd BUFFER_COUNT 0 (picture_contexts s)) as [j|j|j] eqn:Hs.
    + rewrite (wait_free_found _ _ _ _ _ Hs). intros [= <- <-].
      exists 0%nat, [RcScan true]. simpl. rewrite Hlock.
      repeat split; auto; [lia|].
      destruct s; simpl in *; subst; reflexivity.
    + rewrite (wait_free_violated _ _ _ _ _ Hs). discriminate.
    + assert (j = BUFFER_COUNT) as ->.
      { apply scan_Exhausted_index in Hs; [exact Hs|]. rewrite Hlen. simpl. lia. }
      rewrite (wait_free_wake _ _ _ _ _ Hs). intros H.
      apply IH in H as (n & tr' & Hn & Hsys & Htr & Hg & _ & Hfree).
      * exists (S n),
          (RcScan true :: CondWait :: ops_trace (picture_contexts s) ops ++ tr').
        simpl. split; [lia|]. split.
        { rewrite Hsys. unfold pool_after. rewrite fold_left_app. reflexivity. }
        split; [rewrite Htr, Hlock, <- app_assoc; reflexivity|].
        split; [rewrite forallb_app, ops_trace_guarded, Hg; reflexivity|].
        split; [discriminate|exact Hfree].
      * simpl. rewrite pool_after_length. exact Hlen.
      * reflexivity.
Qed.

(** ** The production cycle, step by step *)

Lemma insert_alter_same {A} (f : A -> A) (l : list A) i x :
  <[i := x]> (alter f i l) = <[i := x]> l.
Proof.
  apply list_eq. intros j. destruct (decide (i = j)) as [->|Hne].
  - destruct (decide (j < length l)%nat) as [Hlt|Hge].
    + rewrite !list_lookup_insert_eq; [reflexivity|lia|rewrite length_alter; lia].
    + rewrite !list_insert_ge; [|lia|rewrite length_alter; lia].
      rewrite list_lookup_alter_eq.
      rewrite (lookup_ge_None_2 l j) by lia. reflexivity.
  - rewrite !list_lookup_insert_ne by exact Hne.
    apply list_lookup_alter_ne. exact Hne.
Qed.

Lemma Swap_unfold nd env s tr c :
  lock s = false ->
  picture_contexts s !! current_flip s = Some c ->
  Swap nd env (mk_world s tr) =
  match wait_free nd (wakeups env) (scan_world env s c tr) with
  | Ret index w2 => swap_output nd env s index w2
  | Abort w2 => Abort w2
  | Blocked w2 => Blocked w2
  end.
Proof.
  intros Hl Hc.
  assert (Hlt : (current_flip s < length (picture_contexts s))%nat)
    by (eapply lookup_lt_Some; eauto).
  unfold Swap, UpdateBuffer, BindDrawFramebuffer, rc_add, vlc_mutex_lock,
    vlc_mutex_unlock, when, assert, picture_NewFromResource.
  unfold bind, get_sys, emit, modify_sys, ret, block, abort. cbn [sys trace].
  rewrite Hc.
  unfold scan_world, mapped_pool, with_pool, read_trace.
  destruct (current s) eqn:Hcur, (buffer_mapping c =? NULL) eqn:Hbm; simpl;
    rewrite list_lookup_alter_eq, Hc; simpl; rewrite Hl; simpl;
    rewrite insert_alter_same; repeat rewrite <- app_assoc; simpl;
    unfold set_rc, set_buffer_mapping; simpl;
    (match goal with
     | |- context [wait_free ?a ?b ?c] =>
         match goal with
         | |- _ = match wait_free _ _ ?d with _ => _ end =>
             change d with c; destruct (wait_free a b c) as [index w2|w2|w2]
         end
     end);
    try reflexivity;
    unfold swap_output, advanced; simpl;
    destruct (current (sys w2)), (picture_alloc env), nd; simpl;
    repeat rewrite <- app_assoc; simpl; try reflexivity;
    destruct (picture_contexts (sys w2) !! current_flip s); simpl;
    repeat rewrite <- app_assoc; reflexivity.
Qed.

(** ** Reference counts under duplicate and dispose *)

Lemma respects_protocol_take count ops n :
  respects_protocol count ops = true ->
  respects_protocol count (take n ops) = true.
Proof.
  revert count n. induction ops as [|op ops IH]; intros count n H.
  - rewrite take_nil. reflexivity.
  - destruct n as [|n]; [reflexivity|]. simpl in *.
    destruct op; apply andb_true_iff in H as [H1 H2];
      rewrite H1; simpl; apply IH; exact H2.
Qed.

Lemma protocol_keeps_count i ops :
  forall ctxs c,
    ctxs !! i = Some c ->
    0 <= rc c <= INT_MAX ->
    Forall (fun op => op_slot op = i) ops ->
    respects_protocol (rc c) ops = true ->
    exists c', pool_after ops ctxs !! i = Some c' /\ 0 <= rc c' <= INT_MAX.
Proof.
  induction ops as [|op ops IH]; intros ctxs c Hc Hr Hall Hp.
  - exists c. split; [exact Hc|exact Hr].
  - inversion Hall as [|? ? Hop Hrest]; subst.
    assert (Hlt : (op_slot op < length ctxs)%nat)
      by (eapply lookup_lt_Some; eauto).
    unfold pool_after. simpl.
    assert (Hstep : exists c1,
               pool_step ctxs op !! op_slot op = Some c1 /\
               rc c1 = rc c + op_delta op /\ 0 <= rc c1 <= INT_MAX).
    { unfold pool_step. rewrite Hc.
      rewrite list_lookup_insert_eq by exact Hlt.
      eexists. split; [reflexivity|]. simpl.
      destruct op; simpl in *; apply andb_true_iff in Hp as [H1 _];
        [apply Z.ltb_lt in H1|apply Z.ltb_lt in H1];
        rewrite wrap_int_small; unfold INT_MIN, INT_MAX in *; lia. }
    destruct Hstep as (c1 & Hc1 & Hrc1 & Hr1).
    apply (IH _ c1 Hc1 Hr1 Hrest).
    rewrite Hrc1. destruct op; simpl in *;
      apply andb_true_iff in Hp as [_ H2]; exact H2.
Qed.

(** ** The current context *)

(** C8.  [make_current] and [release_current] are paired and not
    re-entrant.  With assertions compiled in, [MakeCurrent] on a context
    that is current and [ReleaseCurrent] on one that is not are assertion
    failures, whatever EGL would answer; in particular a second
    [MakeCurrent] after a successful one, with no [ReleaseCurrent] between
    them, is an assertion failure, and so is a second [ReleaseCurrent].  A
    refusal of EGL, on the other hand, is the ordinary error VLC_EGENERIC
    and leaves the context not current. *)
Theorem current_is_paired_and_not_reentrant :
  forall (s : vlc_gl_pbuffer) (tr : list event) (egl_ok : bool),
    let held := mk_world (set_current true s) tr in
    let idle := mk_world (set_current false s) tr in
    MakeCurrent false egl_ok held = Abort held /\
    ReleaseCurrent false idle = Abort idle /\
    (exists w1,
        MakeCurrent false true idle = Ret VLC_SUCCESS w1 /\
        current (sys w1) = true /\
        MakeCurrent false egl_ok w1 = Abort w1 /\
        exists w2,
          ReleaseCurrent false w1 = Ret tt w2 /\
          current (sys w2) = false /\
          ReleaseCurrent false w2 = Abort w2) /\
    (exists w1,
        MakeCurrent false false idle = Ret VLC_EGENERIC w1 /\
        current (sys w1) = false).
Proof.
  intros s tr egl_ok held idle. subst held idle.
  split; [reflexivity|]. split; [reflexivity|]. split.
  - eexists. split; [reflexivity|]. split; [reflexivity|].
    split; [reflexivity|].
    eexists. split; [reflexivity|]. split; reflexivity.
  - eexists. split; reflexivity.
Qed.

Lemma scan_Exhausted_none_free nd ctxs n k idx :
  scan nd n k ctxs = Exhausted idx ->
  forall j c, (k <= j < k + n)%nat -> ctxs !! j = Some c -> rc c <> 0.
Proof.
  revert k. induction n as [|n IH]; intros k H j c Hj Hc; [lia|].
  unfold scan in H. fold scan in H.
  destruct (ctxs !! k) as [ck|] eqn:Hck.
  - destruct (negb nd && negb (0 <=? rc ck)); [discriminate|].
    destruct (rc ck =? 0) eqn:Hz; [discriminate|].
    destruct (decide (j = k)) as [->|Hne].
    + rewrite Hck in Hc. injection Hc as <-. apply Z.eqb_neq. exact Hz.
    + apply (IH (S k) H j c); [lia|exact Hc].
  - apply lookup_ge_None in Hck. apply lookup_lt_Some in Hc. lia.
Qed.

Lemma with_pool_same s :
  lock s = true -> with_pool (picture_contexts s) true s = s.
Proof. intros H. destruct s; simpl in *; subst; reflexivity. Qed.

Lemma with_pool_twice l1 l2 b1 b2 s :
  with_pool l2 b2 (with_pool l1 b1 s) = with_pool l2 b2 s.
Proof. reflexivity. Qed.

Lemma pool_after_cons ops later n ctxs :
  pool_after (concat (take n later)) (pool_after ops ctxs) =
  pool_after (concat (take (S n) (ops :: later))) ctxs.
Proof.
  cbn [take concat]. unfold pool_after. rewrite fold_left_app. reflexivity.
Qed.

(** The loop returns at the first wake-up that finds a slot free, with the
    lowest free slot of the pool as the consumers left it. *)
Lemma wait_free_first_free nd n :
  forall wake s tr i,
    lock s = true ->
    length (picture_contexts s) = BUFFER_COUNT ->
    (n <= length wake)%nat ->
    (forall m, (m < n)%nat ->
       all_busy (pool_after (concat (take m wake)) (picture_contexts s))) ->
    counts_nonneg (pool_after (concat (take n wake)) (picture_contexts s)) ->
    lowest_free (pool_after (concat (take n wake)) (picture_contexts s)) i ->
    wait_free nd wake (mk_world s tr) =
    Ret i (mk_world
             (with_pool (pool_after (concat (take n wake)) (picture_contexts s))
                        true s)
             (tr ++ waits_trace (picture_contexts s) (take n wake) ++
              [RcScan true])).
Proof.
  induction n as [|n IH]; intros wake s tr i Hl Hlen Hn Hbusy Hpos Hfree.
  - rewrite take_0 in *. cbn [concat pool_after fold_left waits_trace app] in *.
    assert (Hi : (i < BUFFER_COUNT)%nat).
    { destruct Hfree as [[c [Hc _]] _]. apply lookup_lt_Some in Hc. lia. }
    rewrite wait_free_found with (i := i)
      by (apply scan_lowest_free; assumption).
    rewrite Hl, (with_pool_same s Hl). reflexivity.
  - destruct wake as [|ops later]; [simpl in Hn; lia|].
    assert (H0 : all_busy (picture_contexts s)).
    { apply (Hbusy 0%nat). lia. }
    rewrite wait_free_wake
      by (apply (scan_all_busy nd _ BUFFER_COUNT 0 H0); exact Hlen).
    rewrite (IH later _ _ i).
    + rewrite with_pool_twice.
      cbn [picture_contexts with_pool set_lock set_picture_contexts].
      rewrite pool_after_cons. rewrite Hl.
      cbn [take waits_trace]. f_equal. f_equal.
      repeat rewrite <- app_assoc. cbn [app].
      repeat rewrite <- app_assoc. reflexivity.
    + reflexivity.
    + cbn [picture_contexts with_pool set_lock set_picture_contexts].
      rewrite pool_after_length. exact Hlen.
    + simpl in Hn. lia.
    + intros m Hm.
      cbn [picture_contexts with_pool set_lock set_picture_contexts].
      rewrite pool_after_cons. apply Hbusy. lia.
    + cbn [picture_contexts with_pool set_lock set_picture_contexts].
      rewrite pool_after_cons. exact Hpos.
    + cbn [picture_contexts with_pool set_lock set_picture_contexts].
      rewrite pool_after_cons. exact Hfree.
Qed.

(** The loop sleeps for good when no wake-up finds a slot free. *)
Lemma wait_free_all_busy nd wake :
  forall s tr,
    lock s = true ->
    length (picture_contexts s) = BUFFER_COUNT ->
    (forall m, (m <= length wake)%nat ->
       all_busy (pool_after (concat (take m wake)) (picture_contexts s))) ->
    wait_free nd wake (mk_world s tr) =
    Blocked (mk_world
               (with_pool (pool_after (concat wake) (picture_contexts s)) false s)
               (tr ++ waits_trace (picture_contexts s) wake ++
                [RcScan true; CondWait])).
Proof.
  induction wake as [|ops later IH]; intros s tr Hl Hlen Hbusy.
  - assert (H0 : all_busy (picture_contexts s)) by (apply (Hbusy 0%nat); simpl; lia).
    rewrite wait_free_sleep with (idx := BUFFER_COUNT)
      by (apply (scan_all_busy nd _ BUFFER_COUNT 0 H0); exact Hlen).
    rewrite Hl. cbn [concat pool_after fold_left waits_trace app].
    reflexivity.
  - assert (H0 : all_busy (picture_contexts s)) by (apply (Hbusy 0%nat); simpl; lia).
    rewrite wait_free_wake
      by (apply (scan_all_busy nd _ BUFFER_COUNT 0 H0); exact Hlen).
    rewrite IH.
    + rewrite with_pool_twice.
      cbn [picture_contexts with_pool set_lock set_picture_contexts].
      rewrite Hl. cbn [concat waits_trace]. unfold pool_after.
      rewrite fold_left_app. f_equal. f_equal.
      repeat rewrite <- app_assoc. cbn [app].
      repeat rewrite <- app_assoc. reflexivity.
    + reflexivity.
    + cbn [picture_contexts with_pool set_lock set_picture_contexts].
      rewrite pool_after_length. exact Hlen.
    + intros m Hm.
      cbn [picture_contexts with_pool set_lock set_picture_contexts].
      rewrite pool_after_cons. apply Hbusy. simpl. lia.
Qed.

(** Whenever the loop returns, it is at the first wake-up whose scan found a
    slot: every earlier scan ran to its end. *)
Lemma wait_free_Ret_first nd wake :
  forall s tr i w',
    length (picture_contexts s) = BUFFER_COUNT ->
    lock s = true ->
    wait_free nd wake (mk_world s tr) = Ret i w' ->
    exists n,
      (n <= length wake)%nat /\
      picture_contexts (sys w') =
        pool_after (concat (take n wake)) (picture_contexts s) /\
      scan nd BUFFER_COUNT 0
           (pool_after (concat (take n wake)) (picture_contexts s)) = Free i /\
      forall m, (m < n)%nat ->
        scan nd BUFFER_COUNT 0
             (pool_after (concat (take m wake)) (picture_contexts s)) =
        Exhausted BUFFER_COUNT.
Proof.
  induction wake as [|ops later IH]; intros s tr i w' Hlen Hl.
  - destruct (scan nd BUFFER_COUNT 0 (picture_contexts s)) as [j|j|j] eqn:Hs.
    + rewrite (wait_free_found _ _ _ _ _ Hs). intros [= <- <-].
      exists 0%nat. split; [reflexivity|]. split; [reflexivity|].
      split; [exact Hs|]. intros m Hm. lia.
    + rewrite (wait_free_violated _ _ _ _ _ Hs). discriminate.
    + rewrite (wait_free_sleep _ _ _ _ Hs). discriminate.
  - destruct (scan nd BUFFER_COUNT 0 (picture_contexts s)) as [j|j|j] eqn:Hs.
    + rewrite (wait_free_found _ _ _ _ _ Hs). intros [= <- <-].
      exists 0%nat. split; [simpl; lia|]. split; [reflexivity|].
      split; [exact Hs|]. intros m Hm. lia.
    + rewrite (wait_free_violated _ _ _ _ _ Hs). discriminate.
    + assert (j = BUFFER_COUNT) as ->.
      { apply scan_Exhausted_index in Hs; [exact Hs|]. rewrite Hlen. simpl. lia. }
      rewrite (wait_free_wake _ _ _ _ _ Hs). intros H.
      apply IH in H as (n & Hn & Hsys & Hfree & Hearlier).
      * cbn [picture_contexts with_pool set_lock set_picture_contexts]
          in Hsys, Hfree, Hearlier.
        exists (S n). split; [simpl; lia|].
        rewrite <- pool_after_cons. split; [exact Hsys|]. split; [exact Hfree|].
        intros [|m] Hm; [exact Hs|].
        rewrite <- pool_after_cons. apply Hearlier. lia.
      * cbn [picture_contexts with_pool set_lock set_picture_contexts].
        rewrite pool_after_length. exact Hlen.
      * reflexivity.
Qed.

Lemma UpdateBuffer_unfold nd wake s tr :
  lock s = false ->
  UpdateBuffer nd wake (mk_world s tr) =
  match wait_free nd wake (mk_world (set_lock true s) (tr ++ [MutexLock])) with
  | Ret index w2 =>
      Ret tt (mk_world (set_current_flip index (set_lock false (sys w2)))
                       (trace w2 ++
                        [MutexUnlock;
                         GlBindFramebuffer GL_DRAW_FRAMEBUFFER
                           (name_at (framebuffers (sys w2)) index)]))
  | Abort w2 => Abort w2
  | Blocked w2 => Blocked w2
  end.
Proof.
  intros Hl.
  unfold UpdateBuffer, BindDrawFramebuffer, vlc_mutex_lock, vlc_mutex_unlock.
  unfold bind, get_sys, emit, modify_sys, ret, block. cbn [sys trace].
  rewrite Hl.
  destruct (wait_free nd wake _) as [index w2|w2|w2]; try reflexivity.
  simpl. rewrite <- app_assoc. reflexivity.
Qed.

(** C2.  [UpdateBuffer] takes the lowest free slot, and scans again from
    index 0 after each wake-up.  Take a pool of BUFFER_COUNT slots and any
    list of wake-ups; [pool n] is the pool as the consumers left it at the
    [n]-th wake-up.  (1) If no slot is free in the pools before the [n]-th
    wake-up, and [i] is the lowest index whose count is zero in [pool n],
    then [UpdateBuffer] returns at that wake-up with [current_flip = i],
    whatever the later wake-ups would bring; with n = 0 it returns at once.
    Its trace is: the lock, then for each earlier wake-up a scan, the sleep
    and what the consumers did, then one more scan, the unlock and the
    binding of the framebuffer of slot [i].  (2) If no slot is free in any
    of these pools, the producer is left asleep, after one scan per wake-up
    and one before the first sleep.  (3) Whenever [UpdateBuffer] returns, it
    has taken the lowest free slot of the pool at some wake-up, and no pool
    before that wake-up had a free slot. *)
Theorem UpdateBuffer_takes_lowest_free :
  forall (nd : bool) (s : vlc_gl_pbuffer) (tr : list event)
         (wake : list (list consumer_op)),
    lock s = false ->
    length (picture_contexts s) = BUFFER_COUNT ->
    let pool n := pool_after (concat (take n wake)) (picture_contexts s) in
    (forall n i,
        (n <= length wake)%nat ->
        (forall m, (m < n)%nat -> all_busy (pool m)) ->
        counts_nonneg (pool n) ->
        lowest_free (pool n) i ->
        UpdateBuffer nd wake (mk_world s tr) =
        Ret tt (mk_world
                  (set_current_flip i (with_pool (pool n) false s))
                  (tr ++ [MutexLock] ++
                   waits_trace (picture_contexts s) (take n wake) ++
                   [RcScan true; MutexUnlock;
                    GlBindFramebuffer GL_DRAW_FRAMEBUFFER
                      (name_at (framebuffers s) i)]))) /\
    ((forall m, (m <= length wake)%nat -> all_busy (pool m)) ->
     UpdateBuffer nd wake (mk_world s tr) =
     Blocked (mk_world
                (with_pool (pool (length wake)) false s)
                (tr ++ [MutexLock] ++
                 waits_trace (picture_contexts s) wake ++
                 [RcScan true; CondWait]))) /\
    (forall w',
        UpdateBuffer nd wake (mk_world s tr) = Ret tt w' ->
        exists n,
          (n <= length wake)%nat /\
          picture_contexts (sys w') = pool n /\
          lowest_free (pool n) (current_flip (sys w')) /\
          forall m j c, (m < n)%nat -> pool m !! j = Some c -> rc c <> 0).
Proof.
  intros nd s tr wake Hl Hlen pool.
  split; [|split].
  - intros n i Hn Hbusy Hpos Hfree.
    rewrite UpdateBuffer_unfold by exact Hl.
    rewrite (wait_free_first_free nd n wake _ _ i);
      try reflexivity; try assumption.
    cbn [sys trace picture_contexts framebuffers set_lock
         set_picture_contexts with_pool].
    repeat rewrite <- app_assoc. reflexivity.
  - intros Hbusy.
    rewrite UpdateBuffer_unfold by exact Hl.
    rewrite wait_free_all_busy; try reflexivity; try assumption.
    + subst pool. cbv beta. rewrite firstn_all.
      cbn [picture_contexts set_lock with_pool set_picture_contexts].
      repeat rewrite <- app_assoc. reflexivity.
  - intros w' Hret.
    rewrite UpdateBuffer_unfold in Hret by exact Hl.
    destruct (wait_free nd wake _) as [index w2|w2|w2] eqn:Hw;
      try discriminate.
    injection Hret as <-.
    apply wait_free_Ret_first in Hw as (n & Hn & Hsys & Hfree & Hearlier);
      [|exact Hlen|reflexivity].
    cbn [picture_contexts set_lock] in Hsys, Hfree, Hearlier.
    exists n. split; [exact Hn|].
    cbn [sys picture_contexts current_flip set_current_flip set_lock].
    split; [exact Hsys|].
    apply scan_Free_inv in Hfree as (_ & Hc & Hlow).
    split.
    + split; [exact Hc|]. intros j cj Hj. apply Hlow. lia.
    + intros m j c Hm Hj.
      apply (scan_Exhausted_none_free nd _ BUFFER_COUNT 0 _ (Hearlier m Hm) j c);
        [|exact Hj].
      apply lookup_lt_Some in Hj. subst pool. cbv beta in Hj.
      rewrite pool_after_length, Hlen in Hj. lia.
Qed.

(** C1, as the code has it.  Take a frame context whose count is a
    non-negative [int], and operations on it.  (1) While the operations
    keep to the protocol, the count is never negative, after any number of
    them.  (2) The scan of [UpdateBuffer] accepts the slot exactly when its
    count is zero; a slot it returns has count zero, and a slot with count
    zero makes the scan return, with that slot or a lower one.  (3) A
    dispose at count zero is not refused: it stores -1, and the scan's
    [assert(rc >= 0)] fails on that slot. *)
Theorem refcount_under_protocol :
  forall (nd : bool) (s : vlc_gl_pbuffer) (tr : list event) (i : nat)
         (c : pbo_picture_context) (ops : list consumer_op),
    lock s = false ->
    picture_contexts s !! i = Some c ->
    0 <= rc c <= INT_MAX ->
    Forall (fun op => op_slot op = i) ops ->
    (respects_protocol (rc c) ops = true ->
     forall n, exists w' c',
       consumer_run (take n ops) (mk_world s tr) = Ret tt w' /\
       picture_contexts (sys w') !! i = Some c' /\ 0 <= rc c') /\
    (scan nd 1 i (picture_contexts s) = Free i <-> rc c = 0) /\
    (forall j, scan nd BUFFER_COUNT 0 (picture_contexts s) = Free j ->
               slot_rc (mk_world s tr) j = Some 0) /\
    (rc c = 0 -> (i < BUFFER_COUNT)%nat -> counts_nonneg (picture_contexts s) ->
     exists k, (k <= i)%nat /\
               scan nd BUFFER_COUNT 0 (picture_contexts s) = Free k) /\
    (rc c = 0 ->
     exists w',
       picture_context_destroy i (mk_world s tr) = Ret tt w' /\
       slot_rc w' i = Some (-1) /\
       scan false 1 i (picture_contexts (sys w')) = Violated i).
Proof.
  intros nd s tr i c ops Hl Hc Hr Hall.
  assert (Hlt : (i < length (picture_contexts s))%nat)
    by (eapply lookup_lt_Some; eauto).
  split; [|split; [|split; [|split]]].
  - intros Hp n.
    rewrite consumer_run_eq by exact Hl.
    destruct (protocol_keeps_count i (take n ops) (picture_contexts s) c)
      as (c' & Hc' & Hr'); auto.
    + apply Forall_take. exact Hall.
    + apply respects_protocol_take. exact Hp.
    + eexists. exists c'. split; [reflexivity|]. simpl.
      split; [exact Hc'|lia].
  - rewrite (scan_one nd _ i c Hc).
    destruct (Z.leb_spec 0 (rc c)) as [Hle|Hle],
             (Z.eqb_spec (rc c) 0) as [Hz|Hz], nd; simpl;
      split; intros Hx; try discriminate; try reflexivity; try lia.
  - intros j Hj. apply scan_Free_inv in Hj as (_ & (cj & Hcj & Hz) & _).
    unfold slot_rc. simpl. rewrite Hcj. simpl. congruence.
  - intros Hz Hi Hpos.
    destruct (scan_finds_some nd (picture_contexts s) BUFFER_COUNT 0 i c)
      as (k & Hk & Hs); auto; [lia|].
    exists k. split; [lia|exact Hs].
  - intros Hz.
    pose proof (consumer_step_eq (Destroy i) s tr Hl) as E.
    simpl in E. rewrite E. eexists. split; [reflexivity|].
    unfold slot_rc, pool_step. simpl. rewrite Hc.
    rewrite list_lookup_insert_eq by exact Hlt. simpl. rewrite Hz.
    split; [reflexivity|].
    erewrite scan_one
      by (rewrite list_lookup_insert_eq by exact Hlt; reflexivity).
    reflexivity.
Qed.

(** ** Traces of the waiting loop and of the cycle *)

Lemma sync_event_quiet l : forallb sync_event l = true -> forallb quiet l = true.
Proof.
  induction l as [|e l IH]; simpl; [reflexivity|].
  intros H. apply andb_true_iff in H as [He Hl].
  rewrite IH by exact Hl. destruct e; try discriminate; reflexivity.
Qed.

Lemma ops_trace_sync ctxs ops : forallb sync_event (ops_trace ctxs ops) = true.
Proof.
  revert ctxs. induction ops as [|op ops IH]; intros ctxs; simpl; [reflexivity|].
  rewrite forallb_app, IH.
  destruct (ctxs !! op_slot op), op; reflexivity.
Qed.

Lemma wait_free_cons nd ops later s tr :
  wait_free nd (ops :: later) (mk_world s tr) =
  match scan nd BUFFER_COUNT 0 (picture_contexts s) with
  | Free i => Ret i (mk_world s (tr ++ [RcScan (lock s)]))
  | Violated _ => Abort (mk_world s (tr ++ [RcScan (lock s)]))
  | Exhausted idx =>
      let w1 := mk_world (with_pool (pool_after ops (picture_contexts s)) true s)
                         (tr ++ RcScan (lock s) :: CondWait ::
                          ops_trace (picture_contexts s) ops) in
      if Nat.eqb idx BUFFER_COUNT then wait_free nd later w1 else Ret idx w1
  end.
Proof.
  simpl. unfold bind at 1, get_sys; simpl.
  unfold bind at 1, emit at 1; simpl.
  destruct (scan nd BUFFER_COUNT 0 (picture_contexts s)); try reflexivity.
  unfold vlc_cond_wait, bind, emit, modify_sys. simpl.
  rewrite consumer_run_eq by reflexivity. simpl.
  repeat rewrite <- app_assoc. destruct (Nat.eqb index BUFFER_COUNT); reflexivity.
Qed.

Lemma wait_free_trace nd wake :
  forall s tr,
  lock s = true ->
  exists tr',
    trace (world_of (wait_free nd wake (mk_world s tr))) = tr ++ tr' /\
    forallb sync_event tr' = true /\ forallb guarded tr' = true.
Proof.
  induction wake as [|ops later IH]; intros s tr Hl.
  - destruct (scan nd BUFFER_COUNT 0 (picture_contexts s)) as [j|j|j] eqn:Hs.
    + rewrite (wait_free_found _ _ _ _ _ Hs). exists [RcScan (lock s)].
      simpl. rewrite Hl. auto.
    + rewrite (wait_free_violated _ _ _ _ _ Hs). exists [RcScan (lock s)].
      simpl. rewrite Hl. auto.
    + rewrite (wait_free_sleep _ _ _ _ Hs). exists [RcScan (lock s); CondWait].
      simpl. rewrite Hl. auto.
  - rewrite wait_free_cons.
    destruct (scan nd BUFFER_COUNT 0 (picture_contexts s)) as [j|j|j] eqn:Hs.
    + exists [RcScan (lock s)]. simpl. rewrite Hl. auto.
    + exists [RcScan (lock s)]. simpl. rewrite Hl. auto.
    + cbv zeta. destruct (Nat.eqb j BUFFER_COUNT).
      * destruct (IH (with_pool (pool_after ops (picture_contexts s)) true s)
                     (tr ++ RcScan (lock s) :: CondWait ::
                      ops_trace (picture_contexts s) ops) eq_refl)
          as (tr' & Htr & Hsync & Hg).
        exists (RcScan (lock s) :: CondWait ::
                ops_trace (picture_contexts s) ops ++ tr').
        rewrite Htr, <- app_assoc. simpl.
        rewrite !forallb_app, ops_trace_sync, ops_trace_guarded, Hsync, Hg.
        rewrite Hl. auto.
      * exists (RcScan (lock s) :: CondWait ::
                ops_trace (picture_contexts s) ops). simpl.
        rewrite ops_trace_sync, ops_trace_guarded, Hl. auto.
Qed.

(** The loop starts with a scan, whatever follows. *)
Lemma wait_free_scans_first nd wake s tr :
  exists rest,
    trace (world_of (wait_free nd wake (mk_world s tr))) =
    tr ++ RcScan (lock s) :: rest.
Proof.
  destruct wake as [|ops later].
  - destruct (scan nd BUFFER_COUNT 0 (picture_contexts s)) as [j|j|j] eqn:Hs.
    + rewrite (wait_free_found _ _ _ _ _ Hs). exists []. reflexivity.
    + rewrite (wait_free_violated _ _ _ _ _ Hs). exists []. reflexivity.
    + rewrite (wait_free_sleep _ _ _ _ Hs). exists [CondWait]. reflexivity.
  - rewrite wait_free_cons.
    destruct (scan nd BUFFER_COUNT 0 (picture_contexts s)) as [j|j|j] eqn:Hs.
    + exists []. reflexivity.
    + exists []. reflexivity.
    + cbv zeta. destruct (Nat.eqb j BUFFER_COUNT).
      * destruct (wait_free_trace nd later
                    (with_pool (pool_after ops (picture_contexts s)) true s)
                    (tr ++ RcScan (lock s) :: CondWait ::
                     ops_trace (picture_contexts s) ops) eq_refl)
          as (tr' & Htr & _).
        exists (CondWait :: ops_trace (picture_contexts s) ops ++ tr').
        rewrite Htr, <- app_assoc. reflexivity.
      * exists (CondWait :: ops_trace (picture_contexts s) ops). reflexivity.
Qed.

Lemma closing_event_quiet l :
  forallb closing_event l = true -> forallb quiet l = true.
Proof.
  induction l as [|e l IH]; simpl; [reflexivity|].
  intros H. apply andb_true_iff in H as [He Hl].
  rewrite IH by exact Hl. destruct e; try discriminate; reflexivity.
Qed.

Lemma swap_output_trace nd env s index w2 :
  exists post,
    trace (world_of (swap_output nd env s index w2)) = trace w2 ++ post /\
    forallb closing_event post = true.
Proof.
  unfold swap_output, advanced.
  destruct (picture_alloc env); [|destruct nd].
  - eexists. split; [reflexivity|]. destruct (current (sys w2)); reflexivity.
  - destruct (picture_contexts (sys w2) !! current_flip s).
    + eexists. simpl. rewrite <- app_assoc. split; [reflexivity|].
      destruct (current (sys w2)); reflexivity.
    + eexists. split; [reflexivity|]. destruct (current (sys w2)); reflexivity.
  - eexists. split; [reflexivity|]. destruct (current (sys w2)); reflexivity.
Qed.

(** The trace of one cycle, however it ends. *)
Lemma Swap_trace nd env s tr c :
  lock s = false ->
  picture_contexts s !! current_flip s = Some c ->
  exists tr' post,
    trace (world_of (Swap nd env (mk_world s tr))) =
      tr ++ read_trace s c ++
      [RcWrite (current_flip s) (rc c) (wrap_int (rc c + 1)) false; MutexLock] ++
      tr' ++ post /\
    forallb sync_event tr' = true /\
    forallb guarded tr' = true /\
    forallb closing_event post = true.
Proof.
  intros Hl Hc. rewrite (Swap_unfold nd env s tr c Hl Hc).
  unfold scan_world.
  destruct (wait_free_trace nd (wakeups env)
              (with_pool (mapped_pool env s c) true s)
              (tr ++ read_trace s c ++
               [RcWrite (current_flip s) (rc c) (wrap_int (rc c + 1)) false;
                MutexLock]) eq_refl)
    as (tr' & Htr & Hsync & Hg).
  destruct (wait_free nd (wakeups env) _) as [index w2|w2|w2]; simpl in Htr.
  - destruct (swap_output_trace nd env s index w2) as (post & Hp & Hc').
    exists tr', post. rewrite Hp, Htr.
    repeat rewrite <- app_assoc. auto.
  - exists tr', []. simpl. rewrite Htr, app_nil_r.
    repeat rewrite <- app_assoc. auto.
  - exists tr', []. simpl. rewrite Htr, app_nil_r.
    repeat rewrite <- app_assoc. auto.
Qed.

(** C7.  In every cycle, however it ends, [Swap] binds the pixel buffer
    and the framebuffer of the current slot and then reads the pixels; when
    the slot's [buffer_mapping] is not NULL, glUnmapBuffer on the bound pixel
    buffer comes between the two and is the only unmap of the cycle; when it
    is NULL the cycle makes no unmap at all.  There is one pixel read. *)
Theorem Swap_unmaps_before_reading :
  forall (nd : bool) (env : swap_env) (s : vlc_gl_pbuffer) (tr : list event)
         (c : pbo_picture_context),
    lock s = false ->
    picture_contexts s !! current_flip s = Some c ->
    exists rest,
      trace (world_of (Swap nd env (mk_world s tr))) =
        tr ++
        (if current s then [] else [EglMakeCurrent true]) ++
        [GlBindBuffer GL_PIXEL_PACK_BUFFER
           (name_at (pixelbuffers s) (current_flip s));
         GlBindFramebuffer GL_FRAMEBUFFER
           (name_at (framebuffers s) (current_flip s))] ++
        (if buffer_mapping c =? NULL then []
         else [GlUnmapBuffer GL_PIXEL_PACK_BUFFER]) ++
        [GlReadPixels 0 0 (wrap_int (i_visible_width (fmt_out s)))
                          (wrap_int (i_visible_height (fmt_out s)))] ++
        rest /\
      forallb quiet rest = true.
Proof.
  intros nd env s tr c Hl Hc.
  destruct (Swap_trace nd env s tr c Hl Hc) as (tr' & post & Htr & Hs & _ & Hp).
  eexists. split.
  - rewrite Htr. unfold read_trace. repeat rewrite <- app_assoc. simpl.
    reflexivity.
  - simpl. rewrite forallb_app.
    rewrite (sync_event_quiet _ Hs), (closing_event_quiet _ Hp). reflexivity.
Qed.

(** ** Cycles that return *)

Lemma Swap_returns nd env s tr c index :
  lock s = false ->
  picture_contexts s !! current_flip s = Some c ->
  scan nd BUFFER_COUNT 0 (mapped_pool env s c) = Free index ->
  Swap nd env (mk_world s tr) =
  swap_output nd env s index (scanned (scan_world env s c tr)).
Proof.
  intros Hl Hc Hs. rewrite (Swap_unfold nd env s tr c Hl Hc).
  unfold scanned, scan_world.
  rewrite wait_free_found with (i := index); [reflexivity|].
  exact Hs.
Qed.

Lemma mapped_pool_length env s c :
  length (mapped_pool env s c) = length (picture_contexts s).
Proof. unfold mapped_pool. apply length_insert. Qed.

Lemma Swap_Ret nd env s tr c r w' :
  lock s = false ->
  length (picture_contexts s) = BUFFER_COUNT ->
  picture_contexts s !! current_flip s = Some c ->
  Swap nd env (mk_world s tr) = Ret r w' ->
  exists n index w2,
    (n <= length (wakeups env))%nat /\
    sys w2 = with_pool (pool_after (concat (take n (wakeups env)))
                                   (mapped_pool env s c)) true s /\
    scan nd BUFFER_COUNT 0 (picture_contexts (sys w2)) = Free index /\
    (n = 0%nat -> w2 = scanned (scan_world env s c tr)) /\
    swap_output nd env s index w2 = Ret r w' /\
    exists tr', trace w2 = trace (scan_world env s c tr) ++ tr'.
Proof.
  intros Hl Hlen Hc. rewrite (Swap_unfold nd env s tr c Hl Hc).
  destruct (wait_free nd (wakeups env) (scan_world env s c tr))
    as [index w2|w2|w2] eqn:Hw; try discriminate.
  intros Hout. unfold scan_world in Hw.
  apply wait_free_Ret in Hw as (n & tr' & Hn & Hsys & Htr & _ & Hnil & Hfree).
  - exists n, index, w2. simpl in Hsys.
    split; [exact Hn|]. split; [exact Hsys|]. split; [exact Hfree|].
    split; [|split; [exact Hout|exists tr'; exact Htr]].
    intros ->. unfold scanned, scan_world. destruct w2 as [s2 tr2]. simpl in *.
    rewrite Hsys, Htr, (Hnil eq_refl). reflexivity.
  - simpl. rewrite mapped_pool_length. exact Hlen.
  - reflexivity.
Qed.

Lemma pool_step_local ctxs1 ctxs2 op j :
  ctxs1 !! j = ctxs2 !! j ->
  pool_step ctxs1 op !! j = pool_step ctxs2 op !! j.
Proof.
  intros H. destruct (decide (j = op_slot op)) as [->|Hne].
  - unfold pool_step. rewrite <- H.
    destruct (ctxs1 !! op_slot op) as [c|] eqn:H1; [|congruence].
    rewrite !list_lookup_insert_eq; [reflexivity| |];
      eapply lookup_lt_Some; eauto.
  - rewrite !pool_step_other by exact Hne. exact H.
Qed.

(** A slot after consumer operations depends on that slot alone. *)
Lemma pool_after_local ops ctxs1 ctxs2 j :
  ctxs1 !! j = ctxs2 !! j ->
  pool_after ops ctxs1 !! j = pool_after ops ctxs2 !! j.
Proof.
  revert ctxs1 ctxs2. induction ops as [|op ops IH]; intros ctxs1 ctxs2 H.
  - exact H.
  - unfold pool_after in *. simpl. apply IH. apply pool_step_local. exact H.
Qed.

Lemma alter_vctx_lookup (ctxs : list pbo_picture_context) i j :
  alter (set_vctx NULL) i ctxs !! j = set_vctx_at i j <$> ctxs !! j.
Proof.
  unfold set_vctx_at. destruct (decide (i = j)) as [->|Hne].
  - rewrite list_lookup_alter_eq. rewrite Nat.eqb_refl. reflexivity.
  - rewrite list_lookup_alter_ne by exact Hne.
    apply Nat.eqb_neq in Hne. rewrite Hne.
    destruct (ctxs !! j); reflexivity.
Qed.

Lemma alter_vctx_lowest_free (ctxs : list pbo_picture_context) i k :
  lowest_free ctxs k -> lowest_free (alter (set_vctx NULL) i ctxs) k.
Proof.
  intros [[c [Hc Hz]] Hlow]. split.
  - exists (set_vctx_at i k c). rewrite alter_vctx_lookup, Hc.
    split; [reflexivity|]. unfold set_vctx_at. destruct (Nat.eqb i k); exact Hz.
  - intros j cj Hj. rewrite alter_vctx_lookup.
    destruct (ctxs !! j) as [c0|] eqn:H0; [|discriminate].
    intros [= <-]. pose proof (Hlow j c0 Hj H0) as Hne.
    unfold set_vctx_at. destruct (Nat.eqb i j); exact Hne.
Qed.

(** C10, as the code has it.  A cycle that returns a picture changes the
    slot that was current at entry and [current_flip], and nothing else of
    its own: every other slot is as the consumers' operations during the
    wait left it (its mapping and its [vctx] are as at entry, and so is its
    count when no operation was on that slot); no other member of the
    structure changes.  Of the slot that was current, three members are
    written: it has the new mapping, its [vctx] is NULL, and when no
    consumer touched it its count went up by one, from 0 to 1.  The new
    current slot is another one, and it is free. *)
Theorem Swap_changes_only_the_current_slot :
  forall (nd : bool) (env : swap_env) (s : vlc_gl_pbuffer) (tr : list event)
         (c : pbo_picture_context) (pic : picture_t) (w' : world),
    lock s = false ->
    length (picture_contexts s) = BUFFER_COUNT ->
    picture_contexts s !! current_flip s = Some c ->
    Swap nd env (mk_world s tr) = Ret (Some pic) w' ->
    exists n,
      (n <= length (wakeups env))%nat /\
      let ops := concat (take n (wakeups env)) in
      (forall j, j <> current_flip s ->
         picture_contexts (sys w') !! j = pool_after ops (picture_contexts s) !! j) /\
      (forall j cj', j <> current_flip s ->
         picture_contexts (sys w') !! j = Some cj' ->
         exists cj, picture_contexts s !! j = Some cj /\
                    buffer_mapping cj' = buffer_mapping cj /\
                    vctx cj' = vctx cj /\
                    (Forall (fun op => op_slot op <> j) ops -> cj' = cj)) /\
      (exists c', picture_contexts (sys w') !! current_flip s = Some c' /\
                  buffer_mapping c' = map_result env /\
                  vctx c' = NULL /\
                  (Forall (fun op => op_slot op <> current_flip s) ops ->
                   rc c' = wrap_int (rc c + 1) /\
                   (rc c = 0 ->
                    rc c' = 1 /\ current_flip (sys w') <> current_flip s))) /\
      set_current_flip (current_flip s)
        (set_picture_contexts (picture_contexts s) (sys w')) = s /\
      length (picture_contexts (sys w')) = BUFFER_COUNT /\
      lowest_free (picture_contexts (sys w')) (current_flip (sys w')).
Proof.
  intros nd env s tr c pic w' Hl Hlen Hc Hswap.
  assert (Hlt : (current_flip s < length (picture_contexts s))%nat)
    by (eapply lookup_lt_Some; eauto).
  destruct (Swap_Ret _ _ _ _ _ _ _ Hl Hlen Hc Hswap)
    as (n & index & w2 & Hn & Hsys & Hfree & _ & Hout & _).
  unfold swap_output in Hout.
  destruct (picture_alloc env); [|destruct nd; [|discriminate]].
  2:{ destruct (picture_contexts (sys w2) !! current_flip s); discriminate. }
  injection Hout as _ <-. simpl.
  rewrite Hsys in *. simpl in *.
  set (ops := concat (take n (wakeups env))) in *.
  exists n. split; [exact Hn|].
  assert (Hother : forall j, j <> current_flip s ->
            alter (set_vctx NULL) (current_flip s)
              (pool_after ops (mapped_pool env s c)) !! j =
            pool_after ops (picture_contexts s) !! j).
  { intros j Hj. rewrite list_lookup_alter_ne by congruence.
    apply pool_after_local. unfold mapped_pool.
    apply list_lookup_insert_ne. congruence. }
  assert (Hcur : mapped_pool env s c !! current_flip s =
                 Some (mk_context (vctx c) (map_result env) (wrap_int (rc c + 1)))).
  { unfold mapped_pool. apply list_lookup_insert_eq. exact Hlt. }
  split; [exact Hother|]. split; [|split; [|split; [|split]]].
  - intros j cj' Hj Hcj'. rewrite (Hother j Hj) in Hcj'.
    destruct (pool_after_mapping _ _ _ _ Hcj') as (cj & Hcj & Hb & Hv).
    exists cj. repeat split; auto.
    intros Hnone. rewrite pool_after_other in Hcj' by exact Hnone. congruence.
  - destruct (lookup_lt_is_Some_2 (pool_after ops (mapped_pool env s c))
                (current_flip s)) as [c1 Hc1].
    { rewrite pool_after_length, mapped_pool_length. exact Hlt. }
    exists (set_vctx NULL c1). rewrite list_lookup_alter_eq, Hc1.
    split; [reflexivity|].
    destruct (pool_after_mapping _ _ _ _ Hc1) as (c0 & Hc0 & Hb & _).
    rewrite Hcur in Hc0. injection Hc0 as <-. split; [exact Hb|].
    split; [reflexivity|].
    intros Hnone. rewrite pool_after_other in Hc1 by exact Hnone.
    rewrite Hcur in Hc1. injection Hc1 as <-. simpl.
    split; [reflexivity|]. intros Hz. rewrite Hz. split; [reflexivity|].
    apply scan_Free_inv in Hfree as (_ & (ci & Hci & Hzi) & _).
    intros ->. rewrite pool_after_other in Hci by exact Hnone.
    rewrite Hcur in Hci. injection Hci as <-. simpl in Hzi.
    rewrite Hz in Hzi. discriminate.
  - destruct s; simpl in *; subst; reflexivity.
  - rewrite length_alter, pool_after_length, mapped_pool_length. exact Hlen.
  - apply alter_vctx_lowest_free.
    apply scan_Free_inv in Hfree as (_ & Hex & Hlow).
    split; [exact Hex|]. intros j cj Hj. apply Hlow. lia.
Qed.

(** C6.  The picture that a cycle returns is built from the pointer of
    glMapBufferRange, has as many lines as the visible height of the output
    format and a pitch of four bytes for each pixel of its visible width
    (in C arithmetic, and exactly so whenever those numbers fit an [int]),
    carries the output format, and carries the context of the slot that
    was current at entry, the one whose pixel buffer was bound, read into
    and mapped in this cycle and which now records that pointer. *)
Theorem Swap_picture_layout :
  forall (nd : bool) (env : swap_env) (s : vlc_gl_pbuffer) (tr : list event)
         (c : pbo_picture_context) (pic : picture_t) (w' : world),
    lock s = false ->
    length (picture_contexts s) = BUFFER_COUNT ->
    picture_contexts s !! current_flip s = Some c ->
    Swap nd env (mk_world s tr) = Ret (Some pic) w' ->
    p_pixels (p0 pic) = map_result env /\
    i_pitch (p0 pic) = wrap_int (wrap_int (i_visible_width (fmt_out s)) * 4) /\
    i_lines (p0 pic) = wrap_int (i_visible_height (fmt_out s)) /\
    (0 <= 4 * i_visible_width (fmt_out s) <= INT_MAX ->
     i_pitch (p0 pic) = 4 * i_visible_width (fmt_out s)) /\
    (0 <= i_visible_height (fmt_out s) <= INT_MAX ->
     i_lines (p0 pic) = i_visible_height (fmt_out s)) /\
    format pic = fmt_out s /\
    pic_context pic = Some (current_flip s) /\
    (exists c', picture_contexts (sys w') !! current_flip s = Some c' /\
                buffer_mapping c' = p_pixels (p0 pic)) /\
    (exists before after,
        trace w' = tr ++ before ++
          [GlBindBuffer GL_PIXEL_PACK_BUFFER
             (name_at (pixelbuffers s) (current_flip s));
           GlBindFramebuffer GL_FRAMEBUFFER
             (name_at (framebuffers s) (current_flip s))] ++
          (if buffer_mapping c =? NULL then []
           else [GlUnmapBuffer GL_PIXEL_PACK_BUFFER]) ++
          [GlReadPixels 0 0 (wrap_int (i_visible_width (fmt_out s)))
                            (wrap_int (i_visible_height (fmt_out s)));
           GlMapBufferRange GL_PIXEL_PACK_BUFFER 0
             (wrap_int (wrap_int (wrap_int (i_visible_width (fmt_out s)) *
                                  wrap_int (i_visible_height (fmt_out s))) * 4))]
          ++ after).
Proof.
  intros nd env s tr c pic w' Hl Hlen Hc Hswap.
  assert (Hlt : (current_flip s < length (picture_contexts s))%nat)
    by (eapply lookup_lt_Some; eauto).
  pose proof (Swap_trace nd env s tr c Hl Hc) as (tr' & post & Htr & _).
  rewrite Hswap in Htr. simpl in Htr.
  destruct (Swap_Ret _ _ _ _ _ _ _ Hl Hlen Hc Hswap)
    as (n & index & w2 & Hn & Hsys & Hfree & _ & Hout & _).
  unfold swap_output in Hout.
  destruct (picture_alloc env); [|destruct nd; [|discriminate]].
  2:{ destruct (picture_contexts (sys w2) !! current_flip s); discriminate. }
  injection Hout as <- <-. simpl in Htr. simpl.
  rewrite Hsys in Htr |- *. simpl in Htr. simpl.
  repeat split.
  - intros Hw. rewrite (wrap_int_small (i_visible_width (fmt_out s)))
      by (unfold INT_MIN, INT_MAX in *; lia).
    rewrite wrap_int_small by (unfold INT_MIN, INT_MAX in *; lia). lia.
  - intros Hh. apply wrap_int_small. unfold INT_MIN, INT_MAX in *; lia.
  - destruct (lookup_lt_is_Some_2
                (pool_after (concat (take n (wakeups env))) (mapped_pool env s c))
                (current_flip s)) as [c1 Hc1].
    { rewrite pool_after_length, mapped_pool_length. exact Hlt. }
    exists (set_vctx NULL c1). rewrite list_lookup_alter_eq, Hc1.
    split; [reflexivity|].
    destruct (pool_after_mapping _ _ _ _ Hc1) as (c0 & Hc0 & Hb & _).
    unfold mapped_pool in Hc0.
    rewrite list_lookup_insert_eq in Hc0 by exact Hlt.
    injection Hc0 as <-. exact Hb.
  - exists (if current s then [] else [EglMakeCurrent true]).
    eexists. rewrite Htr. unfold read_trace.
    repeat rewrite <- app_assoc. simpl. reflexivity.
Qed.

Lemma quiet_wakeups_concat (P : consumer_op -> Prop) wake n :
  Forall (Forall P) wake -> Forall P (concat (take n wake)).
Proof.
  intros H. apply Forall_concat. apply Forall_take. exact H.
Qed.

(** C4, as the code has it.  Take a cycle that starts on a free slot, in
    which the picture cannot be allocated, while no consumer operates on
    that slot.  Whenever [Swap] returns, the build has NDEBUG, it returns
    NULL, the count of the slot is 0 again, the scan accepts the slot, and
    the count was stored twice without a consumer in between: 0 to 1 before
    the scan and, last of all, 1 to 0.  Only the count is put back: the slot
    keeps the mapping made in the cycle, and [current_flip] has moved on to
    another slot.  With assertions compiled out that return happens as soon
    as the scan finds a slot; with assertions compiled in, [assert(output)]
    stops the process first, with the count still at 1, and nothing is
    reported to the caller. *)
Theorem Swap_failure_restores_count :
  forall (nd : bool) (env : swap_env) (s : vlc_gl_pbuffer) (tr : list event)
         (c : pbo_picture_context),
    lock s = false ->
    length (picture_contexts s) = BUFFER_COUNT ->
    picture_contexts s !! current_flip s = Some c ->
    rc c = 0 ->
    picture_alloc env = false ->
    Forall (Forall (fun op => op_slot op <> current_flip s)) (wakeups env) ->
    (forall r w',
        Swap nd env (mk_world s tr) = Ret r w' ->
        nd = true /\ r = None /\
        picture_contexts (sys w') !! current_flip s =
          Some (mk_context (vctx c) (map_result env) 0) /\
        scan nd 1 (current_flip s) (picture_contexts (sys w')) =
          Free (current_flip s) /\
        current_flip (sys w') <> current_flip s /\
        lock (sys w') = false /\
        exists mid,
          trace w' = tr ++ read_trace s c ++
                     [RcWrite (current_flip s) 0 1 false] ++ mid ++
                     [RcWrite (current_flip s) 1 0 false]) /\
    (forall index,
        scan true BUFFER_COUNT 0 (mapped_pool env s c) = Free index ->
        exists w', Swap true env (mk_world s tr) = Ret None w') /\
    (forall index,
        scan false BUFFER_COUNT 0 (mapped_pool env s c) = Free index ->
        exists w', Swap false env (mk_world s tr) = Abort w' /\
                   slot_rc w' (current_flip s) = Some 1).
Proof.
  intros nd env s tr c Hl Hlen Hc Hz Halloc Hquiet.
  assert (Hlt : (current_flip s < length (picture_contexts s))%nat)
    by (eapply lookup_lt_Some; eauto).
  assert (Hcur : mapped_pool env s c !! current_flip s =
                 Some (mk_context (vctx c) (map_result env) 1)).
  { unfold mapped_pool. rewrite list_lookup_insert_eq by exact Hlt.
    rewrite Hz. reflexivity. }
  split; [|split].
  - intros r w' Hswap.
    destruct (Swap_Ret _ _ _ _ _ _ _ Hl Hlen Hc Hswap)
      as (n & index & w2 & Hn & Hsys & Hfree & _ & Hout & tr' & Htr).
    unfold swap_output in Hout. rewrite Halloc in Hout.
    destruct nd; [|discriminate].
    assert (Hc2 : picture_contexts (sys w2) !! current_flip s =
                  Some (mk_context (vctx c) (map_result env) 1)).
    { rewrite Hsys. simpl. rewrite pool_after_other; [exact Hcur|].
      apply quiet_wakeups_concat. exact Hquiet. }
    rewrite Hc2 in Hout. injection Hout as <- <-. simpl.
    assert (Hlt2 : (current_flip s < length (picture_contexts (sys w2)))%nat)
      by (eapply lookup_lt_Some; eauto).
    split; [reflexivity|]. split; [reflexivity|].
    rewrite list_lookup_insert_eq by exact Hlt2.
    split; [reflexivity|]. split; [|split; [|split; [reflexivity|]]].
    + erewrite scan_one by (apply list_lookup_insert_eq; exact Hlt2).
      reflexivity.
    + apply scan_Free_inv in Hfree as (_ & (ci & Hci & Hzi) & _).
      intros Heq. rewrite Heq, Hc2 in Hci. injection Hci as <-.
      discriminate Hzi.
    + rewrite Htr. unfold scan_world. simpl. rewrite Hz.
      change (wrap_int (0 + 1)) with 1. change (wrap_int (1 + -1)) with 0.
      exists (MutexLock :: tr' ++
              MutexUnlock
              :: GlBindFramebuffer GL_DRAW_FRAMEBUFFER
                   (name_at (framebuffers (sys w2)) index)
              :: (if current (sys w2) then [] else [EglMakeCurrent false])).
      repeat rewrite <- app_assoc. simpl.
      repeat rewrite <- app_assoc. reflexivity.
  - intros index Hs. rewrite (Swap_returns _ _ _ _ _ _ Hl Hc Hs).
    unfold swap_output. rewrite Halloc. unfold scan_world. simpl.
    rewrite Hcur. eexists. reflexivity.
  - intros index Hs. rewrite (Swap_returns _ _ _ _ _ _ Hl Hc Hs).
    unfold swap_output. rewrite Halloc. eexists. split; [reflexivity|].
    unfold slot_rc, scan_world. simpl. rewrite Hcur. reflexivity.
Qed.

(** ** Opening *)

Lemma InitEGL_success nd e s tr w1 :
  InitEGL nd e (mk_world s tr) = Ret VLC_SUCCESS w1 ->
  w1 = mk_world (set_egl (egl_display e) (egl_surface e) (egl_context e) s) tr.
Proof.
  unfold InitEGL, bind, modify_sys, emit, ret, assert, abort. simpl.
  destruct (egl_display e =? NULL); [discriminate|].
  destruct (egl_initialize e); simpl; [|discriminate].
  destruct (egl_choose_config e); simpl; [|discriminate].
  destruct (egl_cfgc e =? 0); simpl; [discriminate|].
  destruct (egl_surface e =? NULL); simpl.
  { destruct nd; simpl; discriminate. }
  destruct (egl_bind_api e); simpl; [|discriminate].
  destruct (egl_context e =? NULL); simpl; [discriminate|].
  intros [= <-]. reflexivity.
Qed.

Ltac norm_state :=
  cbn [sys trace set_rc set_buffer_mapping set_vctx set_lock set_fmt_out
       set_api_ready set_current_flip set_names set_picture_contexts set_egl
       set_current lock fmt_out api_ready current_flip pixelbuffers
       framebuffers textures picture_contexts display surface context current].

Ltac run_modify :=
  unfold bind at 1; unfold modify_sys at 1; cbv beta iota; norm_state.

Ltac run_emit :=
  unfold bind at 1; unfold emit at 1; cbv beta iota; norm_state;
  try rewrite <- app_assoc.

Lemma MakeCurrent_eq nd ok s tr :
  current s = false ->
  MakeCurrent nd ok (mk_world s tr) =
  Ret (if ok then VLC_SUCCESS else VLC_EGENERIC)
      (mk_world (if ok then set_current true s else s)
                (tr ++ [EglMakeCurrent true])).
Proof.
  intros Hc. unfold MakeCurrent, assert, bind, get_sys, emit, modify_sys, ret.
  simpl. rewrite Hc. destruct nd, ok; reflexivity.
Qed.

Lemma ReleaseCurrent_eq nd s tr :
  ReleaseCurrent nd (mk_world s tr) =
  if nd || current s
  then Ret tt (mk_world (set_current false s) (tr ++ [EglMakeCurrent false]))
  else Abort (mk_world s tr).
Proof.
  unfold ReleaseCurrent, assert, bind, get_sys, emit, modify_sys, ret, abort.
  simpl. destruct nd, (current s); reflexivity.
Qed.

Lemma Open_slot_eq width height i s tr :
  Open_slot width height i (mk_world s tr) =
  Ret tt (mk_world
            (set_picture_contexts
               (alter init_context i (picture_contexts s)) s)
            (tr ++
             [GlBindBuffer GL_PIXEL_PACK_BUFFER (name_at (pixelbuffers s) i);
              GlBufferData GL_PIXEL_PACK_BUFFER
                (wrap_uint (wrap_uint (width * height) * 4));
              GlBindFramebuffer GL_FRAMEBUFFER (name_at (framebuffers s) i);
              GlBindTexture GL_TEXTURE_2D (name_at (textures s) i);
              GlTexImage2D GL_TEXTURE_2D (wrap_int width) (wrap_int height);
              GlFramebufferTexture2D GL_FRAMEBUFFER (name_at (textures s) i)])).
Proof.
  unfold Open_slot, bind, get_sys, emit, modify_sys. simpl.
  repeat rewrite <- app_assoc. reflexivity.
Qed.

Lemma BindDrawFramebuffer_eq s tr :
  BindDrawFramebuffer (mk_world s tr) =
  Ret tt (mk_world s
            (tr ++ [GlBindFramebuffer GL_DRAW_FRAMEBUFFER
                      (name_at (framebuffers s) (current_flip s))])).
Proof. reflexivity. Qed.

Ltac run_with lem :=
  unfold bind at 1; rewrite lem; cbv beta iota; norm_state;
  try rewrite <- app_assoc.

Lemma Open_success nd env width height s tr w1 :
  Open nd env width height (mk_world s tr) = Ret VLC_SUCCESS w1 ->
  sys w1 =
    mk_sys false (mk_format VLC_CODEC_RGBA width height width height) true
           (BUFFER_COUNT - 1)
           (gen_buffers env) (gen_framebuffers env) (gen_textures env)
           (init_pool (picture_contexts s))
           (egl_display (egl env)) (egl_surface (egl env))
           (egl_context (egl env)) false /\
  exists pre,
    trace w1 = tr ++ pre /\
    forall b, fold_left bind_effect pre b =
              Some (name_at (gen_framebuffers env) (BUFFER_COUNT - 1)).
Proof.
  unfold Open. destruct (obj_malloc_ok env); simpl; [|discriminate].
  unfold bind at 1 2 3. unfold modify_sys at 1 2 3. simpl.
  unfold bind at 1.
  destruct (InitEGL nd (egl env) _) as [r w0|w0|w0] eqn:Hegl; try discriminate.
  destruct r; try discriminate.
  apply InitEGL_success in Hegl. subst w0. norm_state.
  run_with MakeCurrent_eq; [|reflexivity].
  destruct (api_init_ok env); cbn [negb].
  2:{ unfold bind at 1. rewrite ReleaseCurrent_eq.
      destruct (nd || _); [|discriminate]. cbv beta iota.
      run_emit. discriminate. }
  run_modify. do 3 run_emit. run_modify.
  unfold bind at 1. unfold bind at 1. rewrite Open_slot_eq.
  cbv beta iota. norm_state.
  unfold bind at 1. rewrite Open_slot_eq. cbv beta iota. norm_state.
  unfold bind at 1. rewrite Open_slot_eq. cbv beta iota. norm_state.
  unfold bind at 1. rewrite Open_slot_eq. cbv beta iota. norm_state.
  unfold ret at 1. cbv beta iota.
  run_modify.
  run_with BindDrawFramebuffer_eq.
  unfold bind at 1. rewrite ReleaseCurrent_eq. norm_state.
  destruct (nd || _); [|discriminate]. cbv beta iota. norm_state.
  unfold ret. intros [= <-]. norm_state.
  split.
  - destruct (make_current_ok env); reflexivity.
  - repeat rewrite <- app_assoc.
    eexists. split; [reflexivity|]. intros b. reflexivity.
Qed.

Lemma four_slots {A} (l : list A) :
  length l = BUFFER_COUNT -> exists a b c d, l = [a; b; c; d].
Proof.
  destruct l as [|a [|b [|c [|d [|e l]]]]]; try discriminate.
  intros _. eauto.
Qed.

(** C9.  When [Open] succeeds, the four contexts have count 0 and a NULL
    mapping, [current_flip] is BUFFER_COUNT - 1 = 3, not 0, and the
    framebuffer left bound for drawing is that of slot 3; the mutex is free
    and the context is not current.  The first [Swap] then returns a picture
    that carries the context of slot 3, and moves on to slot 0. *)
Theorem Open_starts_on_the_last_slot :
  forall (nd : bool) (env : open_env) (width height : Z)
         (s : vlc_gl_pbuffer) (tr : list event) (w1 : world),
    length (picture_contexts s) = BUFFER_COUNT ->
    Open nd env width height (mk_world s tr) = Ret VLC_SUCCESS w1 ->
    length (picture_contexts (sys w1)) = BUFFER_COUNT /\
    (forall j c, picture_contexts (sys w1) !! j = Some c ->
                 rc c = 0 /\ buffer_mapping c = NULL) /\
    current_flip (sys w1) = (BUFFER_COUNT - 1)%nat /\
    current_flip (sys w1) = 3%nat /\
    current_flip (sys w1) <> 0%nat /\
    draw_binding (trace w1) = Some (name_at (framebuffers (sys w1)) 3) /\
    lock (sys w1) = false /\
    current (sys w1) = false /\
    (forall senv,
        picture_alloc senv = true ->
        exists pic w2,
          Swap nd senv w1 = Ret (Some pic) w2 /\
          pic_context pic = Some 3%nat /\
          current_flip (sys w2) = 0%nat).
Proof.
  intros nd env width height s tr w1 Hlen Hopen.
  destruct (Open_success _ _ _ _ _ _ _ Hopen) as (Hsys & pre & Htr & Hbind).
  destruct (four_slots _ Hlen) as (a & b & c & d & Hpool).
  rewrite Hpool in Hsys. unfold init_pool in Hsys. simpl in Hsys.
  destruct w1 as [s1 tr1]. simpl in Hsys, Htr. subst s1 tr1. simpl.
  split; [reflexivity|]. split.
  { intros j cj Hj.
    destruct j as [|[|[|[|j]]]]; simpl in Hj; try discriminate;
      injection Hj as <-; split; reflexivity. }
  split; [reflexivity|]. split; [reflexivity|]. split; [discriminate|].
  split.
  { unfold draw_binding. rewrite fold_left_app. apply Hbind. }
  split; [reflexivity|]. split; [reflexivity|].
  intros senv Halloc.
  erewrite Swap_returns with (index := 0%nat) (c := init_context d);
    [|reflexivity|reflexivity|destruct nd; reflexivity].
  unfold swap_output. rewrite Halloc.
  eexists. eexists. split; [reflexivity|]. split; reflexivity.
Qed.

(** ** Filling the pool *)

Lemma Swap_returns_picture nd env s tr c index :
  lock s = false ->
  picture_contexts s !! current_flip s = Some c ->
  scan nd BUFFER_COUNT 0 (mapped_pool env s c) = Free index ->
  picture_alloc env = true ->
  exists tr2,
    Swap nd env (mk_world s tr) =
    Ret (Some (mk_picture (fmt_out s) (resource_of env s) (Some (current_flip s))))
        (mk_world
           (set_current_flip index
              (with_pool (alter (set_vctx NULL) (current_flip s)
                                (mapped_pool env s c)) false s))
           tr2).
Proof.
  intros Hl Hc Hs Halloc. rewrite (Swap_returns _ _ _ _ _ _ Hl Hc Hs).
  unfold swap_output. rewrite Halloc. eexists. reflexivity.
Qed.

(** Wake-ups during which no consumer did anything change nothing. *)
Lemma wait_free_spurious nd n rest :
  forall s tr,
    lock s = true ->
    scan nd BUFFER_COUNT 0 (picture_contexts s) = Exhausted BUFFER_COUNT ->
    exists tr',
      wait_free nd (repeat [] n ++ rest) (mk_world s tr) =
      wait_free nd rest (mk_world s tr').
Proof.
  induction n as [|n IH]; intros s tr Hl Hs.
  - exists tr. reflexivity.
  - simpl repeat. rewrite <- app_comm_cons.
    rewrite (wait_free_wake _ _ _ _ _ Hs).
    replace (with_pool (pool_after [] (picture_contexts s)) true s) with s
      by (destruct s; simpl in *; subst; reflexivity).
    apply IH; assumption.
Qed.

(** Duplicates keep a busy pool busy, as long as the counts fit an [int]. *)
Lemma pool_after_copies ops :
  forall ctxs bound,
    (forall j c, ctxs !! j = Some c -> 0 < rc c <= bound) ->
    Forall (fun op => is_copy op = true) ops ->
    bound + Z.of_nat (length ops) <= INT_MAX ->
    forall j c, pool_after ops ctxs !! j = Some c ->
                0 < rc c <= bound + Z.of_nat (length ops).
Proof.
  induction ops as [|op ops IH]; intros ctxs bound Hb Hall Hmax j c Hj.
  - simpl in *. specialize (Hb j c Hj). lia.
  - inversion Hall as [|? ? Hop Hrest]; subst.
    unfold pool_after in Hj. simpl in Hj.
    assert (Hstep : forall k ck, pool_step ctxs op !! k = Some ck ->
                                 0 < rc ck <= bound + 1).
    { intros k ck Hk. unfold pool_step in Hk.
      destruct (ctxs !! op_slot op) as [co|] eqn:Ho.
      - destruct (decide (k = op_slot op)) as [->|Hne].
        + rewrite list_lookup_insert_eq in Hk
            by (eapply lookup_lt_Some; eauto).
          injection Hk as <-. simpl. specialize (Hb _ _ Ho).
          destruct op; [|discriminate]. simpl.
          rewrite wrap_int_small; unfold INT_MIN, INT_MAX in *; simpl in *; lia.
        + rewrite list_lookup_insert_ne in Hk by congruence.
          specialize (Hb _ _ Hk). lia.
      - specialize (Hb _ _ Hk). lia. }
    assert (Hlen : Z.of_nat (length (op :: ops)) = 1 + Z.of_nat (length ops))
      by (simpl length; lia).
    rewrite Hlen in *.
    pose proof (IH (pool_step ctxs op) (bound + 1) Hstep Hrest
                   ltac:(lia) j c Hj).
    lia.
Qed.

(** While consumers only duplicate, a producer that found no free slot
    stays asleep. *)
Lemma wait_free_no_dispose nd wake :
  forall s tr bound,
    length (picture_contexts s) = BUFFER_COUNT ->
    (forall j c, picture_contexts s !! j = Some c -> 0 < rc c <= bound) ->
    Forall (Forall (fun op => is_copy op = true)) wake ->
    bound + Z.of_nat (length (concat wake)) <= INT_MAX ->
    exists w', wait_free nd wake (mk_world s tr) = Blocked w' /\
               all_busy (picture_contexts (sys w')).
Proof.
  induction wake as [|ops later IH]; intros s tr bound Hlen Hb Hall Hmax.
  - assert (Hbusy : all_busy (picture_contexts s)).
    { intros j c Hj. specialize (Hb j c Hj). lia. }
    rewrite wait_free_sleep with (idx := BUFFER_COUNT)
      by (apply (scan_all_busy nd _ BUFFER_COUNT 0 Hbusy); exact Hlen).
    eexists. split; [reflexivity|exact Hbusy].
  - inversion Hall as [|? ? Hops Hlater]; subst.
    assert (Hbusy : all_busy (picture_contexts s)).
    { intros j c Hj. specialize (Hb j c Hj). lia. }
    rewrite wait_free_wake
      by (apply (scan_all_busy nd _ BUFFER_COUNT 0 Hbusy); exact Hlen).
    simpl concat in Hmax. rewrite length_app in Hmax.
    apply (IH _ _ (bound + Z.of_nat (length ops))).
    + simpl. rewrite pool_after_length. exact Hlen.
    + simpl. apply pool_after_copies; [exact Hb|exact Hops|lia].
    + exact Hlater.
    + lia.
Qed.

Lemma Swap_blocked nd env s tr c :
  lock s = false ->
  length (picture_contexts s) = BUFFER_COUNT ->
  picture_contexts s !! current_flip s = Some c ->
  (forall j cj, mapped_pool env s c !! j = Some cj -> 0 < rc cj <= 1) ->
  Forall (Forall (fun op => is_copy op = true)) (wakeups env) ->
  1 + Z.of_nat (length (concat (wakeups env))) <= INT_MAX ->
  exists w5,
    Swap nd env (mk_world s tr) = Blocked w5 /\
    all_busy (picture_contexts (sys w5)).
Proof.
  intros Hl Hlen Hc Hb Hall Hmax. rewrite (Swap_unfold nd env s tr c Hl Hc).
  unfold scan_world.
  destruct (wait_free_no_dispose nd (wakeups env)
              (with_pool (mapped_pool env s c) true s)
              (tr ++ read_trace s c ++
               [RcWrite (current_flip s) (rc c) (wrap_int (rc c + 1)) false;
                MutexLock]) 1)
    as (w5 & Hw & Hbusy); auto.
  { simpl. rewrite mapped_pool_length. exact Hlen. }
  rewrite Hw. exists w5. split; [reflexivity|exact Hbusy].
Qed.

Lemma Swap_unblocked nd env s tr c n ops later index :
  lock s = false ->
  picture_contexts s !! current_flip s = Some c ->
  scan nd BUFFER_COUNT 0 (mapped_pool env s c) = Exhausted BUFFER_COUNT ->
  wakeups env = repeat [] n ++ ops :: later ->
  scan nd BUFFER_COUNT 0 (pool_after ops (mapped_pool env s c)) = Free index ->
  picture_alloc env = true ->
  exists w5,
    Swap nd env (mk_world s tr) =
    Ret (Some (mk_picture (fmt_out s) (resource_of env s) (Some (current_flip s))))
        w5 /\
    current_flip (sys w5) = index.
Proof.
  intros Hl Hc Hs Hwake Hfree Halloc.
  rewrite (Swap_unfold nd env s tr c Hl Hc).
  unfold scan_world. rewrite Hwake.
  destruct (wait_free_spurious nd n (ops :: later)
              (with_pool (mapped_pool env s c) true s)
              (tr ++ read_trace s c ++
               [RcWrite (current_flip s) (rc c) (wrap_int (rc c + 1)) false;
                MutexLock]) eq_refl Hs)
    as (tr' & Hw).
  rewrite Hw.
  rewrite wait_free_wake by exact Hs.
  rewrite wait_free_found with (i := index) by exact Hfree.
  unfold swap_output. rewrite Halloc.
  eexists. split; reflexivity.
Qed.

Ltac with_current_context s0 k :=
  let r := eval simpl in (picture_contexts s0 !! current_flip s0) in
  lazymatch r with
  | Some ?x => k x
  end.

(** C3, as the code has it.  After [Open], with nothing disposed, three
    cycles return their pictures without waiting, on slots 3, 0 and 1, and
    leave slot 2 current.  The fourth cycle counts slot 2, finds no free
    slot and sleeps; whatever the consumers duplicate meanwhile (within the
    range of [int]), it stays asleep as long as nothing is disposed.  It
    returns its picture, built on slot 2, at the first wake-up that follows
    the dispose of one of the three pictures, and the slot of that picture
    becomes current. *)
Theorem pool_of_four_blocks_the_fourth_cycle :
  forall (nd : bool) (oenv : open_env) (width height : Z)
         (s : vlc_gl_pbuffer) (tr : list event) (w1 : world)
         (e1 e2 e3 e4 : swap_env),
    length (picture_contexts s) = BUFFER_COUNT ->
    Open nd oenv width height (mk_world s tr) = Ret VLC_SUCCESS w1 ->
    picture_alloc e1 = true ->
    picture_alloc e2 = true ->
    picture_alloc e3 = true ->
    exists p1 w2,
      Swap nd e1 w1 = Ret (Some p1) w2 /\ pic_context p1 = Some 3%nat /\
    exists p2 w3,
      Swap nd e2 w2 = Ret (Some p2) w3 /\ pic_context p2 = Some 0%nat /\
    exists p3 w4,
      Swap nd e3 w3 = Ret (Some p3) w4 /\ pic_context p3 = Some 1%nat /\
      map rc (picture_contexts (sys w4)) = [1; 1; 0; 1] /\
      current_flip (sys w4) = 2%nat /\
      (Forall (Forall (fun op => is_copy op = true)) (wakeups e4) ->
       1 + Z.of_nat (length (concat (wakeups e4))) <= INT_MAX ->
       exists w5, Swap nd e4 w4 = Blocked w5 /\
                  all_busy (picture_contexts (sys w5))) /\
      (forall n j later,
         wakeups e4 = repeat [] n ++ [Destroy j] :: later ->
         j = 3%nat \/ j = 0%nat \/ j = 1%nat ->
         picture_alloc e4 = true ->
         exists p4 w5, Swap nd e4 w4 = Ret (Some p4) w5 /\
                       pic_context p4 = Some 2%nat /\
                       current_flip (sys w5) = j).
Proof.
  intros nd oenv width height s tr w1 e1 e2 e3 e4 Hlen Hopen Ha1 Ha2 Ha3.
  destruct (Open_success _ _ _ _ _ _ _ Hopen) as (Hsys & _).
  destruct (four_slots _ Hlen) as (a & b & c & d & Hpool).
  rewrite Hpool in Hsys. unfold init_pool in Hsys. simpl in Hsys.
  destruct w1 as [s1 tr1]. simpl in Hsys. subst s1.
  lazymatch goal with
  | |- context [Swap nd e1 (mk_world ?s0 ?t0)] =>
      with_current_context s0 ltac:(fun x =>
        destruct (Swap_returns_picture nd e1 s0 t0 x 0%nat) as (tr2 & H1);
          [reflexivity|reflexivity|destruct nd; reflexivity|exact Ha1|])
  end.
  do 2 eexists. split; [exact H1|]. split; [reflexivity|]. clear H1.
  lazymatch goal with
  | |- context [Swap nd e2 (mk_world ?s0 ?t0)] =>
      with_current_context s0 ltac:(fun x =>
        destruct (Swap_returns_picture nd e2 s0 t0 x 1%nat) as (tr3 & H2);
          [reflexivity|reflexivity|destruct nd; reflexivity|exact Ha2|])
  end.
  do 2 eexists. split; [exact H2|]. split; [reflexivity|]. clear H2.
  lazymatch goal with
  | |- context [Swap nd e3 (mk_world ?s0 ?t0)] =>
      with_current_context s0 ltac:(fun x =>
        destruct (Swap_returns_picture nd e3 s0 t0 x 2%nat) as (tr4 & H3);
          [reflexivity|reflexivity|destruct nd; reflexivity|exact Ha3|])
  end.
  do 2 eexists. split; [exact H3|]. split; [reflexivity|]. clear H3.
  split; [reflexivity|]. split; [reflexivity|].
  split.
  - intros Hcopies Hmax.
    lazymatch goal with
    | |- context [Swap nd e4 (mk_world ?s0 ?t0)] =>
        with_current_context s0 ltac:(fun x =>
          destruct (Swap_blocked nd e4 s0 t0 x) as (w5 & H4 & Hp);
            [reflexivity|reflexivity|reflexivity| |exact Hcopies|exact Hmax|])
    end.
    + intros j cj Hj.
      do 4 (destruct j as [|j];
            [injection Hj as <-; simpl;
             change (wrap_int (0 + 1)) with 1; lia|]).
      discriminate Hj.
    + exists w5. split; [exact H4|exact Hp].
  - intros n j later Hwake Hj Ha4.
    lazymatch goal with
    | |- context [Swap nd e4 (mk_world ?s0 ?t0)] =>
        with_current_context s0 ltac:(fun x =>
          destruct (Swap_unblocked nd e4 s0 t0 x n [Destroy j] later j)
            as (w5 & H4 & Hcf);
            [reflexivity|reflexivity|destruct nd; reflexivity|exact Hwake|
             destruct Hj as [->|[->| ->]]; destruct nd; reflexivity|exact Ha4|])
    end.
    do 2 eexists. split; [exact H4|]. split; [reflexivity|exact Hcf].
Qed.

(** ** The mutex *)

Lemma picture_context_copy_eq i s tr c :
  lock s = false ->
  picture_contexts s !! i = Some c ->
  picture_context_copy i (mk_world s tr) =
  Ret i (mk_world
           (with_pool (<[i := set_rc (wrap_int (rc c + 1)) c]> (picture_contexts s))
                      false s)
           (tr ++ [MutexLock; RcWrite i (rc c) (wrap_int (rc c + 1)) true;
                   MutexUnlock])).
Proof.
  intros Hl Hc.
  unfold picture_context_copy, vlc_mutex_lock, vlc_mutex_unlock, rc_add, bind,
    get_sys, emit, modify_sys, ret, with_pool.
  simpl. rewrite Hl. simpl. rewrite Hc. simpl.
  repeat rewrite <- app_assoc. reflexivity.
Qed.

Lemma picture_context_destroy_eq i s tr c :
  lock s = false ->
  picture_contexts s !! i = Some c ->
  picture_context_destroy i (mk_world s tr) =
  Ret tt (mk_world
            (with_pool (<[i := set_rc (wrap_int (rc c + -1)) c]> (picture_contexts s))
                       false s)
            (tr ++ [MutexLock; RcWrite i (rc c) (wrap_int (rc c + -1)) true;
                    CondSignal; MutexUnlock])).
Proof.
  intros Hl Hc.
  unfold picture_context_destroy, vlc_mutex_lock, vlc_mutex_unlock,
    vlc_cond_signal, rc_add, bind, get_sys, emit, modify_sys, ret, with_pool.
  simpl. rewrite Hl. simpl. rewrite Hc. simpl.
  repeat rewrite <- app_assoc. reflexivity.
Qed.

Lemma Swap_trace_scan nd env s tr c :
  lock s = false ->
  picture_contexts s !! current_flip s = Some c ->
  exists waiting closing,
    trace (world_of (Swap nd env (mk_world s tr))) =
      tr ++ read_trace s c ++
      [RcWrite (current_flip s) (rc c) (wrap_int (rc c + 1)) false; MutexLock;
       RcScan true] ++ waiting ++ closing /\
    forallb guarded waiting = true /\
    forallb closing_event closing = true.
Proof.
  intros Hl Hc. rewrite (Swap_unfold nd env s tr c Hl Hc).
  unfold scan_world.
  set (s0 := with_pool (mapped_pool env s c) true s).
  set (tr0 := tr ++ read_trace s c ++
              [RcWrite (current_flip s) (rc c) (wrap_int (rc c + 1)) false;
               MutexLock]).
  destruct (wait_free_trace nd (wakeups env) s0 tr0 eq_refl)
    as (tr' & Htr & _ & Hg).
  destruct (wait_free_scans_first nd (wakeups env) s0 tr0) as (rest & Hrest).
  rewrite Htr in Hrest. apply app_inv_head in Hrest. subst tr'.
  change (lock s0) with true in *.
  cbn [forallb guarded andb] in Hg.
  assert (Hshape : forall closing,
            (tr0 ++ RcScan true :: rest) ++ closing =
            tr ++ read_trace s c ++
            [RcWrite (current_flip s) (rc c) (wrap_int (rc c + 1)) false;
             MutexLock; RcScan true] ++ rest ++ closing).
  { intros closing. subst tr0. repeat rewrite <- app_assoc. reflexivity. }
  destruct (wait_free nd (wakeups env) _) as [index w2|w2|w2]; simpl in Htr.
  - destruct (swap_output_trace nd env s index w2) as (post & Hp & Hc').
    exists rest, post. cbn [world_of] in *. rewrite Hp, Htr, Hshape. auto.
  - exists rest, []. cbn [world_of]. rewrite Htr, <- (Hshape []), app_nil_r. auto.
  - exists rest, []. cbn [world_of]. rewrite Htr, <- (Hshape []), app_nil_r. auto.
Qed.

Lemma closing_event_no_scan l :
  forallb closing_event l = true ->
  forallb (fun e => negb (is_scan e)) l = true.
Proof.
  induction l as [|e l IH]; simpl; [reflexivity|].
  intros H. apply andb_true_iff in H as [He Hl].
  rewrite IH by exact Hl. destruct e; try discriminate; reflexivity.
Qed.

(** C5, as the code has it.  The stores to a count made by duplicate and
    by dispose lie between the locking and the unlocking of the pool's
    mutex.  In a cycle, however it ends, the first scan of [UpdateBuffer]
    comes right after the locking, with the mutex held; every later scan
    and every store that consumers make while the producer waits is made
    with the mutex held; and the cycle scans nowhere else.  The producer's
    own stores are not made under the mutex: [Swap] increments the count
    of the current slot before [UpdateBuffer] takes the mutex, and on the
    error path decrements it after [UpdateBuffer] released it.  A cycle that
    returns has released the mutex, and the last scan was the one that
    found the new current slot free. *)
Theorem count_stores_and_the_mutex :
  forall (nd : bool) (env : swap_env) (s : vlc_gl_pbuffer) (tr : list event)
         (c ci : pbo_picture_context) (i : nat),
    lock s = false ->
    length (picture_contexts s) = BUFFER_COUNT ->
    picture_contexts s !! current_flip s = Some c ->
    picture_contexts s !! i = Some ci ->
    trace (world_of (picture_context_copy i (mk_world s tr))) =
      tr ++ [MutexLock; RcWrite i (rc ci) (wrap_int (rc ci + 1)) true;
             MutexUnlock] /\
    trace (world_of (picture_context_destroy i (mk_world s tr))) =
      tr ++ [MutexLock; RcWrite i (rc ci) (wrap_int (rc ci + -1)) true;
             CondSignal; MutexUnlock] /\
    (exists waiting closing,
        trace (world_of (Swap nd env (mk_world s tr))) =
          tr ++ read_trace s c ++
          [RcWrite (current_flip s) (rc c) (wrap_int (rc c + 1)) false;
           MutexLock; RcScan true] ++ waiting ++ closing /\
        forallb guarded waiting = true /\
        forallb closing_event closing = true /\
        forallb (fun e => negb (is_scan e)) (read_trace s c ++ closing) = true) /\
    (forall r w',
        Swap nd env (mk_world s tr) = Ret r w' ->
        lock (sys w') = false /\
        exists n,
          (n <= length (wakeups env))%nat /\
          scan nd BUFFER_COUNT 0
               (pool_after (concat (take n (wakeups env))) (mapped_pool env s c)) =
            Free (current_flip (sys w'))) /\
    (forall w',
        Swap nd env (mk_world s tr) = Ret None w' ->
        exists before old new,
          trace w' = before ++
            [MutexUnlock;
             GlBindFramebuffer GL_DRAW_FRAMEBUFFER
               (name_at (framebuffers s) (current_flip (sys w')))] ++
            (if current s then [] else [EglMakeCurrent false]) ++
            [RcWrite (current_flip s) old new false]).
Proof.
  intros nd env s tr c ci i Hl Hlen Hc Hci.
  assert (Hlt : (current_flip s < length (picture_contexts s))%nat)
    by (eapply lookup_lt_Some; eauto).
  split; [rewrite (picture_context_copy_eq i s tr ci Hl Hci); reflexivity|].
  split; [rewrite (picture_context_destroy_eq i s tr ci Hl Hci); reflexivity|].
  split; [|split].
  - destruct (Swap_trace_scan nd env s tr c Hl Hc)
      as (waiting & closing & Htr & Hg & Hp).
    exists waiting, closing.
    split; [exact Htr|]. split; [exact Hg|]. split; [exact Hp|].
    rewrite forallb_app, (closing_event_no_scan _ Hp), andb_true_r.
    unfold read_trace.
    destruct (current s), (buffer_mapping c =? NULL); reflexivity.
  - intros r w' Hswap.
    destruct (Swap_Ret _ _ _ _ _ _ _ Hl Hlen Hc Hswap)
      as (n & index & w2 & Hn & Hsys & Hfree & _ & Hout & _).
    rewrite Hsys in Hfree.
    cbn [picture_contexts with_pool set_lock set_picture_contexts] in Hfree.
    unfold swap_output, advanced in Hout.
    destruct (picture_alloc env); [|destruct nd];
      [| destruct (picture_contexts (sys w2) !! current_flip s) |];
      try discriminate; injection Hout as _ <-; simpl;
      (split; [reflexivity|]); exists n; (split; [exact Hn|exact Hfree]).
  - intros w' Hswap.
    destruct (Swap_Ret _ _ _ _ _ _ _ Hl Hlen Hc Hswap)
      as (n & index & w2 & Hn & Hsys & Hfree & _ & Hout & _).
    unfold swap_output, advanced in Hout.
    destruct (picture_alloc env); [discriminate|].
    destruct nd; [|discriminate].
    destruct (lookup_lt_is_Some_2 (picture_contexts (sys w2)) (current_flip s))
      as [c2 Hc2].
    { rewrite Hsys. simpl. rewrite pool_after_length, mapped_pool_length.
      exact Hlt. }
    rewrite Hc2 in Hout. injection Hout as <-. simpl.
    rewrite Hsys. simpl.
    exists (trace w2), (rc c2), (wrap_int (rc c2 + -1)).
    repeat rewrite <- app_assoc. reflexivity.
Qed.

Example demo_counts :
  map rc (picture_contexts (sys demo_opened)) = [0; 0; 0; 0] /\
  map rc (picture_contexts (sys demo_1)) = [0; 0; 0; 1] /\
  map rc (picture_contexts (sys demo_2)) = [1; 0; 0; 1] /\
  map rc (picture_contexts (sys demo_3)) = [1; 1; 0; 1] /\
  map rc (picture_contexts (sys demo_4)) = [1; 1; 1; 1] /\
  map current_flip [sys demo_opened; sys demo_1; sys demo_2; sys demo_3;
                    sys demo_4] = [3; 0; 1; 2; 2]%nat.
Proof. vm_compute. repeat split. Qed.

(** C1 as stated fails: a dispose on a context whose count is 0 is carried
    out, and leaves the count at -1. *)
Lemma dispose_at_zero_goes_negative :
  slot_rc demo_opened 0 = Some 0 /\
  exists w',
    consumer_run [Destroy 0%nat] demo_opened = Ret tt w' /\
    slot_rc w' 0 = Some (-1) /\
    ~ 0 <= -1.
Proof.
  split; [reflexivity|].
  eexists. split; [vm_compute; reflexivity|].
  split; [reflexivity|]. lia.
Qed.

(** C3 as stated fails: with four slots and nothing disposed, the fourth
    cycle, not the fifth, is the one that finds no free slot and blocks. *)
Lemma fourth_cycle_finds_no_free_slot :
  Open false demo_open_env 64 64 (mk_world demo_block []) =
    Ret VLC_SUCCESS demo_open_result /\
  sys demo_opened = sys demo_open_result /\
  Swap false (demo_swap 100) demo_opened =
    Ret (Some (demo_picture 100 3))
        (world_of (Swap false (demo_swap 100) demo_opened)) /\
  Swap false (demo_swap 101) demo_1 =
    Ret (Some (demo_picture 101 0))
        (world_of (Swap false (demo_swap 101) demo_1)) /\
  Swap false (demo_swap 102) demo_2 =
    Ret (Some (demo_picture 102 1))
        (world_of (Swap false (demo_swap 102) demo_2)) /\
  Swap false (demo_swap 103) demo_3 =
    Blocked (world_of (Swap false (demo_swap 103) demo_3)) /\
  scan false BUFFER_COUNT 0
       (picture_contexts (sys (world_of (Swap false (demo_swap 103) demo_3)))) =
    Exhausted BUFFER_COUNT.
Proof. vm_compute. repeat split. Qed.

(** C5 as stated fails: the increment that [Swap] makes is stored before
    the mutex is locked. *)
Lemma Swap_counts_before_locking :
  trace (world_of (Swap false (demo_swap 100) demo_opened)) =
    [EglMakeCurrent true;
     GlBindBuffer GL_PIXEL_PACK_BUFFER 14;
     GlBindFramebuffer GL_FRAMEBUFFER 24;
     GlReadPixels 0 0 64 64;
     GlMapBufferRange GL_PIXEL_PACK_BUFFER 0 16384;
     GlGetIntegerv;
     RcWrite 3 0 1 false;
     MutexLock;
     RcScan true;
     MutexUnlock;
     GlBindFramebuffer GL_DRAW_FRAMEBUFFER 21;
     EglMakeCurrent false] /\
  forallb guarded (trace (world_of (Swap false (demo_swap 100) demo_opened))) =
    false /\
  last (trace (world_of (Swap true (mk_swap_env 100 false []) demo_opened))) =
    Some (RcWrite 3 1 0 false).
Proof. vm_compute. repeat split. Qed.

(** C4 as stated fails.  With assertions compiled in, a cycle whose picture
    cannot be allocated stops on [assert(output)]: nothing is reported and
    the count of the slot stays at 1.  With assertions compiled out the
    count is put back, but not the state: the slot keeps the new mapping
    and [current_flip] has moved from slot 3 to slot 0. *)
Lemma failed_cycle_is_not_undone :
  picture_contexts (sys demo_opened) !! 3%nat = Some (mk_context 5 NULL 0) /\
  current_flip (sys demo_opened) = 3%nat /\
  Swap false demo_no_picture demo_opened = Abort demo_aborted /\
  slot_rc demo_aborted 3 = Some 1 /\
  exists w',
    Swap true demo_no_picture demo_opened = Ret None w' /\
    picture_contexts (sys w') !! 3%nat = Some (mk_context 5 7 0) /\
    current_flip (sys w') = 0%nat /\
    sys w' <> sys demo_opened.
Proof.
  split; [reflexivity|]. split; [reflexivity|].
  split; [vm_compute; reflexivity|]. split; [reflexivity|].
  eexists. split; [vm_compute; reflexivity|].
  split; [reflexivity|]. split; [reflexivity|]. discriminate.
Qed.

(** C10 as stated fails: of the slot that was current, a cycle writes a
    third member, [vctx], which it sets to NULL. *)
Lemma Swap_clears_vctx_of_the_current_slot :
  current_flip (sys demo_opened) = 3%nat /\
  picture_contexts (sys demo_opened) !! 3%nat = Some (mk_context 5 NULL 0) /\
  Swap false (demo_swap 100) demo_opened =
    Ret (Some (demo_picture 100 3)) demo_first /\
  picture_contexts (sys demo_first) !! 3%nat = Some (mk_context NULL 100 1) /\
  vctx (mk_context NULL 100 1) <> vctx (mk_context 5 NULL 0).
Proof.
  split; [reflexivity|]. split; [reflexivity|].
  split; [vm_compute; reflexivity|]. split; [reflexivity|]. discriminate.
Qed.

(** ** The theorems at work on the run *)

Ltac show_pool :=
  match goal with
  | |- context [picture_contexts ?s] =>
      let l := eval vm_compute in (picture_contexts s) in
      change (picture_contexts s) with l
  end.

Ltac by_slot :=
  let j := fresh "j" in
  let c := fresh "c" in
  let H := fresh "H" in
  intros j c H;
  do 4 (destruct j as [|j];
        [simpl in H; try lia; try discriminate H;
         try (injection H as <-; simpl; try lia; try discriminate)|]);
  simpl in H; try lia; discriminate H.

Ltac by_lower :=
  let j := fresh "j" in
  let c := fresh "c" in
  let Hlt := fresh "Hlt" in
  let H := fresh "H" in
  intros j c Hlt H;
  do 4 (destruct j as [|j];
        [try lia; simpl in H; try discriminate H;
         try (injection H as <-; simpl; try lia; try discriminate)|]);
  lia.

Lemma refcount_under_protocol_witness :
  lock (sys demo_opened) = false /\
  picture_contexts (sys demo_opened) !! 0%nat = Some (mk_context 5 0 0) /\
  0 <= 0 <= INT_MAX /\
  Forall (fun op => op_slot op = 0%nat)
         [Copy 0%nat; Copy 0%nat; Destroy 0%nat; Destroy 0%nat] /\
  respects_protocol 0 [Copy 0%nat; Copy 0%nat; Destroy 0%nat; Destroy 0%nat]
    = true /\
  (exists w' c',
      consumer_run (take 3 [Copy 0%nat; Copy 0%nat; Destroy 0%nat; Destroy 0%nat])
                   (mk_world (sys demo_opened) []) = Ret tt w' /\
      picture_contexts (sys w') !! 0%nat = Some c' /\ 0 <= rc c').
Proof.
  assert (H1 : lock (sys demo_opened) = false) by reflexivity.
  assert (H2 : picture_contexts (sys demo_opened) !! 0%nat =
               Some (mk_context 5 0 0)) by reflexivity.
  assert (H3 : 0 <= rc (mk_context 5 0 0) <= INT_MAX)
    by (simpl; unfold INT_MAX; lia).
  assert (H4 : Forall (fun op => op_slot op = 0%nat)
                 [Copy 0%nat; Copy 0%nat; Destroy 0%nat; Destroy 0%nat])
    by (repeat constructor).
  pose proof (refcount_under_protocol false (sys demo_opened) [] 0%nat
                (mk_context 5 0 0) _ H1 H2 H3 H4) as (Hinv & _).
  repeat (split; [assumption || reflexivity|]).
  exact (Hinv eq_refl 3%nat).
Defined.

Ltac show_pool_after :=
  match goal with
  | |- context [pool_after ?ops ?l] =>
      let r := eval vm_compute in (pool_after ops l) in
      change (pool_after ops l) with r
  end.

Lemma UpdateBuffer_takes_lowest_free_witness :
  lock (sys demo_4) = false /\
  length (picture_contexts (sys demo_4)) = BUFFER_COUNT /\
  map rc (picture_contexts (sys demo_4)) = [1; 1; 1; 1] /\
  map rc (pool_after (concat (take 3 demo_wake)) (picture_contexts (sys demo_4)))
    = [2; 0; 1; 1] /\
  UpdateBuffer false demo_wake (mk_world (sys demo_4) []) =
    Ret tt (mk_world
              (set_current_flip 1
                 (with_pool (pool_after (concat (take 3 demo_wake))
                                        (picture_contexts (sys demo_4)))
                            false (sys demo_4)))
              ([MutexLock] ++
               [RcScan true; CondWait;
                MutexLock; RcWrite 0 1 2 true; MutexUnlock;
                RcScan true; CondWait;
                RcScan true; CondWait;
                MutexLock; RcWrite 1 1 0 true; CondSignal; MutexUnlock] ++
               [RcScan true; MutexUnlock;
                GlBindFramebuffer GL_DRAW_FRAMEBUFFER 22])) /\
  UpdateBuffer false (take 2 demo_wake) (mk_world (sys demo_4) []) =
    Blocked (mk_world
               (with_pool (pool_after (concat (take 2 demo_wake))
                                      (picture_contexts (sys demo_4)))
                          false (sys demo_4))
               ([MutexLock] ++
                [RcScan true; CondWait;
                 MutexLock; RcWrite 0 1 2 true; MutexUnlock;
                 RcScan true; CondWait] ++
                [RcScan true; CondWait])).
Proof.
  pose proof (UpdateBuffer_takes_lowest_free false (sys demo_4) [] demo_wake
                eq_refl eq_refl) as Hret.
  pose proof (UpdateBuffer_takes_lowest_free false (sys demo_4) []
                (take 2 demo_wake) eq_refl eq_refl) as Hblock.
  cbv zeta in Hret, Hblock.
  destruct Hret as (Hret & _). destruct Hblock as (_ & Hblock & _).
  do 4 (split; [reflexivity|]).
  split.
  - apply (Hret 3%nat 1%nat).
    + simpl. lia.
    + intros m Hm. unfold all_busy.
      destruct m as [|[|[|m]]]; [show_pool_after; by_slot..|lia].
    + unfold counts_nonneg. show_pool_after. by_slot.
    + unfold lowest_free. show_pool_after. split.
      * eexists. split; reflexivity.
      * by_lower.
  - apply Hblock.
    intros m Hm. unfold all_busy.
    destruct m as [|[|[|m]]]; [show_pool_after; by_slot..|simpl in Hm; lia].
Defined.

Lemma pool_of_four_blocks_the_fourth_cycle_witness :
  length (picture_contexts demo_block) = BUFFER_COUNT /\
  Open false demo_open_env 64 64 (mk_world demo_block []) =
    Ret VLC_SUCCESS demo_open_result /\
  picture_alloc (demo_swap 100) = true /\
  picture_alloc (demo_swap 101) = true /\
  picture_alloc (demo_swap 102) = true /\
  Forall (Forall (fun op => is_copy op = true)) (wakeups (demo_swap 103)) /\
  1 + Z.of_nat (length (concat (wakeups (demo_swap 103)))) <= INT_MAX /\
  exists p1 w2 p2 w3 p3 w4 w5,
    Swap false (demo_swap 100) demo_open_result = Ret (Some p1) w2 /\
    Swap false (demo_swap 101) w2 = Ret (Some p2) w3 /\
    Swap false (demo_swap 102) w3 = Ret (Some p3) w4 /\
    Swap false (demo_swap 103) w4 = Blocked w5.
Proof.
  assert (Hopen : Open false demo_open_env 64 64 (mk_world demo_block []) =
                  Ret VLC_SUCCESS demo_open_result)
    by (vm_compute; reflexivity).
  destruct (pool_of_four_blocks_the_fourth_cycle false demo_open_env 64 64
              demo_block [] demo_open_result
              (demo_swap 100) (demo_swap 101) (demo_swap 102) (demo_swap 103)
              eq_refl Hopen eq_refl eq_refl eq_refl)
    as (p1 & w2 & H1 & _ & p2 & w3 & H2 & _ & p3 & w4 & H3 & _ & _ & _ & Hb & _).
  assert (Hq : Forall (Forall (fun op => is_copy op = true))
                      (wakeups (demo_swap 103))) by constructor.
  assert (Hm : 1 + Z.of_nat (length (concat (wakeups (demo_swap 103))))
               <= INT_MAX) by (simpl; unfold INT_MAX; lia).
  destruct (Hb Hq Hm) as (w5 & H4 & _).
  do 7 (split; [assumption || reflexivity|]).
  exists p1, w2, p2, w3, p3, w4, w5. repeat split; assumption.
Defined.

Lemma Swap_failure_restores_count_witness :
  lock (sys demo_opened) = false /\
  length (picture_contexts (sys demo_opened)) = BUFFER_COUNT /\
  picture_contexts (sys demo_opened) !! current_flip (sys demo_opened) =
    Some (mk_context 5 0 0) /\
  rc (mk_context 5 0 0) = 0 /\
  picture_alloc (mk_swap_env 100 false []) = false /\
  Forall (Forall (fun op => op_slot op <> current_flip (sys demo_opened)))
         (wakeups (mk_swap_env 100 false [])) /\
  exists w',
    Swap true (mk_swap_env 100 false []) (mk_world (sys demo_opened) []) =
      Ret None w' /\
    picture_contexts (sys w') !! 3%nat = Some (mk_context 5 100 0) /\
    current_flip (sys w') <> current_flip (sys demo_opened).
Proof.
  assert (Hq : Forall (Forall (fun op => op_slot op <> current_flip (sys demo_opened)))
                 (wakeups (mk_swap_env 100 false [])))
    by constructor.
  destruct (Swap_failure_restores_count true (mk_swap_env 100 false [])
              (sys demo_opened) [] (mk_context 5 0 0)
              eq_refl eq_refl eq_refl eq_refl eq_refl Hq)
    as (Hret & Hreach & _).
  destruct (Hreach 0%nat eq_refl) as (w' & Hw).
  destruct (Hret None w' Hw) as (_ & _ & Hrc & _ & Hflip & _).
  do 6 (split; [assumption || reflexivity|]).
  exists w'. split; [exact Hw|]. split; [exact Hrc|exact Hflip].
Defined.

Lemma count_stores_and_the_mutex_witness :
  lock (sys demo_opened) = false /\
  length (picture_contexts (sys demo_opened)) = BUFFER_COUNT /\
  picture_contexts (sys demo_opened) !! current_flip (sys demo_opened) =
    Some (mk_context 5 0 0) /\
  picture_contexts (sys demo_opened) !! 1%nat = Some (mk_context 5 0 0) /\
  trace (world_of (picture_context_copy 1 (mk_world (sys demo_opened) []))) =
    [MutexLock; RcWrite 1 0 1 true; MutexUnlock] /\
  trace (world_of (picture_context_destroy 1 (mk_world (sys demo_opened) []))) =
    [MutexLock; RcWrite 1 0 (-1) true; CondSignal; MutexUnlock] /\
  exists waiting closing,
    trace (world_of (Swap false (demo_swap 100) (mk_world (sys demo_opened) []))) =
      [] ++ read_trace (sys demo_opened) (mk_context 5 0 0) ++
      [RcWrite 3 0 1 false; MutexLock; RcScan true] ++ waiting ++ closing /\
    forallb guarded waiting = true /\
    forallb closing_event closing = true.
Proof.
  destruct (count_stores_and_the_mutex false (demo_swap 100) (sys demo_opened)
              [] (mk_context 5 0 0) (mk_context 5 0 0) 1%nat
              eq_refl eq_refl eq_refl eq_refl)
    as (Hcopy & Hdestroy & (waiting & closing & Htr & Hg & Hp & _) & _).
  do 4 (split; [reflexivity|]).
  split; [exact Hcopy|]. split; [exact Hdestroy|].
  exists waiting, closing. split; [exact Htr|]. split; [exact Hg|exact Hp].
Defined.

Lemma Swap_picture_layout_witness :
  lock (sys demo_opened) = false /\
  length (picture_contexts (sys demo_opened)) = BUFFER_COUNT /\
  picture_contexts (sys demo_opened) !! current_flip (sys demo_opened) =
    Some (mk_context 5 0 0) /\
  Swap false (demo_swap 100) (mk_world (sys demo_opened) []) =
    Ret (Some (demo_picture 100 3)) demo_first /\
  0 <= 4 * i_visible_width (fmt_out (sys demo_opened)) <= INT_MAX /\
  0 <= i_visible_height (fmt_out (sys demo_opened)) <= INT_MAX /\
  p_pixels (p0 (demo_picture 100 3)) = 100 /\
  i_pitch (p0 (demo_picture 100 3)) = 4 * 64 /\
  i_lines (p0 (demo_picture 100 3)) = 64 /\
  pic_context (demo_picture 100 3) = Some 3%nat.
Proof.
  assert (Hswap : Swap false (demo_swap 100) (mk_world (sys demo_opened) []) =
                  Ret (Some (demo_picture 100 3)) demo_first)
    by (vm_compute; reflexivity).
  assert (Hw : 0 <= 4 * i_visible_width (fmt_out (sys demo_opened)) <= INT_MAX)
    by (simpl; unfold INT_MAX; lia).
  assert (Hh : 0 <= i_visible_height (fmt_out (sys demo_opened)) <= INT_MAX)
    by (simpl; unfold INT_MAX; lia).
  destruct (Swap_picture_layout false (demo_swap 100) (sys demo_opened) []
              (mk_context 5 0 0) (demo_picture 100 3) demo_first
              eq_refl eq_refl eq_refl Hswap)
    as (Hpx & _ & _ & Hpitch & Hlines & _ & Hctx & _).
  do 6 (split; [assumption || reflexivity|]).
  split; [exact Hpx|]. split; [exact (Hpitch Hw)|].
  split; [exact (Hlines Hh)|exact Hctx].
Defined.

Lemma Swap_unmaps_before_reading_witness :
  lock (sys demo_5) = false /\
  picture_contexts (sys demo_5) !! current_flip (sys demo_5) =
    Some (mk_context 0 100 0) /\
  exists rest,
    trace (world_of (Swap false (demo_swap 104) (mk_world (sys demo_5) []))) =
      [EglMakeCurrent true;
       GlBindBuffer GL_PIXEL_PACK_BUFFER 14;
       GlBindFramebuffer GL_FRAMEBUFFER 24;
       GlUnmapBuffer GL_PIXEL_PACK_BUFFER;
       GlReadPixels 0 0 64 64] ++ rest /\
    forallb quiet rest = true.
Proof.
  destruct (Swap_unmaps_before_reading false (demo_swap 104) (sys demo_5) []
              (mk_context 0 100 0) eq_refl eq_refl)
    as (rest & Htr & Hq).
  do 2 (split; [reflexivity|]).
  exists rest. split; [exact Htr|exact Hq].
Defined.

Lemma Open_starts_on_the_last_slot_witness :
  length (picture_contexts demo_block) = BUFFER_COUNT /\
  Open false demo_open_env 64 64 (mk_world demo_block []) =
    Ret VLC_SUCCESS demo_open_result /\
  current_flip (sys demo_open_result) = 3%nat /\
  draw_binding (trace demo_open_result) = Some 24 /\
  map rc (picture_contexts (sys demo_open_result)) = [0; 0; 0; 0] /\
  map buffer_mapping (picture_contexts (sys demo_open_result)) =
    [NULL; NULL; NULL; NULL].
Proof.
  assert (Hopen : Open false demo_open_env 64 64 (mk_world demo_block []) =
                  Ret VLC_SUCCESS demo_open_result)
    by (vm_compute; reflexivity).
  destruct (Open_starts_on_the_last_slot false demo_open_env 64 64 demo_block
              [] demo_open_result eq_refl Hopen)
    as (_ & _ & _ & Hcf & _ & Hdraw & _).
  do 2 (split; [assumption || reflexivity|]).
  split; [exact Hcf|]. split; [exact Hdraw|]. split; reflexivity.
Defined.

Lemma Swap_changes_only_the_current_slot_witness :
  lock (sys demo_opened) = false /\
  length (picture_contexts (sys demo_opened)) = BUFFER_COUNT /\
  picture_contexts (sys demo_opened) !! current_flip (sys demo_opened) =
    Some (mk_context 5 0 0) /\
  Swap false (demo_swap 100) (mk_world (sys demo_opened) []) =
    Ret (Some (demo_picture 100 3)) demo_first /\
  (exists c',
      picture_contexts (sys demo_first) !! current_flip (sys demo_opened) =
        Some c' /\
      buffer_mapping c' = map_result (demo_swap 100) /\
      vctx c' = NULL) /\
  set_current_flip 3 (set_picture_contexts (picture_contexts (sys demo_opened))
                                           (sys demo_first)) =
    sys demo_opened /\
  lowest_free (picture_contexts (sys demo_first)) (current_flip (sys demo_first)).
Proof.
  assert (Hswap : Swap false (demo_swap 100) (mk_world (sys demo_opened) []) =
                  Ret (Some (demo_picture 100 3)) demo_first)
    by (vm_compute; reflexivity).
  destruct (Swap_changes_only_the_current_slot false (demo_swap 100)
              (sys demo_opened) [] (mk_context 5 0 0) (demo_picture 100 3)
              demo_first eq_refl eq_refl eq_refl Hswap)
    as (n & _ & _ & _ & (c' & Hc' & Hb & Hv & _) & Hsame & _ & Hfree).
  do 4 (split; [assumption || reflexivity|]).
  split; [exists c'; split; [exact Hc'|split; [exact Hb|exact Hv]]|].
  split; [exact Hsame|exact Hfree].
Defined.


(** * More of the module *)

(** ** Initialising EGL *)

(** X1.  [InitEGL] succeeds exactly when every EGL call answers well, and
    then makes no further call.  When it returns an error, it has called
    eglTerminate once if the display had been obtained and initialised, and
    not at all otherwise; it makes no other call that is traced.  It only
    stops on an assertion when assertions are compiled in and the surface
    cannot be created, and then before eglTerminate.  Whatever happens, it
    writes nothing but the display, surface and context handles. *)
Theorem InitEGL_terminates_what_it_initialised :
  forall (nd : bool) (e : egl_env) (s : vlc_gl_pbuffer) (tr : list event),
    (InitEGL nd e (mk_world s tr) =
       Ret VLC_SUCCESS
           (mk_world (set_egl (egl_display e) (egl_surface e) (egl_context e) s) tr)
     <-> egl_answers_ok e = true) /\
    (forall r w1, InitEGL nd e (mk_world s tr) = Ret r w1 ->
       (r = VLC_SUCCESS /\ egl_answers_ok e = true /\ trace w1 = tr) \/
       (r = VLC_EGENERIC /\ egl_answers_ok e = false /\
        trace w1 = tr ++ (if egl_display_up e then [EglTerminate] else []))) /\
    (forall w1, InitEGL nd e (mk_world s tr) = Abort w1 ->
       nd = false /\ egl_display_up e = true /\ egl_surface e = NULL /\
       trace w1 = tr) /\
    (forall w1, InitEGL nd e (mk_world s tr) <> Blocked w1) /\
    set_egl (display s) (surface s) (context s)
            (sys (world_of (InitEGL nd e (mk_world s tr)))) = s.
Proof.
  intros nd e s tr.
  unfold InitEGL, egl_answers_ok, egl_display_up, bind, modify_sys, emit, ret,
    assert, abort.
  cbn [sys trace].
  destruct (egl_display e =? NULL) eqn:Hd; cbn [negb andb].
  { repeat split; try discriminate; try (destruct s; reflexivity).
    - intros r w1 Hr; injection Hr as <- <-. right. rewrite app_nil_r. auto. }
  destruct (egl_initialize e); cbn [negb andb].
  2:{ repeat split; try discriminate; try (destruct s; reflexivity).
      - intros r w1 Hr; injection Hr as <- <-. right. rewrite app_nil_r. auto. }
  destruct (egl_choose_config e); cbn [negb andb orb].
  2:{ repeat split; try discriminate; try (destruct s; reflexivity).
      - intros r w1 Hr; injection Hr as <- <-. right. auto. }
  destruct (egl_cfgc e =? 0); cbn [negb andb orb].
  { repeat split; try discriminate; try (destruct s; reflexivity).
    - intros r w1 Hr; injection Hr as <- <-. right. auto. }
  destruct (egl_surface e =? NULL) eqn:Hs; cbn [negb andb].
  { apply Z.eqb_eq in Hs.
    destruct nd; cbn [sys trace].
    - repeat split; try discriminate; try (destruct s; reflexivity).
      intros r w1 Hr; injection Hr as <- <-. right. auto.
    - split; [split; discriminate|]. split; [discriminate|].
      split; [|split; [discriminate|destruct s; reflexivity]].
      intros w1 Hr; injection Hr as <-. auto. }
  destruct (egl_bind_api e); cbn [negb andb sys trace].
  2:{ repeat split; try discriminate; try (destruct s; reflexivity).
      - intros r w1 Hr; injection Hr as <- <-. right. auto. }
  destruct (egl_context e =? NULL); cbn [negb andb sys trace].
  { repeat split; try discriminate; try (destruct s; reflexivity).
    - intros r w1 Hr; injection Hr as <- <-. right. auto. }
  repeat split; try discriminate; try (destruct s; reflexivity).
  intros r w1 Hr; injection Hr as <- <-. left. auto.
Qed.

(** ** Opening, on every path *)

Lemma InitEGL_ok nd e s tr :
  egl_answers_ok e = true ->
  InitEGL nd e (mk_world s tr) =
  Ret VLC_SUCCESS
      (mk_world (set_egl (egl_display e) (egl_surface e) (egl_context e) s) tr).
Proof.
  unfold egl_answers_ok, InitEGL, bind, modify_sys, emit, ret, assert, abort.
  cbn [sys trace].
  destruct (egl_display e =? NULL); cbn [negb andb]; [discriminate|].
  destruct (egl_initialize e); cbn [negb andb]; [|discriminate].
  destruct (egl_choose_config e); cbn [negb andb orb]; [|discriminate].
  destruct (egl_cfgc e =? 0); cbn [negb andb orb]; [discriminate|].
  destruct (egl_surface e =? NULL); cbn [negb andb]; [discriminate|].
  destruct (egl_bind_api e); cbn [negb andb sys trace]; [|discriminate].
  destruct (egl_context e =? NULL); cbn [negb andb sys trace]; [discriminate|].
  reflexivity.
Qed.

(** What a failing [InitEGL] leaves: an error or an assertion failure, the
    handles written, and at most the call of eglTerminate. *)
Lemma InitEGL_not_ok nd e s tr :
  egl_answers_ok e = false ->
  exists d sf cx,
    (InitEGL nd e (mk_world s tr) =
       Ret VLC_EGENERIC
           (mk_world (set_egl d sf cx s)
                     (tr ++ (if egl_display_up e then [EglTerminate] else [])))) \/
    (nd = false /\ egl_display_up e = true /\
     InitEGL nd e (mk_world s tr) = Abort (mk_world (set_egl d sf cx s) tr)).
Proof.
  unfold egl_answers_ok, egl_display_up, InitEGL, bind, modify_sys, emit, ret,
    assert, abort.
  cbn [sys trace].
  destruct (egl_display e =? NULL); cbn [negb andb].
  { intros _. do 3 eexists. left. rewrite app_nil_r. reflexivity. }
  destruct (egl_initialize e); cbn [negb andb].
  2:{ intros _. do 3 eexists. left. rewrite app_nil_r. reflexivity. }
  destruct (egl_choose_config e); cbn [negb andb orb].
  2:{ intros _. do 3 eexists. left. reflexivity. }
  destruct (egl_cfgc e =? 0); cbn [negb andb orb].
  { intros _. do 3 eexists. left. reflexivity. }
  destruct (egl_surface e =? NULL); cbn [negb andb].
  { intros _. destruct nd; cbn [sys trace]; do 3 eexists.
    - left. reflexivity.
    - right. repeat split; reflexivity. }
  destruct (egl_bind_api e); cbn [negb andb sys trace].
  2:{ intros _. do 3 eexists. left. reflexivity. }
  destruct (egl_context e =? NULL); cbn [negb andb sys trace].
  { intros _. do 3 eexists. left. reflexivity. }
  discriminate.
Qed.

Lemma Open_no_memory nd env width height w :
  obj_malloc_ok env = false ->
  Open nd env width height w = Ret VLC_ENOMEM w.
Proof. intros H. unfold Open. rewrite H. reflexivity. Qed.

Lemma Open_enters_InitEGL nd env width height s tr :
  obj_malloc_ok env = true ->
  Open nd env width height (mk_world s tr) =
  match InitEGL nd (egl env)
          (mk_world (set_lock false
                       (set_fmt_out
                          (mk_format VLC_CODEC_RGBA width height width height)
                          (set_current false s))) tr) with
  | Ret VLC_SUCCESS w0 =>
      (MakeCurrent nd (make_current_ok env);;
       if negb (api_init_ok env)
       then ReleaseCurrent nd;; emit EglTerminate;; ret VLC_EGENERIC
       else
         modify_sys (set_api_ready true);;
         emit (GlGenBuffers BUFFER_COUNT);;
         emit (GlGenFramebuffers BUFFER_COUNT);;
         emit (GlGenTextures BUFFER_COUNT);;
         modify_sys
           (set_names (gen_buffers env) (gen_framebuffers env) (gen_textures env));;
         for_loop BUFFER_COUNT 0 (Open_slot width height);;
         modify_sys (set_current_flip (BUFFER_COUNT - 1));;
         BindDrawFramebuffer;; ReleaseCurrent nd;; ret VLC_SUCCESS) w0
  | Ret _ w0 => Ret VLC_EGENERIC w0
  | Abort w0 => Abort w0
  | Blocked w0 => Blocked w0
  end.
Proof.
  intros H. unfold Open. rewrite H. cbn [negb].
  unfold bind at 1 2 3. unfold modify_sys at 1 2 3. cbn [sys trace].
  unfold bind at 1.
  destruct (InitEGL nd (egl env) _) as [r w0|w0|w0]; [|reflexivity|reflexivity].
  destruct r; reflexivity.
Qed.

Lemma Open_from_egl nd env width height s tr :
  obj_malloc_ok env = true ->
  egl_answers_ok (egl env) = true ->
  Open nd env width height (mk_world s tr) =
  if api_init_ok env then
    if nd || make_current_ok env
    then Ret VLC_SUCCESS
             (mk_world (opened_sys env width height s)
                       (tr ++ EglMakeCurrent true ::
                        open_gl_trace env width height ++
                        [EglMakeCurrent false]))
    else Abort (mk_world (opened_sys env width height s)
                         (tr ++ EglMakeCurrent true ::
                          open_gl_trace env width height))
  else
    if nd || make_current_ok env
    then Ret VLC_EGENERIC
             (mk_world (egl_ready_sys env width height s)
                       (tr ++ [EglMakeCurrent true; EglMakeCurrent false;
                               EglTerminate]))
    else Abort (mk_world (egl_ready_sys env width height s)
                         (tr ++ [EglMakeCurrent true])).
Proof.
  intros Hm He. rewrite Open_enters_InitEGL by exact Hm.
  rewrite InitEGL_ok by exact He. norm_state.
  run_with MakeCurrent_eq; [|reflexivity].
  destruct (api_init_ok env); cbn [negb].
  2:{ unfold bind at 1. rewrite ReleaseCurrent_eq. norm_state.
      destruct nd, (make_current_ok env); cbn [orb]; cbv beta iota; norm_state;
        try reflexivity; run_emit; unfold ret; rewrite <- app_assoc;
        reflexivity. }
  run_modify. do 3 run_emit. run_modify.
  cbn [for_loop BUFFER_COUNT].
  unfold bind at 1. unfold bind at 1. rewrite Open_slot_eq.
  cbv beta iota. norm_state.
  unfold bind at 1. rewrite Open_slot_eq. cbv beta iota. norm_state.
  unfold bind at 1. rewrite Open_slot_eq. cbv beta iota. norm_state.
  unfold bind at 1. rewrite Open_slot_eq. cbv beta iota. norm_state.
  unfold ret at 1. cbv beta iota.
  run_modify.
  run_with BindDrawFramebuffer_eq.
  unfold bind at 1. rewrite ReleaseCurrent_eq. norm_state.
  unfold opened_sys, open_gl_trace, slot_setup, init_pool.
  destruct nd, (make_current_ok env); cbn [orb]; cbv beta iota; norm_state;
    unfold ret; repeat rewrite <- app_assoc; reflexivity.
Qed.

Lemma egl_answers_ok_display_up e :
  egl_answers_ok e = true -> egl_display_up e = true.
Proof.
  unfold egl_answers_ok, egl_display_up.
  destruct (negb (egl_display e =? NULL)), (egl_initialize e);
    simpl; auto; discriminate.
Qed.

(** X2.  When [Open] returns an error it has made no OpenGL call and has
    left the contexts and the arrays of GL names as they were; the error is
    VLC_ENOMEM exactly when the structure could not be allocated, and then
    nothing at all was done.  eglTerminate has been called once if the
    display had been obtained and initialised, and never otherwise, and
    every eglMakeCurrent that bound the context was followed by one that
    released it. *)
Theorem Open_failure_releases_the_display :
  forall (nd : bool) (env : open_env) (width height : Z)
         (s : vlc_gl_pbuffer) (tr : list event) (r : vlc_status) (w1 : world),
    Open nd env width height (mk_world s tr) = Ret r w1 ->
    r <> VLC_SUCCESS ->
    (r = VLC_ENOMEM <-> obj_malloc_ok env = false) /\
    (obj_malloc_ok env = false -> w1 = mk_world s tr) /\
    picture_contexts (sys w1) = picture_contexts s /\
    pixelbuffers (sys w1) = pixelbuffers s /\
    framebuffers (sys w1) = framebuffers s /\
    textures (sys w1) = textures s /\
    exists new,
      trace w1 = tr ++ new /\
      forallb egl_event new = true /\
      count_events gl_event new = 0%nat /\
      count_events is_terminate new =
        (if obj_malloc_ok env && egl_display_up (egl env) then 1 else 0)%nat /\
      count_events is_bind_context new = count_events is_release_context new.
Proof.
  intros nd env width height s tr r w1 Hopen Hr.
  destruct (obj_malloc_ok env) eqn:Hm.
  - destruct (egl_answers_ok (egl env)) eqn:He.
    + rewrite (Open_from_egl _ _ _ _ _ _ Hm He) in Hopen.
      rewrite (egl_answers_ok_display_up _ He).
      destruct (api_init_ok env), (nd || make_current_ok env);
        try discriminate.
      * injection Hopen as <- <-. contradiction.
      * injection Hopen as <- <-. cbn [sys trace].
        split; [split; discriminate|]. split; [discriminate|].
        do 4 (split; [reflexivity|]).
        eexists. split; [reflexivity|]. repeat split.
    + rewrite (Open_enters_InitEGL _ _ _ _ _ _ Hm) in Hopen.
      destruct (InitEGL_not_ok nd (egl env)
                  (set_lock false
                     (set_fmt_out
                        (mk_format VLC_CODEC_RGBA width height width height)
                        (set_current false s))) tr He)
        as (d & sf & cx & [Hi|(_ & _ & Hi)]); rewrite Hi in Hopen;
        [|discriminate].
      injection Hopen as <- <-. cbn [sys trace].
      split; [split; discriminate|]. split; [discriminate|].
      do 4 (split; [reflexivity|]).
      eexists. split; [reflexivity|].
      destruct (egl_display_up (egl env)); repeat split.
  - rewrite (Open_no_memory _ _ _ _ _ Hm) in Hopen.
    injection Hopen as <- <-. cbn [sys trace].
    split; [split; reflexivity|]. split; [reflexivity|].
    do 4 (split; [reflexivity|]).
    exists []. rewrite app_nil_r. repeat split.
Qed.

Lemma Open_failure_releases_the_display_witness :
  Open false demo_no_api_env 64 64 (mk_world demo_block []) =
    Ret VLC_EGENERIC
        (world_of (Open false demo_no_api_env 64 64 (mk_world demo_block []))) /\
  VLC_EGENERIC <> VLC_SUCCESS /\
  trace (world_of (Open false demo_no_api_env 64 64 (mk_world demo_block []))) =
    [EglMakeCurrent true; EglMakeCurrent false; EglTerminate] /\
  picture_contexts
    (sys (world_of (Open false demo_no_api_env 64 64 (mk_world demo_block [])))) =
    picture_contexts demo_block.
Proof.
  assert (Hopen : Open false demo_no_api_env 64 64 (mk_world demo_block []) =
                  Ret VLC_EGENERIC
                      (world_of (Open false demo_no_api_env 64 64
                                      (mk_world demo_block []))))
    by (vm_compute; reflexivity).
  assert (Hr : VLC_EGENERIC <> VLC_SUCCESS) by discriminate.
  destruct (Open_failure_releases_the_display false demo_no_api_env 64 64
              demo_block [] VLC_EGENERIC _ Hopen Hr)
    as (_ & _ & Hpool & _).
  split; [exact Hopen|]. split; [exact Hr|].
  split; [vm_compute; reflexivity|exact Hpool].
Defined.

(** X3.  [Open] returns VLC_SUCCESS exactly when the structure is
    allocated, EGL is initialised, vlc_gl_api_Init succeeds and, where
    assertions are compiled in, eglMakeCurrent succeeded; it never blocks.
    What vlc_gl_MakeCurrent returns is not looked at: when eglMakeCurrent
    fails after EGL was initialised, a build with assertions stops on the
    assertion of [ReleaseCurrent], after all the OpenGL calls of the set-up
    if vlc_gl_api_Init succeeded, and a build without them makes the same
    calls and returns as if the context had been current. *)
Theorem Open_succeeds_exactly_when :
  forall (nd : bool) (env : open_env) (width height : Z)
         (s : vlc_gl_pbuffer) (tr : list event),
    ((exists w1, Open nd env width height (mk_world s tr) = Ret VLC_SUCCESS w1)
     <-> obj_malloc_ok env && egl_answers_ok (egl env) && api_init_ok env &&
         (nd || make_current_ok env) = true) /\
    (forall w1, Open nd env width height (mk_world s tr) <> Blocked w1) /\
    (forall w1, Open nd env width height (mk_world s tr) = Abort w1 ->
       nd = false /\ obj_malloc_ok env = true /\
       egl_display_up (egl env) = true) /\
    (obj_malloc_ok env = true -> egl_answers_ok (egl env) = true ->
     make_current_ok env = false ->
     Open false env width height (mk_world s tr) =
       Abort (mk_world (if api_init_ok env then opened_sys env width height s
                        else egl_ready_sys env width height s)
                       (tr ++ EglMakeCurrent true ::
                        (if api_init_ok env then open_gl_trace env width height
                         else []))) /\
     Open true env width height (mk_world s tr) =
       if api_init_ok env
       then Ret VLC_SUCCESS
                (mk_world (opened_sys env width height s)
                          (tr ++ EglMakeCurrent true ::
                           open_gl_trace env width height ++
                           [EglMakeCurrent false]))
       else Ret VLC_EGENERIC
                (mk_world (egl_ready_sys env width height s)
                          (tr ++ [EglMakeCurrent true; EglMakeCurrent false;
                                  EglTerminate]))).
Proof.
  intros nd env width height s tr.
  destruct (obj_malloc_ok env) eqn:Hm.
  - destruct (egl_answers_ok (egl env)) eqn:He.
    + pose proof (Open_from_egl nd env width height s tr Hm He) as E.
      split; [|split; [|split]].
      * rewrite E. cbn [andb].
        destruct (api_init_ok env), (nd || make_current_ok env); cbn [andb];
          split; try discriminate; eauto;
          intros [w1 H]; discriminate.
      * intros w1. rewrite E.
        destruct (api_init_ok env), (nd || make_current_ok env); discriminate.
      * intros w1. rewrite E.
        rewrite (egl_answers_ok_display_up _ He).
        destruct (api_init_ok env), nd, (make_current_ok env); cbn [orb];
          try discriminate; auto.
      * intros _ _ Hmc.
        rewrite (Open_from_egl false env width height s tr Hm He).
        rewrite (Open_from_egl true env width height s tr Hm He).
        rewrite Hmc. cbn [orb].
        destruct (api_init_ok env); split; reflexivity.
    + pose proof (Open_enters_InitEGL nd env width height s tr Hm) as E.
      destruct (InitEGL_not_ok nd (egl env)
                  (set_lock false
                     (set_fmt_out
                        (mk_format VLC_CODEC_RGBA width height width height)
                        (set_current false s))) tr He)
        as (d & sf & cx & [Hi|(Hnd & Hup & Hi)]); rewrite Hi in E.
      * split; [|split; [|split]].
        -- rewrite E. cbn [andb]. split; [intros [w1 H]|]; discriminate.
        -- intros w1. rewrite E. discriminate.
        -- intros w1. rewrite E. discriminate.
        -- discriminate.
      * split; [|split; [|split]].
        -- rewrite E. cbn [andb]. split; [intros [w1 H]|]; discriminate.
        -- intros w1. rewrite E. discriminate.
        -- intros w1 _. auto.
        -- discriminate.
  - pose proof (Open_no_memory nd env width height (mk_world s tr) Hm) as E.
    split; [|split; [|split]].
    + rewrite E. cbn [andb]. split; [intros [w1 H]|]; discriminate.
    + intros w1. rewrite E. discriminate.
    + intros w1. rewrite E. discriminate.
    + discriminate.
Qed.

Lemma Open_success_full nd env width height s tr w1 :
  Open nd env width height (mk_world s tr) = Ret VLC_SUCCESS w1 ->
  w1 = mk_world (opened_sys env width height s)
                (tr ++ EglMakeCurrent true ::
                 open_gl_trace env width height ++ [EglMakeCurrent false]).
Proof.
  intros Hopen.
  destruct (obj_malloc_ok env) eqn:Hm.
  - destruct (egl_answers_ok (egl env)) eqn:He.
    + rewrite (Open_from_egl _ _ _ _ _ _ Hm He) in Hopen.
      destruct (api_init_ok env), (nd || make_current_ok env);
        try discriminate.
      injection Hopen as <-. reflexivity.
    + rewrite (Open_enters_InitEGL _ _ _ _ _ _ Hm) in Hopen.
      destruct (InitEGL_not_ok nd (egl env)
                  (set_lock false
                     (set_fmt_out
                        (mk_format VLC_CODEC_RGBA width height width height)
                        (set_current false s))) tr He)
        as (d & sf & cx & [Hi|(_ & _ & Hi)]); rewrite Hi in Hopen;
        discriminate.
  - rewrite (Open_no_memory _ _ _ _ _ Hm) in Hopen. discriminate.
Qed.

Lemma wrap_uint_small z : 0 <= z <= INT_MAX -> wrap_uint z = z.
Proof.
  unfold wrap_uint, INT_MAX. intros H. apply Z.mod_small. lia.
Qed.

(** X4.  The pixel buffers and the transfer agree on the size of a
    picture.  For a width and a height whose product by four bytes fits an
    [int], a successful [Open] records them as the output format and
    allocates BUFFER_COUNT stores, each of width * height * 4 bytes; every
    later cycle on that format reads the rectangle of that width and height
    and maps exactly width * height * 4 bytes. *)
Theorem Swap_maps_what_Open_allocated :
  forall (nd : bool) (env : open_env) (width height : Z)
         (s : vlc_gl_pbuffer) (tr : list event) (w1 : world),
    0 <= width <= INT_MAX ->
    0 <= height <= INT_MAX ->
    width * height * 4 <= INT_MAX ->
    Open nd env width height (mk_world s tr) = Ret VLC_SUCCESS w1 ->
    fmt_out (sys w1) = mk_format VLC_CODEC_RGBA width height width height /\
    (exists new,
        trace w1 = tr ++ new /\
        count_events is_buffer_data new = BUFFER_COUNT /\
        forallb (allocates_only (width * height * 4)) new = true) /\
    (forall (senv : swap_env) (s2 : vlc_gl_pbuffer) (tr2 : list event)
            (c : pbo_picture_context),
        fmt_out s2 = fmt_out (sys w1) ->
        lock s2 = false ->
        picture_contexts s2 !! current_flip s2 = Some c ->
        exists before after,
          trace (world_of (Swap nd senv (mk_world s2 tr2))) =
            tr2 ++ before ++
            [GlReadPixels 0 0 width height;
             GlMapBufferRange GL_PIXEL_PACK_BUFFER 0 (width * height * 4)] ++
            after).
Proof.
  intros nd env width height s tr w1 Hw Hh Hsize Hopen.
  apply Open_success_full in Hopen. subst w1. cbn [sys trace].
  assert (Hwh : 0 <= width * height <= INT_MAX).
  { split; [nia|]. unfold INT_MAX in *. nia. }
  split; [reflexivity|]. split.
  - eexists. split; [reflexivity|].
    split; [reflexivity|].
    unfold open_gl_trace, slot_setup. cbn [forallb app allocates_only andb].
    rewrite (wrap_uint_small (width * height)) by exact Hwh.
    rewrite wrap_uint_small by (unfold INT_MAX in *; nia).
    rewrite Z.eqb_refl. reflexivity.
  - intros senv s2 tr2 c Hfmt Hl Hc.
    destruct (Swap_trace nd senv s2 tr2 c Hl Hc) as (tr' & post & Htr & _).
    rewrite Htr. unfold read_trace. rewrite Hfmt. cbn [fmt_out opened_sys
      i_visible_width i_visible_height].
    rewrite (wrap_int_small width) by (unfold INT_MIN, INT_MAX in *; lia).
    rewrite (wrap_int_small height) by (unfold INT_MIN, INT_MAX in *; lia).
    rewrite (wrap_int_small (width * height))
      by (unfold INT_MIN, INT_MAX in *; lia).
    rewrite wrap_int_small by (unfold INT_MIN, INT_MAX in *; nia).
    eexists ((if current s2 then [] else [EglMakeCurrent true]) ++
             [GlBindBuffer GL_PIXEL_PACK_BUFFER
                (name_at (pixelbuffers s2) (current_flip s2));
              GlBindFramebuffer GL_FRAMEBUFFER
                (name_at (framebuffers s2) (current_flip s2))] ++
             (if buffer_mapping c =? NULL then []
              else [GlUnmapBuffer GL_PIXEL_PACK_BUFFER])).
    eexists (GlGetIntegerv ::
             [RcWrite (current_flip s2) (rc c) (wrap_int (rc c + 1)) false;
              MutexLock] ++ tr' ++ post).
    repeat rewrite <- app_assoc. reflexivity.
Qed.

Lemma Swap_maps_what_Open_allocated_witness :
  0 <= 64 <= INT_MAX /\
  64 * 64 * 4 <= INT_MAX /\
  Open false demo_open_env 64 64 (mk_world demo_block []) =
    Ret VLC_SUCCESS demo_open_result /\
  fmt_out (sys demo_3) = fmt_out (sys demo_open_result) /\
  lock (sys demo_3) = false /\
  picture_contexts (sys demo_3) !! current_flip (sys demo_3) =
    Some (mk_context 5 0 0) /\
  exists before after,
    trace (world_of (Swap false (demo_swap 103) (mk_world (sys demo_3) []))) =
      [] ++ before ++
      [GlReadPixels 0 0 64 64;
       GlMapBufferRange GL_PIXEL_PACK_BUFFER 0 (64 * 64 * 4)] ++ after.
Proof.
  assert (Hb : 0 <= 64 <= INT_MAX) by (unfold INT_MAX; lia).
  assert (Hs : 64 * 64 * 4 <= INT_MAX) by (unfold INT_MAX; lia).
  assert (Hopen : Open false demo_open_env 64 64 (mk_world demo_block []) =
                  Ret VLC_SUCCESS demo_open_result)
    by (vm_compute; reflexivity).
  destruct (Swap_maps_what_Open_allocated false demo_open_env 64 64 demo_block
              [] demo_open_result Hb Hb Hs Hopen)
    as (_ & _ & Hswap).
  split; [exact Hb|]. split; [exact Hs|]. split; [exact Hopen|].
  do 3 (split; [reflexivity|]).
  exact (Hswap (demo_swap 103) (sys demo_3) [] (mk_context 5 0 0)
               eq_refl eq_refl eq_refl).
Defined.

(** ** Closing *)

Lemma Close_run nd egl_ok s tr :
  Close nd egl_ok (mk_world s tr) =
  if negb nd && current s then Abort (mk_world s tr)
  else if nd || egl_ok || current s
  then Ret tt (mk_world (set_current false s)
                 (tr ++ [EglMakeCurrent true] ++ close_deletes s ++
                  [EglMakeCurrent false; EglTerminate]))
  else Abort (mk_world s (tr ++ [EglMakeCurrent true] ++ close_deletes s)).
Proof.
  unfold Close, close_deletes, MakeCurrent, ReleaseCurrent, assert.
  unfold bind, get_sys, emit, modify_sys, ret, abort. cbn [sys trace].
  destruct nd, egl_ok, (current s) eqn:Hc;
    cbn [negb andb orb sys trace current set_current pixelbuffers
         framebuffers textures];
    rewrite ?Hc; cbn [negb andb orb];
    repeat rewrite <- app_assoc; try reflexivity;
    destruct s; simpl in *; subst; reflexivity.
Qed.

(** X5.  [Close] deletes, BUFFER_COUNT names each and in this order, the
    pixel buffers, the framebuffers and the textures that [Open] generated,
    after the eglMakeCurrent that binds the context and before the one that
    releases it, and calls eglTerminate last; it leaves the structure as it
    was, the counts and mappings of the pictures still outstanding
    included.  On a context that is already current it stops, where
    assertions are compiled in, on the assertion of [MakeCurrent] before any
    call.  It does not look at what vlc_gl_MakeCurrent returns: if
    eglMakeCurrent fails it makes the three deletions all the same, then
    stops on the assertion of [ReleaseCurrent], before eglTerminate, where
    assertions are compiled in, and goes on as if nothing had happened where
    they are not. *)
Theorem Close_deletes_what_Open_generated :
  forall (nd : bool) (env : open_env) (width height : Z)
         (s : vlc_gl_pbuffer) (tr : list event) (w1 : world) (egl_ok : bool),
    Open nd env width height (mk_world s tr) = Ret VLC_SUCCESS w1 ->
    Close nd egl_ok w1 =
      (if nd || egl_ok
       then Ret tt
                (mk_world (sys w1)
                          (trace w1 ++
                           [EglMakeCurrent true;
                            GlDeleteBuffers BUFFER_COUNT (gen_buffers env);
                            GlDeleteFramebuffers BUFFER_COUNT (gen_framebuffers env);
                            GlDeleteTextures BUFFER_COUNT (gen_textures env);
                            EglMakeCurrent false;
                            EglTerminate]))
       else Abort (mk_world (sys w1)
                            (trace w1 ++
                             [EglMakeCurrent true;
                              GlDeleteBuffers BUFFER_COUNT (gen_buffers env);
                              GlDeleteFramebuffers BUFFER_COUNT
                                (gen_framebuffers env);
                              GlDeleteTextures BUFFER_COUNT (gen_textures env)]))) /\
    (forall s2 tr2,
        current s2 = true ->
        Close false egl_ok (mk_world s2 tr2) = Abort (mk_world s2 tr2)) /\
    (forall s2 tr2 w2,
        Close nd egl_ok (mk_world s2 tr2) = Ret tt w2 ->
        sys w2 = set_current false s2 /\
        picture_contexts (sys w2) = picture_contexts s2 /\
        trace w2 = tr2 ++ [EglMakeCurrent true;
                           GlDeleteBuffers BUFFER_COUNT (pixelbuffers s2);
                           GlDeleteFramebuffers BUFFER_COUNT (framebuffers s2);
                           GlDeleteTextures BUFFER_COUNT (textures s2);
                           EglMakeCurrent false;
                           EglTerminate]) /\
    (forall s2 tr2 w2,
        Close nd egl_ok (mk_world s2 tr2) = Abort w2 ->
        nd = false /\ sys w2 = s2 /\
        (trace w2 = tr2 /\ current s2 = true \/
         trace w2 = tr2 ++ [EglMakeCurrent true;
                            GlDeleteBuffers BUFFER_COUNT (pixelbuffers s2);
                            GlDeleteFramebuffers BUFFER_COUNT (framebuffers s2);
                            GlDeleteTextures BUFFER_COUNT (textures s2)] /\
         current s2 = false /\ egl_ok = false)).
Proof.
  intros nd env width height s tr w1 egl_ok Hopen.
  apply Open_success_full in Hopen. subst w1. cbn [sys trace].
  split; [|split; [|split]].
  - rewrite Close_run. unfold close_deletes.
    cbn [current opened_sys pixelbuffers framebuffers textures set_current
         andb negb].
    rewrite andb_false_r, orb_false_r.
    destruct (nd || egl_ok); reflexivity.
  - intros s2 tr2 Hc. rewrite Close_run, Hc. reflexivity.
  - intros s2 tr2 w2. rewrite Close_run.
    destruct (negb nd && current s2); [discriminate|].
    destruct (nd || egl_ok || current s2); [|discriminate].
    intros H; injection H as <-. cbn [sys trace]. repeat split.
  - intros s2 tr2 w2. rewrite Close_run.
    destruct nd; cbn [negb andb orb]; [discriminate|].
    destruct (current s2) eqn:Hc.
    + intros H; injection H as <-. cbn [sys trace]. auto.
    + rewrite orb_false_r. destruct egl_ok; [discriminate|].
      intros H; injection H as <-. cbn [sys trace].
      split; [reflexivity|]. split; [reflexivity|]. right.
      repeat split.
Qed.

Lemma Close_deletes_what_Open_generated_witness :
  Open false demo_open_env 64 64 (mk_world demo_block []) =
    Ret VLC_SUCCESS demo_open_result /\
  Close false true demo_open_result =
    Ret tt
        (mk_world (sys demo_open_result)
                  (trace demo_open_result ++
                   [EglMakeCurrent true;
                    GlDeleteBuffers 4 [11; 12; 13; 14];
                    GlDeleteFramebuffers 4 [21; 22; 23; 24];
                    GlDeleteTextures 4 [31; 32; 33; 34];
                    EglMakeCurrent false;
                    EglTerminate])).
Proof.
  assert (Hopen : Open false demo_open_env 64 64 (mk_world demo_block []) =
                  Ret VLC_SUCCESS demo_open_result)
    by (vm_compute; reflexivity).
  destruct (Close_deletes_what_Open_generated false demo_open_env 64 64
              demo_block [] demo_open_result true Hopen)
    as (Hclose & _).
  split; [exact Hopen|exact Hclose].
Defined.

(** ** Pairs of calls *)

Lemma count_events_app p l1 l2 :
  count_events p (l1 ++ l2) = (count_events p l1 + count_events p l2)%nat.
Proof. unfold count_events. rewrite filter_app. apply length_app. Qed.

Lemma paired_calls_from nd n :
  forall i s tr,
    current s = false ->
    for_loop n i (fun _ => MakeCurrent nd true ;; ReleaseCurrent nd)
             (mk_world s tr) =
    Ret tt (mk_world s (tr ++ concat (repeat [EglMakeCurrent true;
                                              EglMakeCurrent false] n))).
Proof.
  induction n as [|n IH]; intros i s tr Hc.
  - simpl. unfold ret. rewrite app_nil_r. reflexivity.
  - cbn [for_loop]. unfold bind at 1. unfold bind at 1.
    rewrite MakeCurrent_eq by exact Hc. cbv beta iota.
    rewrite ReleaseCurrent_eq. cbn [current set_current orb].
    rewrite orb_true_r. cbv beta iota.
    replace (set_current false (set_current true s)) with s
      by (destruct s; simpl in *; subst; reflexivity).
    rewrite IH by exact Hc. cbn [repeat concat].
    repeat rewrite <- app_assoc. reflexivity.
Qed.

(** X6.  Making the context current and releasing it can be repeated any
    number of times: from a context that is not current no assertion fails,
    in either build, the structure ends as it began, and EGL has seen as
    many bindings as releases, alternating.  One more [MakeCurrent] without
    its [ReleaseCurrent] leaves the context current, and the next one then
    fails its assertion. *)
Theorem current_pairs_compose :
  forall (nd : bool) (n : nat) (s : vlc_gl_pbuffer) (tr : list event),
    let idle := set_current false s in
    let calls := concat (repeat [EglMakeCurrent true; EglMakeCurrent false] n) in
    current_cycles nd n (mk_world idle tr) =
      Ret tt (mk_world idle (tr ++ calls)) /\
    count_events is_bind_context calls = n /\
    count_events is_release_context calls = n /\
    (current_cycles false n ;; MakeCurrent false true ;; MakeCurrent false true)%cmd
      (mk_world idle tr) =
      Abort (mk_world (set_current true s)
                      (tr ++ calls ++ [EglMakeCurrent true])).
Proof.
  intros nd n s tr idle calls. subst idle calls.
  split; [apply paired_calls_from; reflexivity|].
  split; [|split].
  - induction n as [|n IH]; [reflexivity|].
    cbn [repeat concat]. rewrite count_events_app, IH. reflexivity.
  - induction n as [|n IH]; [reflexivity|].
    cbn [repeat concat]. rewrite count_events_app, IH. reflexivity.
  - unfold bind at 1. unfold current_cycles.
    rewrite paired_calls_from by reflexivity. cbv beta iota.
    unfold bind at 1. rewrite MakeCurrent_eq by reflexivity. cbv beta iota.
    unfold MakeCurrent, assert, bind, get_sys, abort. cbn [sys current set_current].
    rewrite <- app_assoc. reflexivity.
Qed.

(** ** Counting *)

Lemma wrap_int_in_range z : INT_MIN <= wrap_int z <= INT_MAX.
Proof.
  unfold wrap_int, INT_MIN, INT_MAX.
  pose proof (Z.mod_pos_bound (z + 2 ^ 31) (2 ^ 32)). lia.
Qed.

Lemma wrap_int_add_l a b : wrap_int (wrap_int a + b) = wrap_int (a + b).
Proof.
  unfold wrap_int.
  replace ((a + 2 ^ 31) mod 2 ^ 32 - 2 ^ 31 + b + 2 ^ 31)
    with ((a + 2 ^ 31) mod 2 ^ 32 + b) by lia.
  rewrite Zplus_mod_idemp_l. f_equal. f_equal. lia.
Qed.

Lemma set_rc_same c : set_rc (rc c) c = c.
Proof. destruct c; reflexivity. Qed.

Lemma pool_after_count i ops :
  forall ctxs c,
    ctxs !! i = Some c ->
    INT_MIN <= rc c <= INT_MAX ->
    pool_after ops ctxs !! i =
    Some (set_rc (wrap_int (rc c + net_delta i ops)) c).
Proof.
  induction ops as [|op ops IH]; intros ctxs c Hc Hr.
  - simpl. rewrite Z.add_0_r, wrap_int_small by exact Hr.
    rewrite set_rc_same. exact Hc.
  - unfold pool_after. cbn [fold_left net_delta fold_right].
    fold (pool_after ops (pool_step ctxs op)). fold (net_delta i ops).
    destruct (Nat.eqb (op_slot op) i) eqn:Hslot.
    + apply Nat.eqb_eq in Hslot.
      assert (Hstep : pool_step ctxs op !! i =
                      Some (set_rc (wrap_int (rc c + op_delta op)) c)).
      { unfold pool_step. rewrite Hslot, Hc.
        apply list_lookup_insert_eq. eapply lookup_lt_Some; eauto. }
      rewrite (IH _ _ Hstep) by (simpl; apply wrap_int_in_range).
      simpl. rewrite wrap_int_add_l. f_equal. unfold set_rc. simpl.
      f_equal. f_equal. lia.
    + apply Nat.eqb_neq in Hslot.
      assert (Hstep : pool_step ctxs op !! i = Some c).
      { rewrite pool_step_other by congruence. exact Hc. }
      rewrite (IH _ _ Hstep Hr). reflexivity.
Qed.

(** X7.  Counts add up.  Whatever consumers duplicate and dispose, in any
    order and on whatever slots, their calls all return, the mutex is free
    afterwards, only counts have changed, and the count of a slot is its
    count before plus the number of duplicates minus the number of disposes
    made on that slot, as an [int]; so a slot on which as many disposes as
    duplicates were made has its count back, whatever happened on the
    others. *)
Theorem counts_add_up :
  forall (ops : list consumer_op) (s : vlc_gl_pbuffer) (tr : list event)
         (i : nat) (c : pbo_picture_context),
    lock s = false ->
    picture_contexts s !! i = Some c ->
    INT_MIN <= rc c <= INT_MAX ->
    exists w',
      consumer_run ops (mk_world s tr) = Ret tt w' /\
      lock (sys w') = false /\
      picture_contexts (sys w') !! i =
        Some (set_rc (wrap_int (rc c + net_delta i ops)) c) /\
      (net_delta i ops = 0 -> picture_contexts (sys w') !! i = Some c) /\
      length (picture_contexts (sys w')) = length (picture_contexts s) /\
      set_picture_contexts (picture_contexts s) (sys w') = s.
Proof.
  intros ops s tr i c Hl Hc Hr.
  rewrite consumer_run_eq by exact Hl. eexists. split; [reflexivity|].
  cbn [sys with_pool set_lock set_picture_contexts lock picture_contexts].
  split; [reflexivity|].
  rewrite (pool_after_count i ops _ c Hc Hr).
  split; [reflexivity|]. split.
  - intros ->. rewrite Z.add_0_r, wrap_int_small by exact Hr.
    rewrite set_rc_same. reflexivity.
  - split; [apply pool_after_length|].
    destruct s; simpl in *; subst; reflexivity.
Qed.

Lemma counts_add_up_witness :
  lock (sys demo_3) = false /\
  picture_contexts (sys demo_3) !! 0%nat = Some (mk_context 0 101 1) /\
  INT_MIN <= 1 <= INT_MAX /\
  exists w',
    consumer_run [Copy 0%nat; Destroy 3%nat; Copy 0%nat; Destroy 0%nat]
                 (mk_world (sys demo_3) []) = Ret tt w' /\
    picture_contexts (sys w') !! 0%nat = Some (mk_context 0 101 2).
Proof.
  assert (Hr : INT_MIN <= rc (mk_context 0 101 1) <= INT_MAX)
    by (simpl; unfold INT_MIN, INT_MAX; lia).
  destruct (counts_add_up [Copy 0%nat; Destroy 3%nat; Copy 0%nat; Destroy 0%nat]
              (sys demo_3) [] 0%nat (mk_context 0 101 1) eq_refl eq_refl Hr)
    as (w' & Hrun & _ & Hcount & _).
  split; [reflexivity|]. split; [reflexivity|]. split; [exact Hr|].
  exists w'. split; [exact Hrun|exact Hcount].
Defined.

(** ** Waking the producer *)

Lemma dispose_pool_lookup (ctxs : list pbo_picture_context) j c k ck :
  ctxs !! j = Some c ->
  pool_step ctxs (Destroy j) !! k = Some ck ->
  (k = j /\ ck = set_rc (wrap_int (rc c + -1)) c) \/
  (k <> j /\ ctxs !! k = Some ck).
Proof.
  intros Hc. unfold pool_step. cbn [op_slot op_delta]. rewrite Hc.
  destruct (decide (k = j)) as [->|Hne].
  - rewrite list_lookup_insert_eq by (eapply lookup_lt_Some; eauto).
    intros [= <-]. left. auto.
  - rewrite list_lookup_insert_ne by congruence. right. auto.
Qed.

(** X8.  In a pool where every slot is busy, the dispose of the last
    reference to a slot stores a count of 0 and signals, and the scan then
    takes that slot: a producer asleep in [UpdateBuffer] wakes up, makes the
    slot current and returns with the mutex released.  The dispose of one
    of several references signals as well, but the count stays positive,
    and the producer that it wakes finds no free slot and sleeps again. *)
Theorem dispose_wakes_the_producer :
  forall (nd : bool) (s : vlc_gl_pbuffer) (tr : list event) (j : nat)
         (c : pbo_picture_context) (later : list (list consumer_op)),
    lock s = false ->
    length (picture_contexts s) = BUFFER_COUNT ->
    all_busy (picture_contexts s) ->
    picture_contexts s !! j = Some c ->
    rc c <= INT_MAX ->
    (exists w',
        picture_context_destroy j (mk_world s tr) = Ret tt w' /\
        slot_rc w' j = Some (rc c - 1) /\
        trace w' = tr ++ [MutexLock; RcWrite j (rc c) (rc c - 1) true;
                          CondSignal; MutexUnlock] /\
        (rc c = 1 ->
         scan nd BUFFER_COUNT 0 (picture_contexts (sys w')) = Free j)) /\
    (rc c = 1 ->
     exists w',
       UpdateBuffer nd ([Destroy j] :: later) (mk_world s tr) = Ret tt w' /\
       current_flip (sys w') = j /\
       slot_rc w' j = Some 0 /\
       lock (sys w') = false) /\
    (1 < rc c ->
     exists w',
       UpdateBuffer nd [[Destroy j]] (mk_world s tr) = Blocked w' /\
       slot_rc w' j = Some (rc c - 1) /\
       lock (sys w') = false).
Proof.
  intros nd s tr j c later Hl Hlen Hbusy Hc Hmax.
  assert (Hlt : (j < length (picture_contexts s))%nat)
    by (eapply lookup_lt_Some; eauto).
  assert (Hpos : 0 < rc c) by (apply (Hbusy j c Hc)).
  assert (Hwrap : wrap_int (rc c + -1) = rc c - 1).
  { apply wrap_int_small. unfold INT_MIN, INT_MAX in *. lia. }
  assert (Hscan0 : scan nd BUFFER_COUNT 0 (picture_contexts s) =
                   Exhausted BUFFER_COUNT)
    by (apply (scan_all_busy nd _ BUFFER_COUNT 0 Hbusy); exact Hlen).
  assert (Hj : pool_step (picture_contexts s) (Destroy j) !! j =
               Some (set_rc (rc c - 1) c)).
  { unfold pool_step. cbn [op_slot op_delta]. rewrite Hc, Hwrap.
    apply list_lookup_insert_eq. exact Hlt. }
  assert (Hfree : rc c = 1 ->
                  scan nd BUFFER_COUNT 0
                       (pool_step (picture_contexts s) (Destroy j)) = Free j).
  { intros H1.
    apply (scan_finds_from nd _ BUFFER_COUNT 0 j (set_rc (rc c - 1) c)).
    - intros k ck Hk.
      destruct (dispose_pool_lookup _ _ _ _ _ Hc Hk) as [[_ ->]|[_ Hk']].
      + simpl. rewrite Hwrap. lia.
      + specialize (Hbusy k ck Hk'). lia.
    - rewrite Hlen in Hlt. lia.
    - exact Hj.
    - simpl. lia.
    - intros k ck Hk Hck.
      destruct (dispose_pool_lookup _ _ _ _ _ Hc Hck) as [[-> _]|[_ Hk']];
        [lia|].
      specialize (Hbusy k ck Hk'). lia. }
  assert (Hstill : 1 < rc c ->
                   scan nd BUFFER_COUNT 0
                        (pool_step (picture_contexts s) (Destroy j)) =
                   Exhausted BUFFER_COUNT).
  { intros H1. apply (scan_all_busy nd _ BUFFER_COUNT 0).
    - intros k ck Hk.
      destruct (dispose_pool_lookup _ _ _ _ _ Hc Hk) as [[_ ->]|[_ Hk']].
      + simpl. rewrite Hwrap. lia.
      + exact (Hbusy k ck Hk').
    - rewrite pool_step_length. exact Hlen. }
  split; [|split].
  - rewrite (picture_context_destroy_eq j s tr c Hl Hc). rewrite Hwrap.
    eexists. split; [reflexivity|].
    unfold slot_rc. cbn [sys trace with_pool set_lock set_picture_contexts
                         picture_contexts].
    rewrite list_lookup_insert_eq by exact Hlt.
    split; [reflexivity|]. split; [reflexivity|].
    intros H1. specialize (Hfree H1). unfold pool_step in Hfree.
    cbn [op_slot op_delta] in Hfree. rewrite Hc, Hwrap in Hfree. exact Hfree.
  - intros H1.
    rewrite UpdateBuffer_unfold by exact Hl.
    rewrite wait_free_wake by exact Hscan0.
    rewrite wait_free_found with (i := j) by (apply Hfree; exact H1).
    eexists. split; [reflexivity|].
    unfold slot_rc. cbn [sys with_pool set_lock set_picture_contexts
                         set_current_flip current_flip picture_contexts lock].
    split; [reflexivity|].
    unfold pool_after. cbn [fold_left]. rewrite Hj. cbn. rewrite H1.
    split; reflexivity.
  - intros H1.
    rewrite UpdateBuffer_unfold by exact Hl.
    rewrite wait_free_wake by exact Hscan0.
    rewrite wait_free_sleep with (idx := BUFFER_COUNT) by (apply Hstill; exact H1).
    eexists. split; [reflexivity|].
    unfold slot_rc. cbn [sys with_pool set_lock set_picture_contexts
                         picture_contexts lock].
    unfold pool_after. cbn [fold_left]. rewrite Hj.
    split; reflexivity.
Qed.

Lemma dispose_wakes_the_producer_witness :
  lock (sys demo_4) = false /\
  length (picture_contexts (sys demo_4)) = BUFFER_COUNT /\
  all_busy (picture_contexts (sys demo_4)) /\
  picture_contexts (sys demo_4) !! 0%nat = Some (mk_context 0 101 1) /\
  1 <= INT_MAX /\
  exists w',
    UpdateBuffer false [[Destroy 0%nat]] (mk_world (sys demo_4) []) = Ret tt w' /\
    current_flip (sys w') = 0%nat /\
    slot_rc w' 0 = Some 0 /\
    lock (sys w') = false.
Proof.
  assert (B4 : all_busy (picture_contexts (sys demo_4)))
    by (unfold all_busy; show_pool; by_slot).
  assert (Hm : rc (mk_context 0 101 1) <= INT_MAX)
    by (simpl; unfold INT_MAX; lia).
  destruct (dispose_wakes_the_producer false (sys demo_4) [] 0%nat
              (mk_context 0 101 1) [] eq_refl eq_refl B4 eq_refl Hm)
    as (_ & Hwake & _).
  split; [reflexivity|]. split; [reflexivity|]. split; [exact B4|].
  split; [reflexivity|]. split; [exact Hm|].
  exact (Hwake eq_refl).
Defined.

(** ** A sleeping producer *)

(** All the ways in which the loop can end asleep. *)
Lemma wait_free_Blocked nd wake :
  forall s tr w',
    length (picture_contexts s) = BUFFER_COUNT ->
    lock s = true ->
    wait_free nd wake (mk_world s tr) = Blocked w' ->
    sys w' = with_pool (pool_after (concat wake) (picture_contexts s)) false s /\
    scan nd BUFFER_COUNT 0 (pool_after (concat wake) (picture_contexts s)) =
      Exhausted BUFFER_COUNT /\
    exists tr', trace w' = tr ++ tr' ++ [CondWait] /\
                forallb sync_event tr' = true.
Proof.
  induction wake as [|ops later IH]; intros s tr w' Hlen Hl.
  - destruct (scan nd BUFFER_COUNT 0 (picture_contexts s)) as [j|j|j] eqn:Hs.
    + rewrite (wait_free_found _ _ _ _ _ Hs). discriminate.
    + rewrite (wait_free_violated _ _ _ _ _ Hs). discriminate.
    + assert (j = BUFFER_COUNT) as ->.
      { apply scan_Exhausted_index in Hs; [exact Hs|]. rewrite Hlen. simpl. lia. }
      rewrite (wait_free_sleep _ _ _ _ Hs). intros H; injection H as <-.
      cbn [sys trace concat pool_after fold_left].
      split; [destruct s; simpl in *; subst; reflexivity|].
      split; [exact Hs|]. exists [RcScan (lock s)]. split; reflexivity.
  - rewrite wait_free_cons.
    destruct (scan nd BUFFER_COUNT 0 (picture_contexts s)) as [j|j|j] eqn:Hs;
      try discriminate.
    assert (j = BUFFER_COUNT) as ->.
    { apply scan_Exhausted_index in Hs; [exact Hs|]. rewrite Hlen. simpl. lia. }
    cbv zeta. rewrite Nat.eqb_refl. intros H.
    apply IH in H as (Hsys & Hscan & tr' & Htr & Hsync).
    + cbn [picture_contexts with_pool set_lock set_picture_contexts] in Hsys, Hscan.
      cbn [concat]. unfold pool_after in *. rewrite fold_left_app.
      split; [exact Hsys|]. split; [exact Hscan|].
      exists (RcScan (lock s) :: CondWait ::
              ops_trace (picture_contexts s) ops ++ tr').
      split.
      * rewrite Htr. rewrite <- !app_assoc. cbn [app].
        rewrite <- !app_assoc. reflexivity.
      * cbn [forallb sync_event andb].
        rewrite forallb_app, ops_trace_sync, Hsync. reflexivity.
    + cbn [picture_contexts with_pool set_lock set_picture_contexts].
      rewrite pool_after_length. exact Hlen.
    + reflexivity.
Qed.

(** X9.  A producer that [Swap] leaves asleep has released the mutex, so
    that consumers can dispose.  It has used up every wake-up, and in the
    pool as the consumers left it no slot has a count of zero; the slot it
    is producing is already mapped, [current_flip] still names it, and the
    EGL context is not released: the last thing [Swap] did was to wait. *)
Theorem Swap_sleeps_without_the_mutex :
  forall (nd : bool) (env : swap_env) (s : vlc_gl_pbuffer) (tr : list event)
         (c : pbo_picture_context) (w5 : world),
    lock s = false ->
    length (picture_contexts s) = BUFFER_COUNT ->
    picture_contexts s !! current_flip s = Some c ->
    Swap nd env (mk_world s tr) = Blocked w5 ->
    lock (sys w5) = false /\
    sys w5 = with_pool (pool_after (concat (wakeups env)) (mapped_pool env s c))
                       false s /\
    (forall j cj, picture_contexts (sys w5) !! j = Some cj -> rc cj <> 0) /\
    (exists c5, picture_contexts (sys w5) !! current_flip (sys w5) = Some c5 /\
                buffer_mapping c5 = map_result env) /\
    exists new,
      trace w5 = tr ++ new /\
      last new = Some CondWait /\
      count_events is_release_context new = 0%nat.
Proof.
  intros nd env s tr c w5 Hl Hlen Hc Hswap.
  assert (Hlt : (current_flip s < length (picture_contexts s))%nat)
    by (eapply lookup_lt_Some; eauto).
  rewrite (Swap_unfold nd env s tr c Hl Hc) in Hswap.
  destruct (wait_free nd (wakeups env) (scan_world env s c tr))
    as [index w2|w2|w2] eqn:Hw.
  - unfold swap_output in Hswap.
    destruct (picture_alloc env); [discriminate|].
    destruct nd; [|discriminate].
    destruct (picture_contexts (sys w2) !! current_flip s); discriminate.
  - discriminate.
  - injection Hswap as <-. unfold scan_world in Hw.
    apply wait_free_Blocked in Hw as (Hsys & Hscan & tr' & Htr & Hsync).
    + cbn [picture_contexts with_pool set_lock set_picture_contexts] in Hsys, Hscan.
      rewrite Hsys.
      cbn [lock picture_contexts current_flip with_pool set_lock
           set_picture_contexts].
      split; [reflexivity|]. split; [reflexivity|]. split; [|split].
      * intros j cj Hj.
        apply (scan_Exhausted_none_free nd _ BUFFER_COUNT 0 _ Hscan j cj);
          [|exact Hj].
        apply lookup_lt_Some in Hj.
        rewrite pool_after_length, mapped_pool_length, Hlen in Hj. lia.
      * destruct (lookup_lt_is_Some_2
                    (pool_after (concat (wakeups env)) (mapped_pool env s c))
                    (current_flip s)) as [c5 Hc5].
        { rewrite pool_after_length, mapped_pool_length. exact Hlt. }
        exists c5. split; [exact Hc5|].
        destruct (pool_after_mapping _ _ _ _ Hc5) as (c0 & Hc0 & Hb & _).
        unfold mapped_pool in Hc0.
        rewrite list_lookup_insert_eq in Hc0 by exact Hlt.
        injection Hc0 as <-. exact Hb.
      * eexists. split; [rewrite Htr; rewrite <- app_assoc; reflexivity|].
        split.
        -- rewrite !app_assoc. apply last_snoc.
        -- unfold read_trace. rewrite !count_events_app.
           assert (Hq : count_events is_release_context tr' = 0%nat).
           { clear -Hsync. induction tr' as [|e l IH]; [reflexivity|].
             cbn [forallb] in Hsync. apply andb_true_iff in Hsync as [He Hl].
             change (e :: l) with ([e] ++ l). rewrite count_events_app, IH by exact Hl.
             destruct e; try discriminate; reflexivity. }
           rewrite Hq.
           destruct (current s), (buffer_mapping c =? NULL); reflexivity.
    + cbn [picture_contexts with_pool set_lock set_picture_contexts].
      rewrite mapped_pool_length. exact Hlen.
    + reflexivity.
Qed.

Lemma Swap_sleeps_without_the_mutex_witness :
  lock (sys demo_3) = false /\
  length (picture_contexts (sys demo_3)) = BUFFER_COUNT /\
  picture_contexts (sys demo_3) !! current_flip (sys demo_3) =
    Some (mk_context 5 0 0) /\
  Swap false (mk_swap_env 103 true [[Copy 0%nat]; []]) (mk_world (sys demo_3) []) =
    Blocked (world_of (Swap false (mk_swap_env 103 true [[Copy 0%nat]; []])
                            (mk_world (sys demo_3) []))) /\
  lock (sys (world_of (Swap false (mk_swap_env 103 true [[Copy 0%nat]; []])
                            (mk_world (sys demo_3) [])))) = false /\
  map rc (picture_contexts
            (sys (world_of (Swap false (mk_swap_env 103 true [[Copy 0%nat]; []])
                                 (mk_world (sys demo_3) []))))) = [2; 1; 1; 1].
Proof.
  assert (Hswap :
    Swap false (mk_swap_env 103 true [[Copy 0%nat]; []]) (mk_world (sys demo_3) []) =
    Blocked (world_of (Swap false (mk_swap_env 103 true [[Copy 0%nat]; []])
                            (mk_world (sys demo_3) []))))
    by (vm_compute; reflexivity).
  destruct (Swap_sleeps_without_the_mutex false
              (mk_swap_env 103 true [[Copy 0%nat]; []]) (sys demo_3) []
              (mk_context 5 0 0) _ eq_refl eq_refl eq_refl Hswap)
    as (Hlock & _).
  split; [reflexivity|]. split; [reflexivity|]. split; [reflexivity|].
  split; [exact Hswap|]. split; [exact Hlock|].
  vm_compute. reflexivity.
Defined.

(** ** A caller that releases each picture *)

Lemma idle_scan nd env s c :
  pool_idle s ->
  picture_contexts s !! current_flip s = Some c ->
  scan nd BUFFER_COUNT 0 (mapped_pool env s c) =
  Free (if Nat.eqb (current_flip s) 0 then 1 else 0)%nat.
Proof.
  intros (Hl & Hlen & Hcf & Hfree) Hc.
  assert (Hz : rc c = 0) by (apply (Hfree _ _ Hc)).
  set (index := (if Nat.eqb (current_flip s) 0 then 1 else 0)%nat).
  assert (Hne : index <> current_flip s).
  { subst index. destruct (Nat.eqb_spec (current_flip s) 0); lia. }
  assert (Hlt : (index < length (picture_contexts s))%nat).
  { rewrite Hlen. subst index. unfold BUFFER_COUNT.
    destruct (Nat.eqb (current_flip s) 0); lia. }
  destruct (lookup_lt_is_Some_2 _ _ Hlt) as [ci Hci].
  assert (Hmapped : forall j cj, mapped_pool env s c !! j = Some cj ->
            (j = current_flip s /\ rc cj = 1) \/
            (j <> current_flip s /\ rc cj = 0)).
  { intros j cj Hj. unfold mapped_pool in Hj.
    destruct (decide (j = current_flip s)) as [->|Hn].
    - rewrite list_lookup_insert_eq in Hj by (rewrite Hlen; exact Hcf).
      injection Hj as <-. left. split; [reflexivity|]. simpl. rewrite Hz.
      reflexivity.
    - rewrite list_lookup_insert_ne in Hj by congruence.
      right. split; [exact Hn|]. apply (Hfree _ _ Hj). }
  apply (scan_finds_from nd _ BUFFER_COUNT 0 index ci).
  - intros j cj Hj. destruct (Hmapped j cj Hj) as [[_ H]|[_ H]]; lia.
  - rewrite Hlen in Hlt. lia.
  - unfold mapped_pool. rewrite list_lookup_insert_ne by congruence. exact Hci.
  - apply (Hfree _ _ Hci).
  - intros j cj Hj Hcj.
    assert (j = current_flip s).
    { subst index. destruct (Nat.eqb_spec (current_flip s) 0); lia. }
    subst j. destruct (Hmapped _ _ Hcj) as [[_ H]|[H _]]; [lia|congruence].
Qed.

Lemma count_cond_wait_read_trace s c :
  count_events is_cond_wait (read_trace s c) = 0%nat.
Proof.
  unfold read_trace.
  destruct (current s), (buffer_mapping c =? NULL); reflexivity.
Qed.

(** One turn of [produce_release]. *)
Lemma cycle_keeps_idle nd env s tr :
  pool_idle s ->
  nd || picture_alloc env = true ->
  exists s' new,
    (output <- Swap nd env ;;
     match output with
     | Some pic =>
         match pic_context pic with
         | Some input => picture_context_destroy input
         | None => ret tt
         end
     | None => ret tt
     end) (mk_world s tr) = Ret tt (mk_world s' (tr ++ new)) /\
    pool_idle s' /\
    count_events is_cond_wait new = 0%nat.
Proof.
  intros Hidle Hok.
  pose proof Hidle as (Hl & Hlen & Hcf & Hfree).
  assert (Hlt : (current_flip s < length (picture_contexts s))%nat)
    by (rewrite Hlen; exact Hcf).
  destruct (lookup_lt_is_Some_2 _ _ Hlt) as [c Hc].
  assert (Hz : rc c = 0) by (apply (Hfree _ _ Hc)).
  pose proof (idle_scan nd env s c Hidle Hc) as Hscan.
  set (index := (if Nat.eqb (current_flip s) 0 then 1 else 0)%nat) in *.
  assert (Hindex : (index < BUFFER_COUNT)%nat).
  { subst index. unfold BUFFER_COUNT.
    destruct (Nat.eqb (current_flip s) 0); lia. }
  assert (Hoff : forall j, j <> current_flip s ->
                   mapped_pool env s c !! j = picture_contexts s !! j).
  { intros j Hj. unfold mapped_pool. apply list_lookup_insert_ne. congruence. }
  unfold bind at 1. rewrite (Swap_returns _ _ _ _ _ _ Hl Hc Hscan).
  unfold swap_output, advanced, scanned, scan_world.
  cbn [sys trace with_pool set_lock set_picture_contexts set_current_flip
       picture_contexts current lock].
  destruct (picture_alloc env) eqn:Halloc.
  - cbv beta iota. cbn [pic_context].
    assert (Hlk : alter (set_vctx NULL) (current_flip s) (mapped_pool env s c)
                    !! current_flip s =
                  Some (set_vctx NULL
                          (mk_context (vctx c) (map_result env)
                                      (wrap_int (rc c + 1))))).
    { rewrite list_lookup_alter_eq. unfold mapped_pool.
      rewrite list_lookup_insert_eq by exact Hlt. reflexivity. }
    erewrite picture_context_destroy_eq; [|reflexivity|exact Hlk].
    cbn [with_pool set_lock set_picture_contexts picture_contexts rc set_vctx
         buffer_mapping vctx].
    rewrite Hz. change (wrap_int (0 + 1)) with 1.
    change (wrap_int (1 + -1)) with 0.
    eexists. eexists. split.
    { repeat rewrite <- app_assoc. reflexivity. }
    split.
    + split; [reflexivity|]. unfold with_pool. norm_state.
      split; [rewrite length_insert, length_alter, mapped_pool_length; exact Hlen|].
      split; [exact Hindex|].
      intros j cj Hj.
      destruct (decide (j = current_flip s)) as [->|Hn].
      * rewrite list_lookup_insert_eq in Hj
          by (rewrite length_alter, mapped_pool_length; exact Hlt).
        injection Hj as <-. reflexivity.
      * rewrite list_lookup_insert_ne in Hj by congruence.
        rewrite list_lookup_alter_ne in Hj by congruence.
        rewrite Hoff in Hj by exact Hn. apply (Hfree _ _ Hj).
    + rewrite !count_events_app, count_cond_wait_read_trace.
      destruct (current s); reflexivity.
  - destruct nd; [|discriminate].
    unfold mapped_pool at 1. rewrite list_lookup_insert_eq by exact Hlt.
    cbv beta iota. unfold ret.
    cbn [rc set_rc vctx buffer_mapping].
    rewrite Hz. change (wrap_int (0 + 1)) with 1.
    change (wrap_int (1 + -1)) with 0.
    eexists. eexists. split.
    { repeat rewrite <- app_assoc. reflexivity. }
    split.
    + split; [reflexivity|]. unfold with_pool. norm_state.
      split; [rewrite length_insert, mapped_pool_length; exact Hlen|].
      split; [exact Hindex|].
      intros j cj Hj.
      destruct (decide (j = current_flip s)) as [->|Hn].
      * rewrite list_lookup_insert_eq in Hj
          by (rewrite mapped_pool_length; exact Hlt).
        injection Hj as <-. reflexivity.
      * rewrite list_lookup_insert_ne in Hj by congruence.
        rewrite Hoff in Hj by exact Hn. apply (Hfree _ _ Hj).
    + rewrite !count_events_app, count_cond_wait_read_trace.
      destruct (current s); reflexivity.
Qed.

(** X10.  A caller that disposes of each picture before it asks for the
    next one never waits.  From a pool of BUFFER_COUNT slots whose counts
    are all zero, with the mutex free, any number of cycles of [Swap], each
    followed by [picture_context_destroy] on the context of the picture it
    returned, runs to the end: no cycle sleeps on the condition variable
    (vlc_cond_wait is never called), none stops on an assertion, and the
    pool is again all zero with the mutex free afterwards.  A cycle whose
    picture allocation fails is allowed when assertions are compiled out:
    it has undone its own count. *)
Theorem releasing_caller_never_waits nd envs :
  forall s tr,
    pool_idle s ->
    Forall (fun env => nd || picture_alloc env = true) envs ->
    exists s' new,
      produce_release nd envs (mk_world s tr) =
        Ret tt (mk_world s' (tr ++ new)) /\
      pool_idle s' /\
      count_events is_cond_wait new = 0%nat.
Proof.
  induction envs as [|env rest IH]; intros s tr Hidle Hall.
  - exists s, []. rewrite app_nil_r. repeat split; try apply Hidle.
  - inversion Hall as [|? ? Hok Hrest]; subst.
    destruct (cycle_keeps_idle nd env s tr Hidle Hok)
      as (s1 & new1 & Hrun & Hidle1 & Hcount1).
    destruct (IH s1 (tr ++ new1) Hidle1 Hrest)
      as (s2 & new2 & Hrun2 & Hidle2 & Hcount2).
    exists s2, (new1 ++ new2).
    split; [|split; [exact Hidle2|]].
    + cbn [produce_release]. unfold bind at 1. unfold bind at 1 in Hrun.
      destruct (Swap nd env (mk_world s tr)) as [output w1| |];
        [|discriminate Hrun..].
      unfold bind at 1. rewrite Hrun.
      rewrite Hrun2. rewrite <- app_assoc. reflexivity.
    + rewrite count_events_app, Hcount1, Hcount2. reflexivity.
Qed.

Lemma releasing_caller_never_waits_witness :
  exists s' new,
    produce_release false [demo_swap 11; demo_swap 12; demo_swap 13; demo_swap 14; demo_swap 15]
      (mk_world (sys demo_opened) (trace demo_opened)) =
      Ret tt (mk_world s' (trace demo_opened ++ new)) /\
    pool_idle s' /\
    count_events is_cond_wait new = 0%nat.
Proof.
  apply (releasing_caller_never_waits false
           [demo_swap 11; demo_swap 12; demo_swap 13; demo_swap 14; demo_swap 15]).
  - split; [reflexivity|]. split; [reflexivity|].
    split; [vm_compute; lia|]. unfold all_free. show_pool. by_slot.
  - repeat constructor.
Defined.

(** ** Where a cycle can stop *)

Lemma scan_Violated_inv nd ctxs n k j :
  scan nd n k ctxs = Violated j ->
  nd = false /\ exists c, ctxs !! j = Some c /\ rc c < 0.
Proof.
  revert k. induction n as [|n IH]; intros k H; [discriminate|].
  unfold scan in H. fold scan in H.
  destruct (ctxs !! k) as [ck|] eqn:Hck; [|discriminate].
  destruct nd; cbn [negb andb] in H.
  - destruct (rc ck =? 0); [discriminate|]. apply IH in H as [H _]. discriminate.
  - destruct (Z.leb_spec 0 (rc ck)) as [Hge|Hneg]; cbn [negb] in H.
    + destruct (rc ck =? 0); [discriminate|]. exact (IH _ H).
    + injection H as <-. split; [reflexivity|]. exists ck. split; [exact Hck|lia].
Qed.

(** All the ways in which the loop can end on the assertion. *)
Lemma wait_free_Abort nd wake :
  forall s tr w',
    lock s = true ->
    wait_free nd wake (mk_world s tr) = Abort w' ->
    exists n j,
      (n <= length wake)%nat /\
      scan nd BUFFER_COUNT 0
           (pool_after (concat (take n wake)) (picture_contexts s)) = Violated j /\
      lock (sys w') = true.
Proof.
  induction wake as [|ops later IH]; intros s tr w' Hl.
  - destruct (scan nd BUFFER_COUNT 0 (picture_contexts s)) as [j|j|j] eqn:Hs.
    + rewrite (wait_free_found _ _ _ _ _ Hs). discriminate.
    + rewrite (wait_free_violated _ _ _ _ _ Hs). intros H; injection H as <-.
      exists 0%nat, j. split; [reflexivity|]. split; [exact Hs|exact Hl].
    + rewrite (wait_free_sleep _ _ _ _ Hs). discriminate.
  - rewrite wait_free_cons.
    destruct (scan nd BUFFER_COUNT 0 (picture_contexts s)) as [j|j|j] eqn:Hs.
    + discriminate.
    + intros H; injection H as <-.
      exists 0%nat, j. split; [lia|]. split; [exact Hs|exact Hl].
    + cbv zeta. destruct (Nat.eqb j BUFFER_COUNT); [|discriminate].
      intros H. apply IH in H as (n & k & Hn & Hscan & Hlock); [|reflexivity].
      cbn [picture_contexts with_pool set_lock set_picture_contexts] in Hscan.
      exists (S n), k. split; [simpl; lia|]. split; [|exact Hlock].
      cbn [take concat]. unfold pool_after in *. rewrite fold_left_app.
      exact Hscan.
Qed.

(** X11.  A cycle stops only where the source has an assertion.  A build
    with NDEBUG never stops in [Swap]; a build with assertions stops in two
    places only.  One is the scan of [UpdateBuffer], with the mutex held,
    when the pool as the consumers left it at some wake-up holds a negative
    count (a context disposed of more often than it was duplicated).  The
    other is assert(output), after the mutex was released, when
    picture_NewFromResource returned NULL: the error return that follows it
    in the source is then never reached. *)
Theorem Swap_stops_only_on_an_assertion :
  forall (nd : bool) (env : swap_env) (s : vlc_gl_pbuffer) (tr : list event)
         (c : pbo_picture_context) (w' : world),
    lock s = false ->
    picture_contexts s !! current_flip s = Some c ->
    Swap nd env (mk_world s tr) = Abort w' ->
    nd = false /\
    ((lock (sys w') = true /\
      exists n j cj,
        (n <= length (wakeups env))%nat /\
        pool_after (concat (take n (wakeups env))) (mapped_pool env s c) !! j
          = Some cj /\
        rc cj < 0) \/
     (lock (sys w') = false /\ picture_alloc env = false)).
Proof.
  intros nd env s tr c w' Hl Hc Hswap.
  rewrite (Swap_unfold nd env s tr c Hl Hc) in Hswap.
  destruct (wait_free nd (wakeups env) (scan_world env s c tr))
    as [index w2|w2|w2] eqn:Hw.
  - unfold swap_output in Hswap.
    destruct (picture_alloc env); [discriminate|].
    destruct nd.
    + destruct (picture_contexts (sys w2) !! current_flip s); discriminate.
    + injection Hswap as <-. split; [reflexivity|]. right.
      split; reflexivity.
  - injection Hswap as <-. unfold scan_world in Hw.
    apply wait_free_Abort in Hw as (n & j & Hn & Hscan & Hlock); [|reflexivity].
    cbn [picture_contexts with_pool set_lock set_picture_contexts] in Hscan.
    apply scan_Violated_inv in Hscan as (Hnd & cj & Hj & Hneg).
    split; [exact Hnd|]. left. split; [exact Hlock|].
    exists n, j, cj. split; [exact Hn|]. split; [exact Hj|exact Hneg].
  - discriminate.
Qed.

Lemma Swap_stops_only_on_an_assertion_witness :
  false = false /\
  ((lock (sys demo_aborted) = true /\
    exists n j cj,
      (n <= length (wakeups demo_no_picture))%nat /\
      pool_after (concat (take n (wakeups demo_no_picture)))
        (mapped_pool demo_no_picture (sys demo_opened)
           (mk_context 5 NULL 0)) !! j = Some cj /\
      rc cj < 0) \/
   (lock (sys demo_aborted) = false /\ picture_alloc demo_no_picture = false)).
Proof.
  apply (Swap_stops_only_on_an_assertion false demo_no_picture
           (sys demo_opened) (trace demo_opened)).
  - reflexivity.
  - reflexivity.
  - vm_compute. reflexivity.
Defined.

(** ** The EGL context during a cycle *)

Lemma count_events_sync p tr :
  (forall e, sync_event e = true -> p e = false) ->
  forallb sync_event tr = true ->
  count_events p tr = 0%nat.
Proof.
  intros Hp. induction tr as [|e l IH]; intros Hsync; [reflexivity|].
  cbn [forallb] in Hsync. apply andb_true_iff in Hsync as [He Hl].
  change (e :: l) with ([e] ++ l). rewrite count_events_app, IH by exact Hl.
  unfold count_events. cbn [filter list_filter]. rewrite (Hp e He).
  destruct (decide (false = true)); [discriminate|reflexivity].
Qed.

(** X12.  [Swap] borrows the EGL context and gives it back.  A cycle that
    returns, with a picture or with NULL, leaves [current] as it found it
    and the mutex free.  When the context was not current at entry, the
    cycle starts with eglMakeCurrent on the surface and makes exactly one
    other call of eglMakeCurrent, the release; when the context was current
    (the caller is between MakeCurrent and ReleaseCurrent), the cycle calls
    eglMakeCurrent not at all.  It never calls eglTerminate. *)
Theorem Swap_borrows_the_context :
  forall (nd : bool) (env : swap_env) (s : vlc_gl_pbuffer) (tr : list event)
         (c : pbo_picture_context) (r : option picture_t) (w' : world),
    lock s = false ->
    length (picture_contexts s) = BUFFER_COUNT ->
    picture_contexts s !! current_flip s = Some c ->
    Swap nd env (mk_world s tr) = Ret r w' ->
    current (sys w') = current s /\
    lock (sys w') = false /\
    exists new,
      trace w' = tr ++ new /\
      count_events is_bind_context new = (if current s then 0 else 1)%nat /\
      count_events is_release_context new = (if current s then 0 else 1)%nat /\
      count_events is_terminate new = 0%nat /\
      (current s = false -> head new = Some (EglMakeCurrent true)).
Proof.
  intros nd env s tr c r w' Hl Hlen Hc Hswap.
  rewrite (Swap_unfold nd env s tr c Hl Hc) in Hswap.
  unfold scan_world in Hswap.
  destruct (wait_free_trace nd (wakeups env)
              (with_pool (mapped_pool env s c) true s)
              (tr ++ read_trace s c ++
               [RcWrite (current_flip s) (rc c) (wrap_int (rc c + 1)) false;
                MutexLock]) eq_refl)
    as (tr' & Htr & Hsync & _).
  destruct (wait_free nd (wakeups env) _) as [index w2|w2|w2] eqn:Hw;
    try discriminate.
  apply wait_free_Ret in Hw as (n & tr'' & _ & Hsys & _);
    [|cbn [picture_contexts with_pool set_lock set_picture_contexts];
      rewrite mapped_pool_length; exact Hlen
     |reflexivity].
  destruct w2 as [s2 tr2]. cbn [sys trace world_of] in Htr, Hsys. subst s2 tr2.
  assert (Hb : count_events is_bind_context tr' = 0%nat)
    by (apply count_events_sync; [intros []; try discriminate; reflexivity|exact Hsync]).
  assert (Hr : count_events is_release_context tr' = 0%nat)
    by (apply count_events_sync; [intros []; try discriminate; reflexivity|exact Hsync]).
  assert (Ht : count_events is_terminate tr' = 0%nat)
    by (apply count_events_sync; [intros []; try discriminate; reflexivity|exact Hsync]).
  unfold swap_output, advanced in Hswap.
  cbn [sys trace with_pool set_lock set_picture_contexts set_current_flip
       picture_contexts current lock framebuffers] in Hswap.
  assert (Hcounts : forall extra,
            count_events is_bind_context extra = 0%nat ->
            count_events is_release_context extra = 0%nat ->
            count_events is_terminate extra = 0%nat ->
            let new := read_trace s c ++
                 [RcWrite (current_flip s) (rc c) (wrap_int (rc c + 1)) false;
                  MutexLock] ++ tr' ++
                 [MutexUnlock;
                  GlBindFramebuffer GL_DRAW_FRAMEBUFFER
                    (name_at (framebuffers s) index)] ++
                 (if current s then [] else [EglMakeCurrent false]) ++ extra in
            count_events is_bind_context new = (if current s then 0 else 1)%nat /\
            count_events is_release_context new = (if current s then 0 else 1)%nat /\
            count_events is_terminate new = 0%nat /\
            (current s = false -> head new = Some (EglMakeCurrent true))).
  { intros extra H1 H2 H3. cbv zeta. unfold read_trace.
    rewrite !count_events_app, Hb, Hr, Ht, H1, H2, H3.
    destruct (current s), (buffer_mapping c =? NULL);
      repeat split; try reflexivity; discriminate. }
  destruct (picture_alloc env).
  - injection Hswap as <- <-. cbn [sys trace current lock set_picture_contexts].
    split; [reflexivity|]. split; [reflexivity|].
    eexists. split; [|apply (Hcounts []); reflexivity].
    rewrite app_nil_r. rewrite <- !app_assoc. reflexivity.
  - destruct nd; [|discriminate].
    destruct (pool_after _ _ !! current_flip s) as [c2|].
    + injection Hswap as <- <-. cbn [sys trace current lock set_picture_contexts].
      split; [reflexivity|]. split; [reflexivity|].
      eexists. split;
        [|apply (Hcounts [RcWrite (current_flip s) (rc c2)
                            (wrap_int (rc c2 + -1)) false]); reflexivity].
      rewrite <- !app_assoc. reflexivity.
    + injection Hswap as <- <-. cbn [sys trace current lock].
      split; [reflexivity|]. split; [reflexivity|].
      eexists. split; [|apply (Hcounts []); reflexivity].
      rewrite app_nil_r. rewrite <- !app_assoc. reflexivity.
Qed.

Lemma Swap_borrows_the_context_witness :
  current (sys demo_first) = current (sys demo_opened) /\
  lock (sys demo_first) = false /\
  exists new,
    trace demo_first = [] ++ new /\
    count_events is_bind_context new =
      (if current (sys demo_opened) then 0 else 1)%nat /\
    count_events is_release_context new =
      (if current (sys demo_opened) then 0 else 1)%nat /\
    count_events is_terminate new = 0%nat /\
    (current (sys demo_opened) = false -> head new = Some (EglMakeCurrent true)).
Proof.
  apply (Swap_borrows_the_context false (demo_swap 100) (sys demo_opened) []
           (mk_context 5 NULL 0) (Some (demo_picture 100 3)) demo_first).
  - reflexivity.
  - reflexivity.
  - reflexivity.
  - vm_compute. reflexivity.
Defined.

(** ** The draw target after a cycle *)

(** X13.  Whenever [Swap] returns, with a picture or with NULL, the
    framebuffer left bound to GL_DRAW_FRAMEBUFFER is the one of the slot
    that [current_flip] now names, whatever was bound before and however
    long the cycle waited; that slot is one of the BUFFER_COUNT slots of
    the pool, and the names of the framebuffers are those of the entry.
    What the caller renders next therefore lands in the slot that the next
    cycle reads. *)
Theorem Swap_binds_the_next_draw_target :
  forall (nd : bool) (env : swap_env) (s : vlc_gl_pbuffer) (tr : list event)
         (c : pbo_picture_context) (r : option picture_t) (w' : world),
    lock s = false ->
    length (picture_contexts s) = BUFFER_COUNT ->
    picture_contexts s !! current_flip s = Some c ->
    Swap nd env (mk_world s tr) = Ret r w' ->
    draw_binding (trace w') =
      Some (name_at (framebuffers (sys w')) (current_flip (sys w'))) /\
    (current_flip (sys w') < BUFFER_COUNT)%nat /\
    framebuffers (sys w') = framebuffers s.
Proof.
  intros nd env s tr c r w' Hl Hlen Hc Hswap.
  destruct (Swap_Ret _ _ _ _ _ _ _ Hl Hlen Hc Hswap)
    as (n & index & w2 & _ & Hsys & Hfree & _ & Hout & _).
  apply scan_Free_inv in Hfree as (Hindex & _ & _).
  destruct w2 as [s2 tr2]. cbn [sys trace] in *. subst s2.
  unfold swap_output, advanced in Hout.
  cbn [sys trace with_pool set_lock set_picture_contexts set_current_flip
       picture_contexts current lock framebuffers] in Hout.
  assert (Hbind : forall extra,
            (forall b, fold_left bind_effect extra b = b) ->
            draw_binding
              ((tr2 ++
                [MutexUnlock;
                 GlBindFramebuffer GL_DRAW_FRAMEBUFFER
                   (name_at (framebuffers s) index)] ++
                (if current s then [] else [EglMakeCurrent false])) ++ extra) =
            Some (name_at (framebuffers s) index)).
  { intros extra Hextra. unfold draw_binding.
    rewrite !fold_left_app, Hextra. destruct (current s); reflexivity. }
  destruct (picture_alloc env).
  - injection Hout as <- <-.
    unfold with_pool. norm_state.
    split; [|split; [lia|reflexivity]].
    rewrite <- (Hbind []) by reflexivity. rewrite app_nil_r. reflexivity.
  - destruct nd; [|discriminate].
    destruct (pool_after _ _ !! current_flip s) as [c2|].
    + injection Hout as <- <-.
      unfold with_pool. norm_state.
      split; [|split; [lia|reflexivity]].
      apply Hbind. reflexivity.
    + injection Hout as <- <-.
      unfold with_pool. norm_state.
      split; [|split; [lia|reflexivity]].
      rewrite <- (Hbind []) by reflexivity. rewrite app_nil_r. reflexivity.
Qed.

Lemma Swap_binds_the_next_draw_target_witness :
  draw_binding (trace demo_first) =
    Some (name_at (framebuffers (sys demo_first)) (current_flip (sys demo_first))) /\
  (current_flip (sys demo_first) < BUFFER_COUNT)%nat /\
  framebuffers (sys demo_first) = framebuffers (sys demo_opened).
Proof.
  apply (Swap_binds_the_next_draw_target false (demo_swap 100) (sys demo_opened) []
           (mk_context 5 NULL 0) (Some (demo_picture 100 3)) demo_first).
  - reflexivity.
  - reflexivity.
  - reflexivity.
  - vm_compute. reflexivity.
Defined.
